(** * The autograder's C++ sandbox: the sample calculator, the image
    definition, and the execution service

    Two artefacts of the repository are embedded here:

    - [examples/assets/input_output/code_examples/cpp/advanced_calculator.cpp],
      the sample payload: a program that reads an operation and its operands
      from standard input and prints one line;
    - [sandbox_manager/images/Dockerfile.cpp], the definition of the image
      the payload is compiled and run in.

    The calculator is embedded as a computation in a monad that threads the
    process (the two streams) and distinguishes a normal result, a C++
    exception in flight, and undefined behaviour. The image definition is
    embedded as its list of instructions, with the effect of each on an
    image. The execution service that uses the image is not among the
    sources; what is proved of it is proved of a model of the specification.

    The definitions come first, the proofs after them. *)

From Stdlib Require Import ZArith List Bool Ascii String Lia.
From Stdlib Require Import DecimalString DecimalZ DecimalPos.
From Stdlib Require Import Floats.SpecFloat.
Import ListNotations.

Local Open Scope string_scope.
Local Open Scope Z_scope.

(** ** Characters and strings *)

Definition HT : ascii := ascii_of_nat 9.
Definition LF : ascii := ascii_of_nat 10.
Definition CR : ascii := ascii_of_nat 13.
Definition SP : ascii := ascii_of_nat 32.

(** The one-character string ["\n"]. *)
Definition nl : string := String LF "".

(** A text made of the given lines, each terminated by a line feed. *)
Fixpoint unlines (ls : list string) : string :=
  match ls with
  | [] => ""
  | l :: ls' => l ++ nl ++ unlines ls'
  end.

(** [char] values as their code, 0..255. *)
Definition code (c : ascii) : Z := Z.of_N (N_of_ascii c).

(** [::tolower] in the C locale, which is the program's (it never calls
    [setlocale]): the upper-case Latin letters are moved to lower case, every
    other character value, the bytes above 127 among them, is returned as it
    is. *)
Definition tolower (c : ascii) : ascii :=
  if (65 <=? code c) && (code c <=? 90)
  then ascii_of_N (N_of_ascii c + 32)
  else c.

(** [std::transform(s.begin(), s.end(), s.begin(), f)]. *)
Fixpoint transform (f : ascii -> ascii) (s : string) : string :=
  match s with
  | "" => ""
  | String c s' => String (f c) (transform f s')
  end.

(** [<cctype>]'s [isspace] in the C locale. *)
Definition isspace (c : ascii) : bool :=
  (code c =? 32) || ((9 <=? code c) && (code c <=? 13)).

Definition isdigit (c : ascii) : bool :=
  (48 <=? code c) && (code c <=? 57).

(** Membership of a character in a set given as a string. *)
Fixpoint mem (c : ascii) (set : string) : bool :=
  match set with
  | "" => false
  | String d set' => Ascii.eqb c d || mem c set'
  end.

(** ** [size_t] and the [std::string] members the program calls *)

(** [size_t] is 64 bits wide on the image's targets; arithmetic on it wraps. *)
Definition size_max : Z := 2 ^ 64 - 1.
Definition npos : Z := size_max.
Definition size_add (a b : Z) : Z := (a + b) mod 2 ^ 64.

Definition size (s : string) : Z := Z.of_nat (String.length s).

(** [s.find_first_not_of(set)]: the index of the first character of [s]
    that is not in [set], [npos] when there is none. *)
Fixpoint find_first_not_of_from (i : Z) (s set : string) : Z :=
  match s with
  | "" => npos
  | String c s' =>
      if mem c set then find_first_not_of_from (i + 1) s' set else i
  end.

Definition find_first_not_of (s set : string) : Z :=
  find_first_not_of_from 0 s set.

(** [s.find_last_not_of(set)]: the index of the last character of [s] that
    is not in [set], [npos] when there is none. *)
Fixpoint find_last_not_of_from (i : Z) (s set : string) : Z :=
  match s with
  | "" => npos
  | String c s' =>
      let r := find_last_not_of_from (i + 1) s' set in
      if r =? npos then (if mem c set then npos else i) else r
  end.

Definition find_last_not_of (s set : string) : Z :=
  find_last_not_of_from 0 s set.

(** The first [n] characters of [s], and [s] without them. *)
Fixpoint take (n : nat) (s : string) : string :=
  match n, s with
  | S n', String c s' => String c (take n' s')
  | _, _ => ""
  end.

Fixpoint drop (n : nat) (s : string) : string :=
  match n, s with
  | S n', String _ s' => drop n' s'
  | _, _ => s
  end.

(** ** The process: streams, exceptions, undefined behaviour *)

(** The exceptions the standard library raises in this program. *)
Inductive exception : Type :=
| invalid_argument
| out_of_range.

(** The ways the program can leave defined behaviour. *)
Inductive undefined : Type :=
| signed_overflow        (* an [int] result that is not representable *)
| division_by_zero       (* [/] or [%] with a zero divisor *)
| float_to_int_range.    (* [static_cast<int>] of a value outside [int] *)

(** The part of the process the program touches: what is left of standard
    input, whether [std::cin] is still [good()], and what was written to
    standard output. *)
Record process : Type := mkProcess {
  cin : string;
  cin_good : bool;
  cout : string
}.

Inductive result (A : Type) : Type :=
| Normal (a : A)
| Throw (e : exception)
| Undefined (u : undefined).

Arguments Normal {A} a.
Arguments Throw {A} e.
Arguments Undefined {A} u.

(** A computation: it runs in a process and leaves a result and the process
    as it is then (output written before an exception stays written). *)
Definition M (A : Type) : Type := process -> result A * process.

Definition ret {A} (a : A) : M A := fun p => (Normal a, p).

Definition bind {A B} (c : M A) (k : A -> M B) : M B :=
  fun p =>
    match c p with
    | (Normal a, p') => k a p'
    | (Throw e, p') => (Throw e, p')
    | (Undefined u, p') => (Undefined u, p')
    end.

Definition throw {A} (e : exception) : M A := fun p => (Throw e, p).

Definition undefined_behaviour {A} (u : undefined) : M A :=
  fun p => (Undefined u, p).

(** [try { c } catch (...) { h }]. *)
Definition try_catch {A} (c : M A) (h : M A) : M A :=
  fun p =>
    match c p with
    | (Throw _, p') => h p'
    | r => r
    end.

Declare Scope cpp_scope.
Delimit Scope cpp_scope with cpp.

Notation "x <- c ;; k" := (bind c (fun x => k))
  (at level 61, c at next level, right associativity) : cpp_scope.
Notation "c ;; k" := (bind c (fun _ => k))
  (at level 61, right associativity) : cpp_scope.
Notation "'try' c 'catch_all' h" := (try_catch c h)
  (at level 60, c at level 61, h at level 61) : cpp_scope.

Local Open Scope cpp_scope.

(** A call of a library function that returns or raises. *)
Definition call {A} (r : exception + A) : M A :=
  match r with
  | inl e => throw e
  | inr a => ret a
  end.

(** [s.erase(pos, n)]: removes [min(n, size() - pos)] characters from
    [pos] on; [std::out_of_range] when [pos > size()]. *)
Definition erase (s : string) (pos n : Z) : exception + string :=
  if size s <? pos then inl out_of_range
  else
    let k := Z.min n (size s - pos) in
    inr (take (Z.to_nat pos) s ++ drop (Z.to_nat (pos + k)) s).

(** The characters of [s] up to the first line feed, and what follows it
    ([None] when [s] holds no line feed). *)
Fixpoint split_line (s : string) : string * option string :=
  match s with
  | "" => ("", None)
  | String c s' =>
      if Ascii.eqb c LF then ("", Some s')
      else let (l, r) := split_line s' in (String c l, r)
  end.

(** [std::getline(std::cin, str)] on an empty [str]. On a stream that is
    not [good()] nothing is extracted and [str] is left empty. Otherwise the
    characters up to the next line feed are moved to [str] and the line feed
    is dropped; when the input ends first, [eofbit] is set. *)
Definition getline : M string :=
  fun p =>
    if cin_good p then
      match split_line (cin p) with
      | (l, Some rest) => (Normal l, mkProcess rest true (cout p))
      | (l, None) => (Normal l, mkProcess "" false (cout p))
      end
    else (Normal "", p).

(** [std::cout << s]. *)
Definition put (s : string) : M unit :=
  fun p => (Normal tt, mkProcess (cin p) (cin_good p) (cout p ++ s)).

(** [std::cout << std::endl]. *)
Definition endl : M unit := put nl.

(** ** [int] *)

Definition INT_MIN : Z := - 2 ^ 31.
Definition INT_MAX : Z := 2 ^ 31 - 1.

Definition is_int (v : Z) : bool := (INT_MIN <=? v) && (v <=? INT_MAX).

(** The result of an [int] operation whose mathematical value is [v]. *)
Definition int_result (v : Z) : M Z :=
  if is_int v then ret v else undefined_behaviour signed_overflow.

Definition int_add (a b : Z) : M Z := int_result (a + b).
Definition int_sub (a b : Z) : M Z := int_result (a - b).
Definition int_mul (a b : Z) : M Z := int_result (a * b).

(** [a / b]: the quotient truncated toward zero. *)
Definition int_div (a b : Z) : M Z :=
  if b =? 0 then undefined_behaviour division_by_zero
  else int_result (Z.quot a b).

(** [a % b]: defined when [a / b] is. *)
Definition int_rem (a b : Z) : M Z :=
  if b =? 0 then undefined_behaviour division_by_zero
  else if is_int (Z.quot a b) then ret (Z.rem a b)
  else undefined_behaviour signed_overflow.

(** [std::cout << v] for an [int]: its decimal digits, a minus sign first
    when it is negative. *)
Definition to_chars (v : Z) : string := NilZero.string_of_int (Z.to_int v).

Definition put_int (v : Z) : M unit := put (to_chars v).

(** ** [std::stoi] *)

Fixpoint skip_space (s : string) : string :=
  match s with
  | String c s' => if isspace c then skip_space s' else s
  | "" => ""
  end.

Definition digit_value (c : ascii) : Z := code c - 48.

(** The value of the longest prefix of [s] made of decimal digits, read
    after the digits whose value is [acc]. *)
Fixpoint accumulate (acc : Z) (s : string) : Z :=
  match s with
  | String c s' =>
      if isdigit c then accumulate (10 * acc + digit_value c) s' else acc
  | "" => acc
  end.

Definition starts_with_digit (s : string) : bool :=
  match s with
  | String c _ => isdigit c
  | "" => false
  end.

(** [strtol(s, &end, 10)]: white space is skipped, then an optional sign and
    the longest run of digits are read. [None] when no digit is there (no
    conversion, [end == s]). The value is the exact one: where [strtol]
    saturates and sets [ERANGE], [stoi] raises the same exception as for any
    other value outside [int]. *)
Definition strtol (s : string) : option Z :=
  let s1 := skip_space s in
  let '(neg, s2) :=
    match s1 with
    | String c r =>
        if Ascii.eqb c "-" then (true, r)
        else if Ascii.eqb c "+" then (false, r)
        else (false, s1)
    | "" => (false, s1)
    end in
  if starts_with_digit s2
  then Some (if neg then - accumulate 0 s2 else accumulate 0 s2)
  else None.

(** [std::stoi(s)]: [std::invalid_argument] when [strtol] converts
    nothing, [std::out_of_range] when the value is not an [int]. *)
Definition stoi (s : string) : exception + Z :=
  match strtol s with
  | None => inl invalid_argument
  | Some v => if is_int v then inr v else inl out_of_range
  end.

(** ** [double] *)

(** IEEE 754 binary64. *)
Definition double : Type := spec_float.
Definition prec : Z := 53.
Definition emax : Z := 1024.

(** The conversion of an [int] to [double]; it is exact. *)
Definition double_of_int (a : Z) : double := binary_normalize prec emax a 0 false.

(** [num < 0]. *)
Definition double_ltb (x y : double) : bool := SFltb x y.
Definition double_zero : double := S754_zero false.

(** [std::sqrt], correctly rounded. *)
Definition sqrt (x : double) : double := SFsqrt prec emax x.

(** The integral part of a finite [double]. *)
Definition truncate (d : double) : option Z :=
  match d with
  | S754_zero _ => Some 0
  | S754_finite s m e => Some (cond_Zopp s (Z.shiftl (Zpos m) e))
  | S754_infinity _ | S754_nan => None
  end.

(** [static_cast<int>(d)]: the fractional part is discarded; the behaviour
    is undefined when the integral part is not an [int]. *)
Definition int_of_double (d : double) : M Z :=
  match truncate d with
  | Some v => if is_int v then ret v else undefined_behaviour float_to_int_range
  | None => undefined_behaviour float_to_int_range
  end.

(** The two functions of the C and C++ libraries whose results depend on the
    implementation (accuracy of [pow], the range errors of [strtod]): the
    program is embedded over any choice of them. *)
Record float_library : Type := {
  lib_stod : string -> exception + double;   (* [std::stod] *)
  lib_pow : double -> double -> double        (* [std::pow] *)
}.

(** ** The program *)

Section Calculator.

Variable lib : float_library.

Definition stod (s : string) : exception + double := lib_stod lib s.

Definition pow (a b : Z) : double :=
  lib_pow lib (double_of_int a) (double_of_int b).

(** The characters [find_first_not_of] and [find_last_not_of] are given. *)
Definition blanks : string := String SP (String HT (String LF (String CR ""))).

(** Lines 13 to 17: lower case, then both trims. *)
Definition normalize (operation : string) : M string :=
  let operation := transform tolower operation in
  operation <- call (erase operation 0 (find_first_not_of operation blanks)) ;;
  call (erase operation (size_add (find_last_not_of operation blanks) 1) npos).

(** Lines 19 to 33. *)
Definition sqrt_branch : M Z :=
  numStr <- getline ;;
  (try
     (num <- call (stod numStr) ;;
      if double_ltb num double_zero then
        put "Error: Invalid input" ;; endl
      else
        v <- int_of_double (sqrt num) ;;
        put_int v ;; endl)
   catch_all
     (put "Error: Invalid input" ;; endl)) ;;
  ret 0.

(** Lines 48 to 66. *)
Definition compute (operation : string) (a b : Z) : M unit :=
  if String.eqb operation "add" then
    v <- int_add a b ;; put_int v ;; endl
  else if String.eqb operation "subtract" then
    v <- int_sub a b ;; put_int v ;; endl
  else if String.eqb operation "multiply" then
    v <- int_mul a b ;; put_int v ;; endl
  else if String.eqb operation "divide" then
    if b =? 0 then
      put "Error: Division by zero" ;; endl
    else
      v <- int_div a b ;; put_int v ;; endl
  else if String.eqb operation "power" then
    v <- int_of_double (pow a b) ;; put_int v ;; endl
  else if String.eqb operation "modulo" then
    v <- int_rem a b ;; put_int v ;; endl
  else
    put "Error: Unknown operation" ;; endl.

(** Lines 35 to 68. The [try] block yields the two operands; its handler
    prints the message and yields the status [main] returns at once. *)
Definition binary_branch (operation : string) : M Z :=
  input1 <- getline ;;
  input2 <- getline ;;
  r <- (try
          (a <- call (stoi input1) ;;
           b <- call (stoi input2) ;;
           ret (inr (a, b)))
        catch_all
          (put "Error: Invalid input" ;; endl ;; ret (inl 0))) ;;
  match r with
  | inl status => ret status
  | inr (a, b) => compute operation a b ;; ret 0
  end.

Definition main : M Z :=
  operation <- getline ;;
  operation <- normalize operation ;;
  if String.eqb operation "sqrt" then sqrt_branch else binary_branch operation.

(** What the caller of the program observes. *)
Inductive outcome : Type :=
| Exited (status : Z) (stdout : string)
| Terminated (e : exception) (stdout : string)   (* uncaught exception *)
| Undefined_behaviour (u : undefined) (stdout : string).

Definition outcome_of (r : result Z * process) : outcome :=
  match r with
  | (Normal status, p) => Exited status (cout p)
  | (Throw e, p) => Terminated e (cout p)
  | (Undefined u, p) => Undefined_behaviour u (cout p)
  end.

(** A run of the program on the standard input [stdin]: [std::cin] is
    good, nothing is written yet. *)
Definition run (stdin : string) : outcome :=
  outcome_of (main (mkProcess stdin true "")).

End Calculator.

(** ** A reference [float_library]

    Decimal and hexadecimal literals are converted with correct rounding,
    the words [inf], [infinity] and [nan] are read in any letter case, and
    [pow] is correctly rounded on the integral arguments the program passes
    to it. A literal whose value overflows, or is too small for a normal
    number, raises [std::out_of_range], as [strtod]'s [ERANGE] makes
    [std::stod] do. *)

Module Reference.

(** The [double] nearest to [p / q] (ties to even), with sign [neg]. *)
Definition round_ratio (neg : bool) (p q : positive) : double :=
  let k := 56 + Z.log2 (Zpos q) - Z.log2 (Zpos p) in
  let num := if 0 <=? k then Z.shiftl (Zpos p) k else Zpos p in
  let den := if 0 <=? k then Zpos q else Z.shiftl (Zpos q) (- k) in
  let (n, r) := Z.div_eucl num den in
  let l := if r =? 0 then loc_Exact else loc_Inexact (Z.compare (2 * r) den) in
  binary_round_aux prec emax neg n (- k) l.

(** The [double] nearest to [m * 10 ^ e], for [0 < m]. *)
Definition round_decimal (neg : bool) (m e : Z) : double :=
  if 0 <=? e then round_ratio neg (Z.to_pos (m * 10 ^ e)) 1
  else round_ratio neg (Z.to_pos m) (Z.to_pos (10 ^ (- e))).

(** The leading decimal digits of [s]: their value after [acc], how many
    they are after [n], and the rest of [s]. *)
Fixpoint scan_digits (acc n : Z) (s : string) : Z * Z * string :=
  match s with
  | String c s' =>
      if isdigit c then scan_digits (10 * acc + digit_value c) (n + 1) s'
      else (acc, n, s)
  | "" => (acc, n, s)
  end.

Definition scan_sign (s : string) : bool * string :=
  match s with
  | String c r =>
      if Ascii.eqb c "-" then (true, r)
      else if Ascii.eqb c "+" then (false, r)
      else (false, s)
  | "" => (false, s)
  end.

(** The exponent part, when it is complete ([e] or [E], an optional sign,
    at least one digit); 0 otherwise. *)
Definition scan_exponent (s : string) : Z :=
  match s with
  | String c r =>
      if Ascii.eqb c "e" || Ascii.eqb c "E" then
        let (neg, r') := scan_sign r in
        let '(v, n, _) := scan_digits 0 0 r' in
        if n =? 0 then 0 else if neg then - v else v
      else 0
  | "" => 0
  end.

(** A decimal literal as sign, mantissa [m] and exponent [e], its value
    being [m * 10 ^ e]; [None] when no digit is there. *)
Definition scan_decimal (s : string) : option (bool * Z * Z) :=
  let (neg, s2) := scan_sign (skip_space s) in
  let '(ip, ni, s3) := scan_digits 0 0 s2 in
  let '(m, nf, s4) :=
    match s3 with
    | String c r => if Ascii.eqb c "." then scan_digits ip 0 r else (ip, 0, s3)
    | "" => (ip, 0, s3)
    end in
  if ni + nf =? 0 then None
  else Some (neg, m, scan_exponent s4 - nf).

Definition normal (d : double) : bool :=
  match d with
  | S754_finite _ m _ => 53 <=? Z.log2 (Zpos m) + 1
  | _ => false
  end.

(** [s] starts with [word], a word in lower case, letter case apart. *)
Fixpoint starts_with (word s : string) : bool :=
  match word, s with
  | "", _ => true
  | String w word', String c s' => Ascii.eqb w (tolower c) && starts_with word' s'
  | String _ _, "" => false
  end.

Definition hex_value (c : ascii) : option Z :=
  if isdigit c then Some (digit_value c)
  else
    let n := code (tolower c) in
    if (97 <=? n) && (n <=? 102) then Some (n - 87) else None.

(** The leading hexadecimal digits of [s], as [scan_digits] has the decimal
    ones. *)
Fixpoint scan_hex (acc n : Z) (s : string) : Z * Z * string :=
  match s with
  | String c s' =>
      match hex_value c with
      | Some v => scan_hex (16 * acc + v) (n + 1) s'
      | None => (acc, n, s)
      end
  | "" => (acc, n, s)
  end.

(** The binary exponent part of a hexadecimal literal, when it is complete
    ([p] or [P], an optional sign, at least one decimal digit); 0 otherwise. *)
Definition scan_binary_exponent (s : string) : Z :=
  match s with
  | String c r =>
      if Ascii.eqb c "p" || Ascii.eqb c "P" then
        let (neg, r') := scan_sign r in
        let '(v, n, _) := scan_digits 0 0 r' in
        if n =? 0 then 0 else if neg then - v else v
      else 0
  | "" => 0
  end.

(** A hexadecimal literal without its sign, as mantissa [m] and exponent
    [e], its value being [m * 2 ^ e]; [None] when [s] does not start with
    [0x] and a hexadecimal digit (the [0] is then a decimal literal). *)
Definition scan_hexadecimal (s : string) : option (Z * Z) :=
  match s with
  | String c0 (String c1 s2) =>
      if Ascii.eqb c0 "0" && (Ascii.eqb c1 "x" || Ascii.eqb c1 "X") then
        let '(ip, ni, s3) := scan_hex 0 0 s2 in
        let '(m, nf, s4) :=
          match s3 with
          | String c r => if Ascii.eqb c "." then scan_hex ip 0 r else (ip, 0, s3)
          | "" => (ip, 0, s3)
          end in
        if ni + nf =? 0 then None
        else Some (m, scan_binary_exponent s4 - 4 * nf)
      else None
  | _ => None
  end.

(** The [double] nearest to [m * 2 ^ e], for [0 < m]. *)
Definition round_binary (neg : bool) (m e : Z) : double :=
  if 0 <=? e then round_ratio neg (Z.to_pos (m * 2 ^ e)) 1
  else round_ratio neg (Z.to_pos m) (Z.to_pos (2 ^ (- e))).

(** A finite result of [strtod] as [std::stod] hands it on. *)
Definition in_range (neg : bool) (m : Z) (d : double) : exception + double :=
  if m =? 0 then inr (S754_zero neg)
  else if normal d then inr d else inl out_of_range.

Definition stod (s : string) : exception + double :=
  let (neg, s2) := scan_sign (skip_space s) in
  if starts_with "inf" s2 then inr (S754_infinity neg)
  else if starts_with "nan" s2 then inr S754_nan
  else
    match scan_hexadecimal s2 with
    | Some (m, e) => in_range neg m (round_binary neg m e)
    | None =>
        match scan_decimal s with
        | None => inl invalid_argument
        | Some (neg, m, e) => in_range neg m (round_decimal neg m e)
        end
    end.

(** The integer a finite [double] is, when it is one. *)
Definition integral (d : double) : option Z :=
  match d with
  | S754_zero _ => Some 0
  | S754_finite s m e =>
      if 0 <=? e then Some (cond_Zopp s (Z.shiftl (Zpos m) e))
      else if Z.land (Zpos m) (Z.ones (- e)) =? 0
           then Some (cond_Zopp s (Z.shiftl (Zpos m) e))
           else None
  | S754_infinity _ | S754_nan => None
  end.

Definition pow (x y : double) : double :=
  match integral x, integral y with
  | Some a, Some b =>
      if b =? 0 then double_of_int 1
      else if a =? 0 then
        (if 0 <? b then S754_zero false else S754_infinity false)
      else
        let neg := (a <? 0) && Z.odd b in
        if 0 <? b then round_ratio neg (Z.to_pos (Z.abs a ^ b)) 1
        else round_ratio neg 1 (Z.to_pos (Z.abs a ^ (- b)))
  | _, _ => S754_nan
  end.

Definition library : float_library :=
  {| lib_stod := stod; lib_pow := pow |}.

End Reference.

(** ** What the program reads *)

(** The process a run starts in. *)
Definition start (stdin : string) : process := mkProcess stdin true "".

(** The line a [getline] reads in [p], and the process it leaves. *)
Definition next_line (p : process) : string :=
  if cin_good p then fst (split_line (cin p)) else "".

Definition after_line (p : process) : process :=
  if cin_good p then
    match snd (split_line (cin p)) with
    | Some rest => mkProcess rest true (cout p)
    | None => mkProcess "" false (cout p)
    end
  else p.

(** The [k]-th line the program reads from [stdin], counted from 0. *)
Definition stdin_line (k : nat) (stdin : string) : string :=
  next_line (Nat.iter k after_line (start stdin)).

(** The white space around [s] removed: what the two [erase] calls leave. *)
Fixpoint strip_left (s : string) : string :=
  match s with
  | String c s' => if mem c blanks then strip_left s' else s
  | "" => ""
  end.

Fixpoint strip_right (s : string) : string :=
  match s with
  | String c s' =>
      match strip_right s' with
      | "" => if mem c blanks then "" else String c ""
      | r => String c r
      end
  | "" => ""
  end.

Definition trimmed (s : string) : string :=
  strip_right (strip_left (transform tolower s)).

(** The operation a run selects: the first line in lower case, trimmed. *)
Definition selected (stdin : string) : string :=
  trimmed (stdin_line 0 stdin).

(** ** The vocabulary of the statements *)

(** Whether a library call raises. *)
Definition raises {A} (r : exception + A) : bool :=
  match r with
  | inl _ => true
  | inr _ => false
  end.

(** The process after the message of a rejected operand is written. *)
Definition rejected (p : process) : process :=
  mkProcess (cin p) (cin_good p) ((cout p ++ "Error: Invalid input") ++ nl).

(** A computation that never ends with an exception in flight. *)
Definition contained {A} (c : M A) : Prop :=
  forall p e p', c p <> (Throw e, p').

(** A computation that returns 0 when it returns. *)
Definition returns_zero (c : M Z) : Prop :=
  forall p status p', c p = (Normal status, p') -> status = 0.

(** A computation that never evaluates [/] or [%] with a zero divisor. *)
Definition guarded {A} (c : M A) : Prop :=
  forall p p', c p <> (Undefined division_by_zero, p').

(** Every character of [s] satisfies [f]. *)
Fixpoint all (f : ascii -> bool) (s : string) : bool :=
  match s with
  | String c s' => f c && all f s'
  | "" => true
  end.

(** A space, a tab or a carriage return. *)
Definition padding (c : ascii) : bool :=
  Ascii.eqb c SP || Ascii.eqb c HT || Ascii.eqb c CR.

Definition upper (c : ascii) : bool := (65 <=? code c) && (code c <=? 90).

(** The same character, or the same Latin letter in the other case. *)
Definition same_letter (c d : ascii) : bool :=
  Ascii.eqb c d
  || (upper c && (code d =? code c + 32))
  || (upper d && (code c =? code d + 32)).

(** Two strings that differ in letter case only. *)
Fixpoint case_variant (s t : string) : bool :=
  match s, t with
  | "", "" => true
  | String c s', String d t' => same_letter c d && case_variant s' t'
  | _, _ => false
  end.

(** What may follow the first line: the end of the input, or a line feed
    and more. *)
Definition ends_line (tail : string) : bool :=
  match tail with
  | "" => true
  | String c _ => Ascii.eqb c LF
  end.

Definition no_line_feed (s : string) : bool :=
  all (fun c => negb (Ascii.eqb c LF)) s.

(** The value of the digits of [d] read after the digits whose value is
    [acc]. *)
Fixpoint uint_value (d : Decimal.uint) (acc : Z) : Z :=
  match d with
  | Decimal.Nil => acc
  | Decimal.D0 l => uint_value l (10 * acc + 0)
  | Decimal.D1 l => uint_value l (10 * acc + 1)
  | Decimal.D2 l => uint_value l (10 * acc + 2)
  | Decimal.D3 l => uint_value l (10 * acc + 3)
  | Decimal.D4 l => uint_value l (10 * acc + 4)
  | Decimal.D5 l => uint_value l (10 * acc + 5)
  | Decimal.D6 l => uint_value l (10 * acc + 6)
  | Decimal.D7 l => uint_value l (10 * acc + 7)
  | Decimal.D8 l => uint_value l (10 * acc + 8)
  | Decimal.D9 l => uint_value l (10 * acc + 9)
  end.

(** What the caller captures of a run. *)
Definition stdout_of (o : outcome) : string :=
  match o with
  | Exited _ out | Terminated _ out | Undefined_behaviour _ out => out
  end.

Definition exit_status (o : outcome) : option Z :=
  match o with
  | Exited status _ => Some status
  | Terminated _ _ | Undefined_behaviour _ _ => None
  end.

(** * The program and the system that runs it

    The calculator once more, this time as the requests it makes of the
    system it runs on, so that what it asks for and what it never asks for
    can be told apart. *)

Module System.

(** What the operating system hands to a process when it starts it. *)
Record environment : Type := {
  env_stdin : string;                       (* the contents of standard input *)
  env_argv : list string;                   (* the command line *)
  env_environ : list (string * string);     (* the environment variables *)
  env_clock : Z;                            (* the time of day *)
  env_files : list (string * string)        (* the files it may open: path, contents *)
}.

(** What a C++ program can ask of the system. *)
Inductive request : Type -> Type :=
| Getline : request string                          (* [std::getline(std::cin, s)] *)
| Put (text : string) : request unit                (* [std::cout << text] *)
| Argv : request (list string)                      (* [argc] and [argv] *)
| Getenv (name : string) : request (option string)  (* [std::getenv] *)
| Clock : request Z                                 (* [std::time] *)
| Read (path : string) : request (option string)    (* [std::ifstream] *)
| Save (path text : string) : request unit.         (* [std::ofstream] *)

(** A program: it returns, raises, leaves defined behaviour, or makes a
    request and goes on with the answer. *)
Inductive program (A : Type) : Type :=
| Return (a : A)
| Raise (e : exception)
| Leave (u : undefined)
| Ask {X : Type} (r : request X) (k : X -> program A).

Arguments Return {A} a.
Arguments Raise {A} e.
Arguments Leave {A} u.
Arguments Ask {A X} r k.

Fixpoint bind {A B} (c : program A) (k : A -> program B) : program B :=
  match c with
  | Return a => k a
  | Raise e => Raise e
  | Leave u => Leave u
  | Ask r k' => Ask r (fun x => bind (k' x) k)
  end.

(** [try { c } catch (...) { h }]. *)
Fixpoint try_catch {A} (c h : program A) : program A :=
  match c with
  | Return a => Return a
  | Raise _ => h
  | Leave u => Leave u
  | Ask r k => Ask r (fun x => try_catch (k x) h)
  end.

Declare Scope program_scope.
Delimit Scope program_scope with program.

Notation "x <- c ;; k" := (bind c (fun x => k))
  (at level 61, c at next level, right associativity) : program_scope.
Notation "c ;; k" := (bind c (fun _ => k))
  (at level 61, right associativity) : program_scope.
Notation "'try' c 'catch_all' h" := (try_catch c h)
  (at level 60, c at level 61, h at level 61) : program_scope.

Local Open Scope program_scope.

Definition call {A} (r : exception + A) : program A :=
  match r with
  | inl e => Raise e
  | inr a => Return a
  end.

Definition getline : program string := Ask Getline Return.
Definition put (s : string) : program unit := Ask (Put s) Return.
Definition endl : program unit := put nl.
Definition put_int (v : Z) : program unit := put (to_chars v).

Definition int_result (v : Z) : program Z :=
  if is_int v then Return v else Leave signed_overflow.

Definition int_add (a b : Z) : program Z := int_result (a + b).
Definition int_sub (a b : Z) : program Z := int_result (a - b).
Definition int_mul (a b : Z) : program Z := int_result (a * b).

Definition int_div (a b : Z) : program Z :=
  if b =? 0 then Leave division_by_zero
  else int_result (Z.quot a b).

Definition int_rem (a b : Z) : program Z :=
  if b =? 0 then Leave division_by_zero
  else if is_int (Z.quot a b) then Return (Z.rem a b)
  else Leave signed_overflow.

Definition int_of_double (d : double) : program Z :=
  match truncate d with
  | Some v => if is_int v then Return v else Leave float_to_int_range
  | None => Leave float_to_int_range
  end.

Section Calculator.

Variable lib : float_library.

(** Lines 13 to 17. *)
Definition normalize (operation : string) : program string :=
  let operation := transform tolower operation in
  operation <- call (erase operation 0 (find_first_not_of operation blanks)) ;;
  call (erase operation (size_add (find_last_not_of operation blanks) 1) npos).

(** Lines 19 to 33. *)
Definition sqrt_branch : program Z :=
  numStr <- getline ;;
  (try
     (num <- call (stod lib numStr) ;;
      if double_ltb num double_zero then
        put "Error: Invalid input" ;; endl
      else
        v <- int_of_double (sqrt num) ;;
        put_int v ;; endl)
   catch_all
     (put "Error: Invalid input" ;; endl)) ;;
  Return 0.

(** Lines 48 to 66. *)
Definition compute (operation : string) (a b : Z) : program unit :=
  if String.eqb operation "add" then
    v <- int_add a b ;; put_int v ;; endl
  else if String.eqb operation "subtract" then
    v <- int_sub a b ;; put_int v ;; endl
  else if String.eqb operation "multiply" then
    v <- int_mul a b ;; put_int v ;; endl
  else if String.eqb operation "divide" then
    if b =? 0 then
      put "Error: Division by zero" ;; endl
    else
      v <- int_div a b ;; put_int v ;; endl
  else if String.eqb operation "power" then
    v <- int_of_double (pow lib a b) ;; put_int v ;; endl
  else if String.eqb operation "modulo" then
    v <- int_rem a b ;; put_int v ;; endl
  else
    put "Error: Unknown operation" ;; endl.

(** Lines 35 to 68. *)
Definition binary_branch (operation : string) : program Z :=
  input1 <- getline ;;
  input2 <- getline ;;
  r <- (try
          (a <- call (stoi input1) ;;
           b <- call (stoi input2) ;;
           Return (inr (a, b)))
        catch_all
          (put "Error: Invalid input" ;; endl ;; Return (inl 0))) ;;
  match r with
  | inl status => Return status
  | inr (a, b) => compute operation a b ;; Return 0
  end.

(** [int main()]: it has no parameter. *)
Definition main : program Z :=
  operation <- getline ;;
  operation <- normalize operation ;;
  if String.eqb operation "sqrt" then sqrt_branch else binary_branch operation.

End Calculator.

(** ** Running a program *)

(** The process and the files, while a program runs. *)
Record state : Type := mkState {
  st_process : process;
  st_files : list (string * string)
}.

Fixpoint lookup (name : string) (l : list (string * string)) : option string :=
  match l with
  | [] => None
  | (n, v) :: l' => if String.eqb n name then Some v else lookup name l'
  end.

(** The answer of the system to a request, and the state it leaves. A line
    is read and a text is written as [std::getline] and [std::cout] do it in
    the process. *)
Definition answer (e : environment) {X} (r : request X) (s : state) : X * state :=
  match r in request X return X * state with
  | Getline =>
      (next_line (st_process s), mkState (after_line (st_process s)) (st_files s))
  | Put text =>
      let p := st_process s in
      (tt, mkState (mkProcess (cin p) (cin_good p) (cout p ++ text)) (st_files s))
  | Argv => (env_argv e, s)
  | Getenv name => (lookup name (env_environ e), s)
  | Clock => (env_clock e, s)
  | Read path => (lookup path (st_files s), s)
  | Save path text => (tt, mkState (st_process s) ((path, text) :: st_files s))
  end.

Fixpoint exec {A} (e : environment) (c : program A) (s : state) : result A * state :=
  match c with
  | Return a => (Normal a, s)
  | Raise x => (Throw x, s)
  | Leave u => (Undefined u, s)
  | Ask r k => let (x, s') := answer e r s in exec e (k x) s'
  end.

(** The state a process starts in. *)
Definition boot (e : environment) : state :=
  mkState (start (env_stdin e)) (env_files e).

(** The requests that concern the two standard streams only. *)
Inductive stdio_only {A} : program A -> Prop :=
| stdio_return (a : A) : stdio_only (Return a)
| stdio_raise (x : exception) : stdio_only (Raise x)
| stdio_leave (u : undefined) : stdio_only (Leave u)
| stdio_getline (k : string -> program A) :
    (forall l, stdio_only (k l)) -> stdio_only (Ask Getline k)
| stdio_put (text : string) (k : unit -> program A) :
    (forall x, stdio_only (k x)) -> stdio_only (Ask (Put text) k).

(** Not the calculator: a program that prints the time of day. *)
Definition clock_reader : program Z :=
  t <- Ask Clock Return ;; put_int t ;; endl ;; Return 0.

End System.

(** The calculator started in an environment: what its caller observes,
    and the files it leaves. *)
Definition launch (lib : float_library) (e : System.environment) : outcome :=
  let (r, s) := System.exec e (System.main lib) (System.boot e) in
  outcome_of (r, System.st_process s).

Definition files_after (lib : float_library) (e : System.environment) :
    list (string * string) :=
  System.st_files (snd (System.exec e (System.main lib) (System.boot e))).

(** A program, as the requests it makes, does what a computation does in the
    process, and leaves the files as they are. *)
Definition refines {A} (c : System.program A) (m : M A) : Prop :=
  forall (e : System.environment) (s : System.state),
    System.exec e c s =
    (fst (m (System.st_process s)),
     System.mkState (snd (m (System.st_process s))) (System.st_files s)).

(** * The image definition *)

Module Image.

(** The instructions [Dockerfile.cpp] uses. A [RUN] in shell form holds the
    commands its [&&] joins, each as its words. *)
Inductive instruction : Type :=
| FROM (reference : string)
| RUN (commands : list (list string))
| WORKDIR (path : string)
| VOLUME (paths : list string)
| USER (name : string)
| CMD (argv : list string).

Definition Dockerfile_cpp : list instruction :=
  [ FROM "alpine:3.18";
    RUN [["apk"; "add"; "--no-cache"; "gcc"; "g++"; "make"; "musl-dev"]];
    RUN [["addgroup"; "-S"; "sandbox"];
         ["adduser"; "-S"; "sandbox"; "-G"; "sandbox"]];
    RUN [["rm"; "-rf"; "/sbin/apk"; "/etc/apk"; "/lib/apk"; "/usr/share/apk"]];
    RUN [["rm"; "-f"; "/usr/bin/wget"; "/usr/bin/curl"; "/usr/bin/nc"]];
    WORKDIR "/app";
    RUN [["chown"; "sandbox:sandbox"; "/app"]];
    VOLUME ["/app"];
    USER "sandbox";
    CMD ["g++"; "--version"] ].

(** ** Images *)

Inductive kind : Type := Directory | Regular.

Record inode : Type := mkInode {
  node_kind : kind;
  node_owner : string;
  node_group : string;
  node_mode : Z                       (* the permission bits *)
}.

(** A file system, by absolute path. *)
Definition filesystem : Type := string -> option inode.

Record image : Type := mkImage {
  files : filesystem;
  user : string;                      (* who [RUN] and the command run as *)
  workdir : string;
  volumes : list string;
  cmd : list string
}.

(** [path] is [dir] or lies below it. *)
Definition under (dir path : string) : bool :=
  String.eqb dir path || String.prefix (dir ++ "/") path.

(** [rm -rf path]: the path and all below it are gone; a missing path is
    no error. *)
Definition remove_tree (path : string) (fs : filesystem) : filesystem :=
  fun p => if under path p then None else fs p.

(** [rm -f path]: a missing path is no error, a directory is one. *)
Definition remove_file (path : string) (fs : filesystem) : option filesystem :=
  match fs path with
  | None => Some fs
  | Some n =>
      match node_kind n with
      | Directory => None
      | Regular => Some (fun p => if String.eqb path p then None else fs p)
      end
  end.

Fixpoint remove_files (paths : list string) (fs : filesystem) : option filesystem :=
  match paths with
  | [] => Some fs
  | path :: paths' =>
      match remove_file path fs with
      | Some fs' => remove_files paths' fs'
      | None => None
      end
  end.

(** The owner and the group of [owner:group]. *)
Fixpoint owner_group (spec : string) : string * string :=
  match spec with
  | "" => ("", "")
  | String c spec' =>
      if Ascii.eqb c ":" then ("", spec')
      else let (o, g) := owner_group spec' in (String c o, g)
  end.

(** [chown owner:group path]. *)
Definition chown (spec path : string) (fs : filesystem) : option filesystem :=
  match fs path with
  | None => None
  | Some n =>
      let (o, g) := owner_group spec in
      Some (fun p =>
              if String.eqb path p
              then Some (mkInode (node_kind n) o g (node_mode n))
              else fs p)
  end.

(** A user other than root may write to a node by its permission bits:
    the owner's, else the group's, else the others'. *)
Definition may_write (fs : filesystem) (who : string) (groups : list string)
    (path : string) : bool :=
  match fs path with
  | None => false
  | Some n =>
      if String.eqb (node_owner n) who then Z.testbit (node_mode n) 7
      else if existsb (String.eqb (node_group n)) groups
           then Z.testbit (node_mode n) 4
           else Z.testbit (node_mode n) 1
  end.

Section Build.

(** The image [FROM] names, and the programs of the image whose effect on
    the file system is their own ([apk], [addgroup], [adduser]). *)
Variable base : image.
Variable tool : list string -> filesystem -> option filesystem.

Definition exec (argv : list string) (fs : filesystem) : option filesystem :=
  match argv with
  | [] => Some fs
  | prog :: args =>
      if String.eqb prog "rm" then
        match args with
        | flag :: paths =>
            if String.eqb flag "-rf" then Some (fold_right remove_tree fs paths)
            else if String.eqb flag "-f" then remove_files paths fs
            else tool argv fs
        | [] => tool argv fs
        end
      else if String.eqb prog "chown" then
        match args with
        | [spec; path] => chown spec path fs
        | _ => tool argv fs
        end
      else tool argv fs
  end.

(** [c1 && c2 && ...]. *)
Fixpoint exec_all (commands : list (list string)) (fs : filesystem) : option filesystem :=
  match commands with
  | [] => Some fs
  | argv :: commands' =>
      match exec argv fs with
      | Some fs' => exec_all commands' fs'
      | None => None
      end
  end.

(** One instruction. [RUN] is given for root, who may remove and hand over
    any path; [WORKDIR] makes the directory when it is missing. *)
Definition step (i : instruction) (img : image) : option image :=
  match i with
  | FROM _ => Some base
  | RUN commands =>
      if String.eqb (user img) "root" then
        match exec_all commands (files img) with
        | Some fs => Some (mkImage fs (user img) (workdir img) (volumes img) (cmd img))
        | None => None
        end
      else None
  | WORKDIR path =>
      match files img path with
      | Some n =>
          match node_kind n with
          | Directory => Some (mkImage (files img) (user img) path (volumes img) (cmd img))
          | Regular => None
          end
      | None =>
          Some (mkImage
                  (fun p => if String.eqb path p
                            then Some (mkInode Directory "root" "root" 493)
                            else files img p)
                  (user img) path (volumes img) (cmd img))
      end
  | VOLUME paths =>
      Some (mkImage (files img) (user img) (workdir img) (volumes img ++ paths) (cmd img))
  | USER name =>
      Some (mkImage (files img) name (workdir img) (volumes img) (cmd img))
  | CMD argv =>
      Some (mkImage (files img) (user img) (workdir img) (volumes img) argv)
  end.

Fixpoint steps (instrs : list instruction) (img : image) : option image :=
  match instrs with
  | [] => Some img
  | i :: instrs' =>
      match step i img with
      | Some img' => steps instrs' img'
      | None => None
      end
  end.

(** [docker build]: the image the instructions leave, when none fails. *)
Definition build (instrs : list instruction) : option image :=
  steps instrs base.

End Build.

(** An Alpine-like base: root's image, with the package manager, BusyBox's
    network applets and a world-writable [/tmp]. *)
Definition alpine : image :=
  mkImage
    (fun p =>
       if existsb (String.eqb p) ["/"; "/etc"; "/etc/apk"; "/lib"; "/lib/apk"; "/sbin"; "/usr"; "/usr/bin"; "/usr/share"]
       then Some (mkInode Directory "root" "root" 493)
       else if existsb (String.eqb p) ["/sbin/apk"; "/etc/apk/repositories"; "/bin/busybox"; "/usr/bin/wget"; "/usr/bin/nc"]
       then Some (mkInode Regular "root" "root" 493)
       else if String.eqb p "/tmp"
       then Some (mkInode Directory "root" "root" 1023)
       else None)
    "root" "/" [] ["/bin/sh"].

(** Tools that leave the file system as it is. *)
Definition idle : list string -> filesystem -> option filesystem :=
  fun _ fs => Some fs.

(** The paths of the package manager, and of the network tools. *)
Definition package_manager : list string :=
  ["/sbin/apk"; "/etc/apk"; "/lib/apk"; "/usr/share/apk"].

Definition network_tools : list string :=
  ["/usr/bin/wget"; "/usr/bin/curl"; "/usr/bin/nc"].

(** The account the image's command runs as may write to [path]. *)
Definition sandbox_may_write (img : image) (path : string) : bool :=
  may_write (files img) "sandbox" ["sandbox"] path.

End Image.

(** * The execution service the image is made for

    The provisioner and the orchestrator are not among the sources; they are
    modelled here from sections 3, 4.3 and 4.4 of the specification. *)

Module Sandbox.

(** Modelled from the spec: the [status] enumeration of [RunResult],
    section 3 (the orchestration code is missing from the sources). *)
Inductive Status : Type :=
| Success | RuntimeError | Timeout | PolicyViolation | InternalError.

(** Modelled from the spec: step 5 of section 4.4 (missing from the
    sources): "a non-zero exit code is reported as [RuntimeError]";
    "[Success] is reserved for exit code zero". *)
Definition status_of_exit (code : Z) : Status :=
  if code =? 0 then Success else RuntimeError.

(** Modelled from the spec: [ExecutionPolicy] of section 3 (missing from
    the sources), its limits and its network posture; the set of allowed
    binaries and the mounts play no part in what follows. *)
Record ExecutionPolicy : Type := {
  cpuTimeLimitMs : Z;
  wallClockLimitMs : Z;
  memoryLimitBytes : Z;
  networkEnabled : bool
}.

(** Modelled from the spec: [SandboxImage] of section 3 (missing from the
    sources). *)
Record SandboxImage : Type := {
  languageId : string;
  imageReference : string;
  entrypointTemplate : string
}.

(** Modelled from the spec: [RunRequest] of section 3 (missing from the
    sources). *)
Record RunRequest : Type := {
  req_languageId : string;
  sourceCode : string;
  stdin : string;
  req_requestId : string
}.

(** Modelled from the spec: [SandboxInstance] of section 3 (missing from
    the sources), the process handle as a number. *)
Record SandboxInstance : Type := {
  instanceId : string;
  workspacePath : string;
  processHandle : nat;
  createdAt : Z
}.

(** Modelled from the spec: [RunResult] of section 3 (missing from the
    sources). *)
Record RunResult : Type := {
  requestId : string;
  status : Status;
  stdout : string;
  stderr : string;
  exitCode : option Z;
  durationMs : Z
}.

(** Modelled from the spec: the host the provisioner acts on through the
    outbound interface of section 6 (missing from the sources): the
    filesystem roots that exist, the process trees that are alive, the
    execution identities in use, each by the instance it belongs to; the
    time in milliseconds; the number of instances made so far; and whether
    the isolation primitives are available. *)
Record Host : Type := mkHost {
  clock : Z;
  roots : list string;
  processes : list nat;
  identities : list string;
  provisioned : nat;
  isolation_available : bool
}.

(** A list without the occurrences of [x]. *)
Fixpoint without_string (x : string) (l : list string) : list string :=
  match l with
  | [] => []
  | y :: l' => if String.eqb x y then without_string x l' else y :: without_string x l'
  end.

Fixpoint without_nat (x : nat) (l : list nat) : list nat :=
  match l with
  | [] => []
  | y :: l' => if Nat.eqb x y then without_nat x l' else y :: without_nat x l'
  end.

(** Modelled from the spec: [resolve] of section 4.2 (missing from the
    sources), [None] standing for [UnsupportedLanguage]. *)
Fixpoint resolve (registry : list SandboxImage) (language : string) : option SandboxImage :=
  match registry with
  | [] => None
  | image :: registry' =>
      if String.eqb (languageId image) language then Some image
      else resolve registry' language
  end.

(** Modelled from the spec: what the orchestrator sees of the untrusted
    process at one instant (sections 4.4 and 6, missing from the sources):
    still running, or exited with a code; the streams captured so far. *)
Inductive observation : Type :=
| Running (out err : string)
| Exit (code : Z) (out err : string).

(** Modelled from the spec: step 4 of section 4.4 (missing from the
    sources), "wait for process exit or [wallClockLimitMs] elapsing,
    whichever first". The process is looked at every millisecond, [t]
    milliseconds after its launch at first and for [budget] more. *)
Fixpoint wait (process : nat -> observation) (t budget : nat) : nat * observation :=
  match process t with
  | Exit code out err => (t, Exit code out err)
  | Running out err =>
      match budget with
      | O => (t, Running out err)
      | S budget' => wait process (S t) budget'
      end
  end.

Section Service.

(** What provisioning and teardown cost, in milliseconds; the images; the
    policy; and what the untrusted program does once launched, instant by
    instant. *)
Variable provision_ms release_ms : Z.
Variable registry : list SandboxImage.
Variable policy : ExecutionPolicy.
Variable untrusted : SandboxImage -> RunRequest -> nat -> observation.

(** Modelled from the spec: [provision] of section 4.3 (missing from the
    sources): a fresh root and identity, never reused; [None] stands for
    [ProvisionError], raised when the isolation primitives are missing. *)
Definition provision (image : SandboxImage) (id : string) (h : Host)
    : option (SandboxInstance * Host) :=
  if isolation_available h then
    let name := id ++ "-" ++ NilZero.string_of_uint (Nat.to_uint (provisioned h)) in
    let instance :=
      {| instanceId := name;
         workspacePath := "/sandboxes/" ++ name;
         processHandle := provisioned h;
         createdAt := clock h + provision_ms |} in
    Some (instance,
          mkHost (clock h + provision_ms)
                 (workspacePath instance :: roots h)
                 (processes h)
                 (instanceId instance :: identities h)
                 (S (provisioned h))
                 true)
  else None.

(** Modelled from the spec: [release] of section 4.3 (missing from the
    sources): "removes the filesystem root, terminates any lingering process
    under that instance, releases the identity". What is already gone is
    left alone; the spec gives [release] no failure. *)
Definition release (i : SandboxInstance) (h : Host) : Host :=
  mkHost (clock h)
         (without_string (workspacePath i) (roots h))
         (without_nat (processHandle i) (processes h))
         (without_string (instanceId i) (identities h))
         (provisioned h)
         (isolation_available h).

(** Modelled from the spec: something of the instance is still on the
    host, the opposite of what section 8 asserts after [execute] ("the
    filesystem root no longer exists", "no leaked process"). *)
Definition held (i : SandboxInstance) (h : Host) : bool :=
  existsb (String.eqb (workspacePath i)) (roots h)
  || existsb (Nat.eqb (processHandle i)) (processes h)
  || existsb (String.eqb (instanceId i)) (identities h).

(** Modelled from the spec: the launch of the entry point in an instance
    (section 4.4, step 3, missing from the sources). *)
Definition spawn (i : SandboxInstance) (h : Host) : Host :=
  mkHost (clock h) (roots h) (processHandle i :: processes h)
         (identities h) (provisioned h) (isolation_available h).

(** The passing of [ms] milliseconds on the host. *)
Definition elapse (ms : Z) (h : Host) : Host :=
  mkHost (clock h + ms) (roots h) (processes h)
         (identities h) (provisioned h) (isolation_available h).

(** Modelled from the spec: the process tree of an instance is gone
    (section 4.4, steps 4 and 5, missing from the sources): it exited, or the
    orchestrator terminated it. *)
Definition reap (i : SandboxInstance) (h : Host) : Host :=
  mkHost (clock h) (roots h) (without_nat (processHandle i) (processes h))
         (identities h) (provisioned h) (isolation_available h).

(** Modelled from the spec: [execute] of section 4.4 (missing from the
    sources), steps 1 to 6. *)
Definition execute (request : RunRequest) (h : Host) : RunResult * Host :=
  match resolve registry (req_languageId request) with
  | None =>
      ({| requestId := req_requestId request; status := InternalError;
          stdout := ""; stderr := "unsupported language";
          exitCode := None; durationMs := 0 |}, h)
  | Some image =>
      match provision image (req_requestId request) h with
      | None =>
          ({| requestId := req_requestId request; status := InternalError;
              stdout := ""; stderr := "provisioning failed";
              exitCode := None; durationMs := 0 |}, h)
      | Some (instance, h1) =>
          let h2 := spawn instance h1 in
          let (t, seen) :=
            wait (untrusted image request) 0 (Z.to_nat (wallClockLimitMs policy)) in
          let h3 := reap instance (elapse (Z.of_nat t) h2) in
          let h4 := elapse release_ms (release instance h3) in
          match seen with
          | Exit code out err =>
              ({| requestId := req_requestId request;
                  status := status_of_exit code;
                  stdout := out; stderr := err;
                  exitCode := Some code;
                  durationMs := clock h4 - clock h |}, h4)
          | Running out err =>
              ({| requestId := req_requestId request; status := Timeout;
                  stdout := out; stderr := err;
                  exitCode := None;
                  durationMs := clock h4 - clock h |}, h4)
          end
      end
  end.

End Service.

End Sandbox.

(** Modelled from the spec: what the orchestrator (section 4.4, step 5,
    missing from the sources) reports of a run of the calculator that ends
    by returning from [main]: the status, the captured output and the exit
    code. *)
Definition reported (o : outcome) : option (Sandbox.Status * string * Z) :=
  match o with
  | Exited code out => Some (Sandbox.status_of_exit code, out, code)
  | Terminated _ _ | Undefined_behaviour _ _ => None
  end.

(** * Further vocabulary *)

(** ** One line of output *)

(** A computation that writes [text] and a line feed, whatever the process;
    one that leaves defined behaviour before it writes. *)
Definition prints (c : M unit) (text : string) : Prop :=
  forall p, c p = (Normal tt, mkProcess (cin p) (cin_good p) ((cout p ++ text) ++ nl)).

Definition fails (c : M unit) (u : undefined) : Prop :=
  forall p, c p = (Undefined u, p).

Definition one_line (c : M unit) : Prop :=
  (exists text, no_line_feed text = true /\ prints c text) \/
  (exists u, fails c u).

(** What a run ends in, when its last computation is a [one_line] one. *)
Definition one_line_outcome (o : outcome) : Prop :=
  (exists text, no_line_feed text = true /\ o = Exited 0 (text ++ nl)) \/
  (exists u, o = Undefined_behaviour u "").

(** ** The two parts of the image definition *)

(** A directory, a file of another kind, at [path]. *)
Definition is_directory (fs : Image.filesystem) (path : string) : bool :=
  match fs path with
  | Some n => match Image.node_kind n with Image.Directory => true | Image.Regular => false end
  | None => false
  end.

Definition is_regular (fs : Image.filesystem) (path : string) : bool :=
  match fs path with
  | Some n => match Image.node_kind n with Image.Directory => false | Image.Regular => true end
  | None => false
  end.

(** The instructions that install: [FROM] and the first two [RUN]. *)
Definition installing : list Image.instruction := firstn 3 Image.Dockerfile_cpp.

(** The instructions that harden: the rest. *)
Definition hardening : list Image.instruction := skipn 3 Image.Dockerfile_cpp.

(** [path] is outside what the hardening instructions touch. *)
Definition untouched (path : string) : bool :=
  negb (existsb (fun dir => Image.under dir path) Image.package_manager)
  && negb (existsb (String.eqb path) Image.network_tools)
  && negb (String.eqb path "/app").

(** ** The network tools of the base image

    [alpine:3.18], the image [FROM] names, ships no [curl]; its [wget] and
    its [nc] are applets of BusyBox, one binary at [/bin/busybox] that runs
    the applet its first argument names, and [/usr/bin/wget] and
    [/usr/bin/nc] are links to that binary. *)
Definition busybox : string := "/bin/busybox".

Definition busybox_network_applets : list string := ["wget"; "nc"].

(** The tool [name] can be run in a file system: under its own name in
    [/usr/bin], or as [busybox name]. *)
Definition runnable (fs : Image.filesystem) (name : string) : bool :=
  is_regular fs ("/usr/bin/" ++ name)
  || (existsb (String.eqb name) busybox_network_applets && is_regular fs busybox).

(** * The calculator: proofs *)

(** ** Strings *)

Arguments mem c set : simpl never.

Lemma append_empty (s : string) : s ++ "" = s.
Proof. induction s as [|c s IH]; simpl; [reflexivity | now rewrite IH]. Qed.

Lemma append_assoc (s t u : string) : (s ++ t) ++ u = s ++ t ++ u.
Proof. induction s as [|c s IH]; simpl; [reflexivity | now rewrite IH]. Qed.

Lemma size_nonneg (s : string) : 0 <= size s.
Proof. unfold size. lia. Qed.

Lemma size_String (c : ascii) (s : string) : size (String c s) = size s + 1.
Proof. unfold size. simpl String.length. lia. Qed.

Lemma size_transform (f : ascii -> ascii) (s : string) :
  size (transform f s) = size s.
Proof.
  induction s as [|c s IH]; [reflexivity|].
  simpl transform. rewrite !size_String. lia.
Qed.

Lemma transform_append (f : ascii -> ascii) (s t : string) :
  transform f (s ++ t) = transform f s ++ transform f t.
Proof. induction s as [|c s IH]; simpl; [reflexivity | now rewrite IH]. Qed.

Lemma size_strip_left (s : string) : size (strip_left s) <= size s.
Proof.
  induction s as [|c s IH]; simpl strip_left; [lia|].
  destruct (mem c blanks); rewrite ?size_String; lia.
Qed.

Lemma take_0 (s : string) : take 0 s = "".
Proof. now destruct s. Qed.

Lemma drop_all (s : string) : drop (String.length s) s = "".
Proof. induction s as [|c s IH]; simpl; [reflexivity | exact IH]. Qed.

Lemma drop_size (s : string) : drop (Z.to_nat (size s)) s = "".
Proof. unfold size. rewrite Nat2Z.id. apply drop_all. Qed.

Lemma to_nat_succ (n : Z) : 0 <= n -> Z.to_nat (n + 1) = S (Z.to_nat n).
Proof. intros Hn. rewrite Z2Nat.inj_add by lia. simpl. lia. Qed.

(** ** The two searches and the two erasures *)

Lemma find_first_not_of_from_spec (s : string) :
  forall i, 0 <= i -> i + size s <= npos ->
  let r := find_first_not_of_from i s blanks in
  (r = npos /\ strip_left s = "") \/
  (i <= r < i + size s /\ drop (Z.to_nat (r - i)) s = strip_left s).
Proof.
  induction s as [|c s IH]; intros i Hi Hs;
    cbn [find_first_not_of_from strip_left]; cbv zeta.
  - left. split; reflexivity.
  - rewrite size_String in Hs. destruct (mem c blanks) eqn:Hc.
    + destruct (IH (i + 1)) as [[Hr E] | [Hr E]]; try lia.
      * left. split; assumption.
      * right. rewrite size_String. split; [lia|].
        replace (find_first_not_of_from (i + 1) s blanks - i)
          with ((find_first_not_of_from (i + 1) s blanks - (i + 1)) + 1) by lia.
        rewrite to_nat_succ by lia. exact E.
    + right. rewrite size_String. split; [pose proof (size_nonneg s); lia|].
      now rewrite Z.sub_diag.
Qed.

Lemma erase_left (s : string) :
  size s < npos ->
  erase s 0 (find_first_not_of s blanks) = inr (strip_left s).
Proof.
  intros Hs. unfold erase, find_first_not_of.
  pose proof (size_nonneg s) as Hn.
  destruct (size s <? 0) eqn:E; [apply Z.ltb_lt in E; lia|].
  rewrite take_0, Z.sub_0_r, Z.add_0_l. cbn [append].
  destruct (find_first_not_of_from_spec s 0) as [[Hr Hl] | [Hr Hl]]; try lia.
  - rewrite Hr, Hl, Z.min_r by lia. now rewrite drop_size.
  - rewrite Z.min_l by lia. now rewrite Z.sub_0_r in Hl; rewrite Hl.
Qed.

Lemma find_last_not_of_from_spec (s : string) :
  forall i, 0 <= i -> i + size s <= npos ->
  let r := find_last_not_of_from i s blanks in
  (r = npos /\ strip_right s = "") \/
  (i <= r < i + size s /\ take (Z.to_nat (r - i + 1)) s = strip_right s).
Proof.
  induction s as [|c s IH]; intros i Hi Hs;
    cbn [find_last_not_of_from strip_right]; cbv zeta.
  - left. split; reflexivity.
  - rewrite size_String in *. pose proof (size_nonneg s) as Hn.
    destruct (IH (i + 1)) as [[Hr E] | [Hr E]]; try lia.
    + rewrite Hr, E, Z.eqb_refl. destruct (mem c blanks).
      * left. split; reflexivity.
      * right. split; [lia|]. rewrite Z.sub_diag.
        change (Z.to_nat (0 + 1)) with 1%nat. reflexivity.
    + destruct (find_last_not_of_from (i + 1) s blanks =? npos) eqn:Q;
        [apply Z.eqb_eq in Q; lia|].
      right. split; [lia|].
      replace (find_last_not_of_from (i + 1) s blanks - i + 1)
        with ((find_last_not_of_from (i + 1) s blanks - (i + 1) + 1) + 1) by lia.
      rewrite to_nat_succ by lia. cbn [take]. rewrite E.
      destruct (strip_right s) eqn:R; [|reflexivity].
      rewrite to_nat_succ in E by lia.
      destruct s; [change (size "") with 0 in Hr; lia | discriminate E].
Qed.

Lemma erase_right (s : string) :
  size s < npos ->
  erase s (size_add (find_last_not_of s blanks) 1) npos = inr (strip_right s).
Proof.
  intros Hs. unfold erase, find_last_not_of, size_add.
  pose proof (size_nonneg s) as Hn.
  destruct (find_last_not_of_from_spec s 0) as [[Hr Hl] | [Hr Hl]]; try lia.
  - rewrite Hr, Hl. change ((npos + 1) mod 2 ^ 64) with 0.
    destruct (size s <? 0) eqn:E; [apply Z.ltb_lt in E; lia|].
    rewrite take_0, Z.sub_0_r, Z.add_0_l, Z.min_r by lia.
    now rewrite drop_size.
  - set (r := find_last_not_of_from 0 s blanks) in *.
    assert (Hmod : (r + 1) mod 2 ^ 64 = r + 1).
    { apply Z.mod_small. unfold npos, size_max in Hs. lia. }
    rewrite Hmod.
    destruct (size s <? r + 1) eqn:E; [apply Z.ltb_lt in E; lia|].
    rewrite Z.min_r by (unfold npos, size_max in *; lia).
    replace (r + 1 + (size s - (r + 1))) with (size s) by lia.
    rewrite drop_size, append_empty.
    now rewrite Z.sub_0_r in Hl; rewrite Hl.
Qed.

(** ** Running the program *)

Lemma bind_normal {A B} (c : M A) (k : A -> M B) (p p' : process) (a : A) :
  c p = (Normal a, p') -> bind c k p = k a p'.
Proof. intros H. unfold bind. now rewrite H. Qed.

Lemma getline_next (p : process) :
  getline p = (Normal (next_line p), after_line p).
Proof.
  unfold getline, next_line, after_line.
  destruct (cin_good p); [|reflexivity].
  now destruct (split_line (cin p)) as [l [rest|]].
Qed.

Lemma cout_after_line (p : process) : cout (after_line p) = cout p.
Proof.
  unfold after_line. destruct (cin_good p); [|reflexivity].
  now destruct (snd (split_line (cin p))).
Qed.

(** The two trims never raise: [normalize] returns the trimmed line. *)
Lemma normalize_trimmed (operation : string) (p : process) :
  size operation < npos ->
  normalize operation p = (Normal (trimmed operation), p).
Proof.
  intros Hs. unfold normalize, trimmed.
  assert (H1 : size (transform tolower operation) < npos)
    by now rewrite size_transform.
  pose proof (size_strip_left (transform tolower operation)) as H2.
  unfold bind, call. rewrite erase_left by assumption.
  unfold ret at 1. rewrite erase_right by lia. reflexivity.
Qed.

(** [main] after its first four statements. *)
Lemma main_selected (lib : float_library) (stdin : string) :
  size (stdin_line 0 stdin) < npos ->
  main lib (start stdin) =
  if String.eqb (selected stdin) "sqrt"
  then sqrt_branch lib (after_line (start stdin))
  else binary_branch lib (selected stdin) (after_line (start stdin)).
Proof.
  intros Hs. unfold main.
  rewrite (bind_normal _ _ _ _ _ (getline_next _)).
  rewrite (bind_normal _ _ _ _ _ (normalize_trimmed _ _ Hs)).
  fold (selected stdin). now destruct (String.eqb (selected stdin) "sqrt").
Qed.

Lemma binary_branch_invalid (lib : float_library) (operation : string) (p : process) :
  raises (stoi (next_line p)) || raises (stoi (next_line (after_line p))) = true ->
  binary_branch lib operation p = (Normal 0, rejected (after_line (after_line p))).
Proof.
  intros H. unfold binary_branch.
  rewrite (bind_normal _ _ _ _ _ (getline_next _)).
  rewrite (bind_normal _ _ _ _ _ (getline_next _)).
  unfold bind at 1. unfold try_catch, bind, call.
  destruct (stoi (next_line p)) as [e1|a]; [reflexivity|].
  destruct (stoi (next_line (after_line p))) as [e2|b]; [reflexivity|].
  discriminate H.
Qed.

Lemma binary_branch_operands (lib : float_library) (operation : string)
    (p : process) (a b : Z) :
  stoi (next_line p) = inr a ->
  stoi (next_line (after_line p)) = inr b ->
  binary_branch lib operation p =
  (compute lib operation a b ;; ret 0) (after_line (after_line p)).
Proof.
  intros Ha Hb. unfold binary_branch.
  rewrite (bind_normal _ _ _ _ _ (getline_next _)).
  rewrite (bind_normal _ _ _ _ _ (getline_next _)).
  unfold bind at 1. unfold try_catch, bind at 1, call.
  rewrite Ha. unfold ret at 1, bind at 1. rewrite Hb. reflexivity.
Qed.

Lemma sqrt_branch_invalid (lib : float_library) (p : process) :
  (raises (lib_stod lib (next_line p)) = true \/
   exists num, lib_stod lib (next_line p) = inr num /\
               double_ltb num double_zero = true) ->
  sqrt_branch lib p = (Normal 0, rejected (after_line p)).
Proof.
  intros H. unfold sqrt_branch.
  rewrite (bind_normal _ _ _ _ _ (getline_next _)).
  unfold bind at 1. unfold try_catch, bind at 1, call, stod.
  destruct H as [H | [num [H Hneg]]].
  - destruct (lib_stod lib (next_line p)); [reflexivity | discriminate H].
  - rewrite H. unfold ret at 1. rewrite Hneg. reflexivity.
Qed.

Lemma cout_start_lines (k : nat) (stdin : string) :
  cout (Nat.iter k after_line (start stdin)) = "".
Proof.
  induction k as [|k IH]; [reflexivity|].
  cbn [Nat.iter nat_rect]. now rewrite cout_after_line.
Qed.

Lemma outcome_rejected (k : nat) (stdin : string) :
  outcome_of (Normal 0, rejected (Nat.iter k after_line (start stdin))) =
  Exited 0 ("Error: Invalid input" ++ nl).
Proof.
  unfold outcome_of, rejected. cbn [cout]. now rewrite cout_start_lines.
Qed.

(** ** No exception leaves the program *)

Lemma contained_ret {A} (a : A) : contained (ret a).
Proof. intros p e p'. discriminate. Qed.

Lemma contained_put (s : string) : contained (put s).
Proof. intros p e p'. discriminate. Qed.

Lemma contained_undefined {A} (u : undefined) :
  contained (@undefined_behaviour A u).
Proof. intros p e p'. discriminate. Qed.

Lemma contained_getline : contained getline.
Proof. intros p e p'. rewrite getline_next. discriminate. Qed.

Lemma contained_bind {A B} (c : M A) (k : A -> M B) :
  contained c -> (forall a, contained (k a)) -> contained (bind c k).
Proof.
  intros Hc Hk p e p'. unfold bind.
  destruct (c p) as [[a|e1|u] p1] eqn:E.
  - apply Hk.
  - exfalso. exact (Hc p e1 p1 E).
  - discriminate.
Qed.

Lemma contained_try {A} (c h : M A) : contained h -> contained (try_catch c h).
Proof.
  intros Hh p e p'. unfold try_catch.
  destruct (c p) as [[a|e1|u] p1]; [discriminate | apply Hh | discriminate].
Qed.

Lemma contained_int_result (v : Z) : contained (int_result v).
Proof.
  unfold int_result. destruct (is_int v);
    [apply contained_ret | apply contained_undefined].
Qed.

Lemma contained_int_of_double (d : double) : contained (int_of_double d).
Proof.
  unfold int_of_double. destruct (truncate d) as [v|];
    [destruct (is_int v)|];
    first [apply contained_ret | apply contained_undefined].
Qed.

Lemma contained_print (c : M Z) :
  contained c -> contained (v <- c ;; put_int v ;; endl).
Proof.
  intros H. apply contained_bind; [exact H|]. intros v.
  apply contained_bind; [apply contained_put|]. intros _. apply contained_put.
Qed.

Lemma contained_message (s : string) : contained (put s ;; endl).
Proof.
  apply contained_bind; [apply contained_put|]. intros _. apply contained_put.
Qed.

Lemma contained_compute (lib : float_library) (operation : string) (a b : Z) :
  contained (compute lib operation a b).
Proof.
  unfold compute.
  repeat match goal with
         | |- contained (if ?c then _ else _) => destruct c
         end;
    try apply contained_message; apply contained_print;
    try apply contained_int_result; try apply contained_int_of_double.
  - unfold int_div. destruct (b =? 0);
      [apply contained_undefined | apply contained_int_result].
  - unfold int_rem. destruct (b =? 0); [apply contained_undefined|].
    destruct (is_int (Z.quot a b)); [apply contained_ret | apply contained_undefined].
Qed.

Lemma contained_sqrt_branch (lib : float_library) : contained (sqrt_branch lib).
Proof.
  unfold sqrt_branch. apply contained_bind; [apply contained_getline|].
  intros numStr. apply contained_bind; [|intros _; apply contained_ret].
  apply contained_try. apply contained_message.
Qed.

Lemma contained_binary_branch (lib : float_library) (operation : string) :
  contained (binary_branch lib operation).
Proof.
  unfold binary_branch. apply contained_bind; [apply contained_getline|].
  intros input1. apply contained_bind; [apply contained_getline|].
  intros input2. apply contained_bind.
  - apply contained_try. apply contained_bind; [apply contained_put|].
    intros _. apply contained_bind; [apply contained_put|].
    intros _. apply contained_ret.
  - intros [status | [a b]]; [apply contained_ret|].
    apply contained_bind; [apply contained_compute|]. intros _. apply contained_ret.
Qed.

(** X1. Every exception raised in the program is caught in it: a run never
    ends by [std::terminate]. *)
Theorem no_uncaught_exception (lib : float_library) (stdin : string) :
  size (stdin_line 0 stdin) < npos ->
  forall e out, run lib stdin <> Terminated e out.
Proof.
  intros Hs e out. unfold run. fold (start stdin).
  rewrite main_selected by exact Hs.
  destruct (String.eqb (selected stdin) "sqrt").
  - destruct (sqrt_branch lib (after_line (start stdin))) as [[a|e1|u] p1] eqn:E;
      try discriminate.
    exfalso. exact (contained_sqrt_branch lib _ _ _ E).
  - destruct (binary_branch lib (selected stdin) (after_line (start stdin)))
      as [[a|e1|u] p1] eqn:E; try discriminate.
    exfalso. exact (contained_binary_branch lib _ _ _ _ E).
Qed.

Lemma no_uncaught_exception_witness :
  run Reference.library (unlines ["add"; "x"; "4"]) <> Terminated invalid_argument "".
Proof.
  apply no_uncaught_exception. reflexivity.
Defined.

(** ** The two scenarios *)

(** C1. On the three lines "add", "3", "4" the calculator prints "7" and a
    line feed, nothing else, and returns 0 from [main]; an exit code of zero
    is what the sandbox reports as [Success]. *)
Theorem add_3_4_prints_7 (lib : float_library) :
  run lib (unlines ["add"; "3"; "4"]) = Exited 0 ("7" ++ nl) /\
  reported (run lib (unlines ["add"; "3"; "4"])) =
  Some (Sandbox.Success, "7" ++ nl, 0).
Proof. split; reflexivity. Qed.

(** C2. On the three lines "divide", "5", "0" the calculator prints
    "Error: Division by zero" and a line feed and returns 0 from [main]: the
    zero divisor is reported by the program, the division is not evaluated,
    and the sandbox reports [Success]. *)
Theorem divide_5_0_reports (lib : float_library) :
  run lib (unlines ["divide"; "5"; "0"]) =
  Exited 0 ("Error: Division by zero" ++ nl) /\
  reported (run lib (unlines ["divide"; "5"; "0"])) =
  Some (Sandbox.Success, "Error: Division by zero" ++ nl, 0).
Proof. split; reflexivity. Qed.

(** ** Zero divisors *)

(** C3, at the input that breaks it. "modulo" has no test of its divisor,
    where "divide" has one: on the lines "modulo", "5", "0" the program
    evaluates [5 % 0] and prints nothing. *)
Theorem modulo_5_0_undefined (lib : float_library) :
  run lib (unlines ["modulo"; "5"; "0"]) =
  Undefined_behaviour division_by_zero "".
Proof. reflexivity. Qed.

Lemma guarded_ret {A} (a : A) : guarded (ret a).
Proof. intros p p'. discriminate. Qed.

Lemma guarded_put (s : string) : guarded (put s).
Proof. intros p p'. discriminate. Qed.

Lemma guarded_call {A} (r : exception + A) : guarded (call r).
Proof. intros p p'. destruct r; discriminate. Qed.

Lemma guarded_getline : guarded getline.
Proof. intros p p'. rewrite getline_next. discriminate. Qed.

Lemma guarded_bind {A B} (c : M A) (k : A -> M B) :
  guarded c -> (forall a, guarded (k a)) -> guarded (bind c k).
Proof.
  intros Hc Hk p p'. unfold bind.
  destruct (c p) as [[a|e|u] p1] eqn:E.
  - apply Hk.
  - discriminate.
  - intros H. injection H as -> ->. exact (Hc p p' E).
Qed.

Lemma guarded_try {A} (c h : M A) :
  guarded c -> guarded h -> guarded (try_catch c h).
Proof.
  intros Hc Hh p p'. unfold try_catch.
  destruct (c p) as [[a|e|u] p1] eqn:E; [discriminate | apply Hh |].
  intros H. injection H as -> ->. exact (Hc p p' E).
Qed.

Lemma guarded_int_result (v : Z) : guarded (int_result v).
Proof.
  unfold int_result. intros p p'. destruct (is_int v); discriminate.
Qed.

Lemma guarded_int_of_double (d : double) : guarded (int_of_double d).
Proof.
  unfold int_of_double. intros p p'.
  destruct (truncate d) as [v|]; [destruct (is_int v)|]; discriminate.
Qed.

Lemma guarded_print (c : M Z) :
  guarded c -> guarded (v <- c ;; put_int v ;; endl).
Proof.
  intros H. apply guarded_bind; [exact H|]. intros v.
  apply guarded_bind; [apply guarded_put|]. intros _. apply guarded_put.
Qed.

Lemma guarded_message (s : string) : guarded (put s ;; endl).
Proof.
  apply guarded_bind; [apply guarded_put|]. intros _. apply guarded_put.
Qed.

(** Every branch of the computation but "modulo" is guarded: "divide" by
    its test of [b], the others for want of a division. *)
Lemma guarded_compute (lib : float_library) (operation : string) (a b : Z) :
  operation <> "modulo" -> guarded (compute lib operation a b).
Proof.
  intros Hop. unfold compute.
  destruct (String.eqb operation "add");
    [apply guarded_print, guarded_int_result|].
  destruct (String.eqb operation "subtract");
    [apply guarded_print, guarded_int_result|].
  destruct (String.eqb operation "multiply");
    [apply guarded_print, guarded_int_result|].
  destruct (String.eqb operation "divide").
  { destruct (b =? 0) eqn:Hb; [apply guarded_message|].
    apply guarded_print. unfold int_div. rewrite Hb. apply guarded_int_result. }
  destruct (String.eqb operation "power");
    [apply guarded_print, guarded_int_of_double|].
  destruct (String.eqb_spec operation "modulo"); [contradiction|].
  apply guarded_message.
Qed.

Lemma guarded_sqrt_branch (lib : float_library) : guarded (sqrt_branch lib).
Proof.
  unfold sqrt_branch. apply guarded_bind; [apply guarded_getline|].
  intros numStr. apply guarded_bind; [|intros _; apply guarded_ret].
  apply guarded_try; [|apply guarded_message].
  apply guarded_bind; [apply guarded_call|]. intros num.
  destruct (double_ltb num double_zero); [apply guarded_message|].
  apply guarded_print, guarded_int_of_double.
Qed.

Lemma guarded_binary_branch (lib : float_library) (operation : string) :
  operation <> "modulo" -> guarded (binary_branch lib operation).
Proof.
  intros Hop. unfold binary_branch. apply guarded_bind; [apply guarded_getline|].
  intros input1. apply guarded_bind; [apply guarded_getline|].
  intros input2. apply guarded_bind.
  - apply guarded_try.
    + apply guarded_bind; [apply guarded_call|]. intros a.
      apply guarded_bind; [apply guarded_call|]. intros b. apply guarded_ret.
    + apply guarded_bind; [apply guarded_put|].
      intros _. apply guarded_bind; [apply guarded_put|].
      intros _. apply guarded_ret.
  - intros [status | [a b]]; [apply guarded_ret|].
    apply guarded_bind; [now apply guarded_compute|]. intros _. apply guarded_ret.
Qed.

(** X2. A zero divisor is evaluated in the "modulo" branch only: "divide"
    and every other operation never reach one. *)
Theorem zero_divisor_only_in_modulo (lib : float_library) (stdin out : string) :
  size (stdin_line 0 stdin) < npos ->
  run lib stdin = Undefined_behaviour division_by_zero out ->
  selected stdin = "modulo".
Proof.
  intros Hs. unfold run. fold (start stdin).
  rewrite main_selected by exact Hs.
  destruct (String.eqb_spec (selected stdin) "sqrt") as [E|E].
  - destruct (sqrt_branch lib (after_line (start stdin))) as [[a|e1|u] p1] eqn:R;
      try discriminate.
    intros H. injection H as -> _. exfalso.
    exact (guarded_sqrt_branch lib _ _ R).
  - destruct (String.eqb_spec (selected stdin) "modulo") as [M|M]; [easy|].
    destruct (binary_branch lib (selected stdin) (after_line (start stdin)))
      as [[a|e1|u] p1] eqn:R; try discriminate.
    intros H. injection H as -> _. exfalso.
    exact (guarded_binary_branch lib _ M _ _ R).
Qed.

Lemma zero_divisor_only_in_modulo_witness :
  selected (unlines ["Modulo "; "5"; "0"]) = "modulo".
Proof.
  apply (zero_divisor_only_in_modulo Reference.library _ ""); reflexivity.
Defined.

(** ** Rejected operands *)

(** C4. When an operand line is rejected, the program prints
    "Error: Invalid input" and a line feed and returns 0 from [main]; no
    exception leaves it. For "sqrt" the operand is rejected when [std::stod]
    raises or the value is below zero; for every other operation, when
    [std::stoi] raises on the second or on the third line. The first line is
    any a [std::string] can hold: its size is below [npos]. *)
Theorem invalid_input_reported (lib : float_library) (stdin : string) :
  size (stdin_line 0 stdin) < npos ->
  (selected stdin = "sqrt" /\
   (raises (lib_stod lib (stdin_line 1 stdin)) = true \/
    exists num, lib_stod lib (stdin_line 1 stdin) = inr num /\
                double_ltb num double_zero = true)) \/
  (selected stdin <> "sqrt" /\
   (raises (stoi (stdin_line 1 stdin)) = true \/
    raises (stoi (stdin_line 2 stdin)) = true)) ->
  run lib stdin = Exited 0 ("Error: Invalid input" ++ nl).
Proof.
  intros Hs H. unfold run. fold (start stdin). rewrite main_selected by exact Hs.
  destruct H as [[Hop H] | [Hop H]].
  - rewrite Hop. cbn [String.eqb Ascii.eqb Bool.eqb].
    rewrite sqrt_branch_invalid by exact H.
    exact (outcome_rejected 2 stdin).
  - destruct (String.eqb_spec (selected stdin) "sqrt") as [E|_]; [contradiction|].
    rewrite binary_branch_invalid.
    + exact (outcome_rejected 3 stdin).
    + apply orb_true_iff. exact H.
Qed.

Lemma invalid_input_reported_witness :
  run Reference.library (unlines ["sqrt"; "-4"]) =
  Exited 0 ("Error: Invalid input" ++ nl).
Proof.
  apply invalid_input_reported.
  - reflexivity.
  - left. split; [reflexivity|]. right.
    exists (S754_finite true 4503599627370496 (-50)). split; reflexivity.
Defined.

(** ** Letter case and padding of the first line *)

Lemma code_range (c : ascii) : 0 <= code c < 256.
Proof.
  unfold code. pose proof (N_ascii_bounded c) as H. lia.
Qed.

Lemma code_inj (c d : ascii) : code c = code d -> c = d.
Proof.
  unfold code. intros H. apply N2Z.inj in H.
  rewrite <- (ascii_N_embedding c), <- (ascii_N_embedding d). now rewrite H.
Qed.

Lemma code_tolower (c : ascii) :
  code (tolower c) = if upper c then code c + 32 else code c.
Proof.
  unfold tolower. fold (upper c). destruct (upper c) eqn:U; [|reflexivity].
  unfold upper in U. apply andb_true_iff in U. rewrite !Z.leb_le in U.
  unfold code in *. rewrite N_ascii_embedding by lia. lia.
Qed.

Lemma same_letter_tolower (c d : ascii) :
  same_letter c d = true -> tolower c = tolower d.
Proof.
  unfold same_letter. rewrite !orb_true_iff, !andb_true_iff, !Z.eqb_eq.
  intros H. apply code_inj. rewrite !code_tolower.
  destruct H as [[H | [U H]] | [U H]].
  - apply Ascii.eqb_eq in H. now subst d.
  - rewrite U. destruct (upper d) eqn:V; [|lia].
    unfold upper in U, V. rewrite andb_true_iff, !Z.leb_le in U, V. lia.
  - rewrite U. destruct (upper c) eqn:V; [|lia].
    unfold upper in U, V. rewrite andb_true_iff, !Z.leb_le in U, V. lia.
Qed.

Lemma case_variant_tolower (s : string) :
  forall t, case_variant s t = true ->
  transform tolower s = transform tolower t.
Proof.
  induction s as [|c s IH]; intros [|d t] H; try discriminate H; [reflexivity|].
  cbn [case_variant] in H. apply andb_true_iff in H. destruct H as [Hc Hs].
  cbn [transform]. now rewrite (same_letter_tolower c d Hc), (IH t Hs).
Qed.

Lemma same_letter_LF (c d : ascii) :
  same_letter c d = true -> Ascii.eqb c LF = false -> Ascii.eqb d LF = false.
Proof.
  unfold same_letter. rewrite !orb_true_iff, !andb_true_iff, !Z.eqb_eq.
  intros H Hc. apply Ascii.eqb_neq. intros ->.
  destruct H as [[H | [U H]] | [U H]].
  - apply Ascii.eqb_eq in H. subst c. discriminate Hc.
  - unfold upper in U. rewrite andb_true_iff, !Z.leb_le in U.
    change (code LF) with 10 in H. lia.
  - discriminate U.
Qed.

Lemma padding_cases (c : ascii) :
  padding c = true -> c = SP \/ c = HT \/ c = CR.
Proof.
  unfold padding. rewrite !orb_true_iff, !Ascii.eqb_eq. tauto.
Qed.

Lemma padding_blank (c : ascii) : padding c = true -> mem c blanks = true.
Proof. intros H. destruct (padding_cases c H) as [-> | [-> | ->]]; reflexivity. Qed.

Lemma padding_tolower (c : ascii) : padding c = true -> tolower c = c.
Proof. intros H. destruct (padding_cases c H) as [-> | [-> | ->]]; reflexivity. Qed.

Lemma padding_not_LF (c : ascii) : padding c = true -> Ascii.eqb c LF = false.
Proof. intros H. destruct (padding_cases c H) as [-> | [-> | ->]]; reflexivity. Qed.

Lemma transform_tolower_padding (s : string) :
  all padding s = true -> transform tolower s = s.
Proof.
  induction s as [|c s IH]; [reflexivity|]. cbn [all transform].
  intros H. apply andb_true_iff in H. destruct H as [Hc Hs].
  now rewrite (padding_tolower c Hc), (IH Hs).
Qed.

Lemma strip_left_padding (pre s : string) :
  all padding pre = true -> strip_left (pre ++ s) = strip_left s.
Proof.
  induction pre as [|c pre IH]; [reflexivity|]. cbn [all append strip_left].
  intros H. apply andb_true_iff in H. destruct H as [Hc Hs].
  now rewrite (padding_blank c Hc), (IH Hs).
Qed.

Lemma strip_left_all_padding (s : string) :
  all padding s = true -> strip_left s = "".
Proof.
  intros H. rewrite <- (append_empty s). now rewrite strip_left_padding.
Qed.

Lemma strip_right_all_padding (s : string) :
  all padding s = true -> strip_right s = "".
Proof.
  induction s as [|c s IH]; [reflexivity|]. cbn [all strip_right].
  intros H. apply andb_true_iff in H. destruct H as [Hc Hs].
  now rewrite (IH Hs), (padding_blank c Hc).
Qed.

Lemma strip_right_padding (s post : string) :
  all padding post = true -> strip_right (s ++ post) = strip_right s.
Proof.
  intros H. induction s as [|c s IH].
  - now apply strip_right_all_padding.
  - cbn [append strip_right]. now rewrite IH.
Qed.

Lemma strip_both_padding (s post : string) :
  all padding post = true ->
  strip_right (strip_left (s ++ post)) = strip_right (strip_left s).
Proof.
  intros H. induction s as [|c s IH].
  - cbn [append]. now rewrite strip_left_all_padding.
  - cbn [append strip_left]. destruct (mem c blanks); [exact IH|].
    exact (strip_right_padding (String c s) post H).
Qed.

(** The trimmed line is that of its core. *)
Lemma trimmed_padding (pre core post : string) :
  all padding pre = true -> all padding post = true ->
  trimmed (pre ++ core ++ post) = trimmed core.
Proof.
  intros Hpre Hpost. unfold trimmed.
  rewrite !transform_append, (transform_tolower_padding pre Hpre),
    (transform_tolower_padding post Hpost).
  rewrite strip_left_padding by exact Hpre.
  now apply strip_both_padding.
Qed.

Lemma all_append (f : ascii -> bool) (s t : string) :
  all f (s ++ t) = all f s && all f t.
Proof.
  induction s as [|c s IH]; [reflexivity|].
  cbn [append all]. now rewrite IH, andb_assoc.
Qed.

Lemma padding_no_line_feed (s : string) :
  all padding s = true -> no_line_feed s = true.
Proof.
  induction s as [|c s IH]; [reflexivity|]. cbn [all]. unfold no_line_feed.
  cbn [all]. intros H. apply andb_true_iff in H. destruct H as [Hc Hs].
  rewrite (padding_not_LF c Hc). exact (IH Hs).
Qed.

Lemma case_variant_no_line_feed (s : string) :
  forall t, case_variant s t = true ->
  no_line_feed s = true -> no_line_feed t = true.
Proof.
  unfold no_line_feed.
  induction s as [|c s IH]; intros [|d t] H; try discriminate H; [reflexivity|].
  cbn [case_variant all] in *. apply andb_true_iff in H. destruct H as [Hc Hs].
  rewrite !andb_true_iff, !negb_true_iff. intros [Hl Hn].
  split; [exact (same_letter_LF c d Hc Hl) | exact (IH t Hs Hn)].
Qed.

(** [getline] stops where the first line ends. *)
Lemma split_line_first (l tail : string) :
  no_line_feed l = true -> ends_line tail = true ->
  split_line (l ++ tail) =
  (l, match tail with "" => None | String _ rest => Some rest end).
Proof.
  unfold no_line_feed. intros Hl Ht. induction l as [|c l IH].
  - destruct tail as [|c rest]; [reflexivity|].
    cbn [append split_line]. cbn [ends_line] in Ht. now rewrite Ht.
  - cbn [all] in Hl. apply andb_true_iff in Hl. destruct Hl as [Hc Hl].
    apply negb_true_iff in Hc. cbn [append split_line].
    now rewrite Hc, (IH Hl).
Qed.

Lemma first_line (l tail : string) :
  no_line_feed l = true -> ends_line tail = true ->
  stdin_line 0 (l ++ tail) = l /\
  after_line (start (l ++ tail)) =
  match tail with
  | "" => mkProcess "" false ""
  | String _ rest => mkProcess rest true ""
  end.
Proof.
  intros Hl Ht. unfold stdin_line, next_line, after_line, start.
  cbn [Nat.iter nat_rect cin cin_good cout].
  rewrite (split_line_first l tail Hl Ht). cbn [fst snd].
  now destruct tail.
Qed.

(** C5. The first line may be written in either letter case and between
    any spaces, tabs and carriage returns: two inputs whose first lines
    differ in these only, and that agree from the end of the first line on,
    give the same run, standard output and exit status alike. Both first
    lines are any a [std::string] can hold: their sizes are below [npos]. *)
Theorem operation_case_and_padding (lib : float_library)
    (pre1 core1 post1 pre2 core2 post2 tail : string) :
  size (pre1 ++ core1 ++ post1) < npos ->
  size (pre2 ++ core2 ++ post2) < npos ->
  all padding pre1 = true -> all padding post1 = true ->
  all padding pre2 = true -> all padding post2 = true ->
  no_line_feed core1 = true ->
  case_variant core1 core2 = true ->
  ends_line tail = true ->
  run lib ((pre1 ++ core1 ++ post1) ++ tail) =
  run lib ((pre2 ++ core2 ++ post2) ++ tail).
Proof.
  intros Hs1 Hs2 Hpre1 Hpost1 Hpre2 Hpost2 Hlf Hcv Ht.
  assert (Hlf2 : no_line_feed core2 = true)
    by exact (case_variant_no_line_feed core1 core2 Hcv Hlf).
  assert (Hl1 : no_line_feed (pre1 ++ core1 ++ post1) = true).
  { unfold no_line_feed. rewrite !all_append.
    fold (no_line_feed pre1) (no_line_feed core1) (no_line_feed post1).
    now rewrite Hlf, !padding_no_line_feed. }
  assert (Hl2 : no_line_feed (pre2 ++ core2 ++ post2) = true).
  { unfold no_line_feed. rewrite !all_append.
    fold (no_line_feed pre2) (no_line_feed core2) (no_line_feed post2).
    now rewrite Hlf2, !padding_no_line_feed. }
  destruct (first_line _ tail Hl1 Ht) as [L1 A1].
  destruct (first_line _ tail Hl2 Ht) as [L2 A2].
  unfold run. fold (start ((pre1 ++ core1 ++ post1) ++ tail)).
  fold (start ((pre2 ++ core2 ++ post2) ++ tail)).
  rewrite !main_selected by (rewrite ?L1, ?L2; assumption).
  unfold selected. rewrite L1, L2, A1, A2.
  rewrite !trimmed_padding by assumption.
  unfold trimmed. now rewrite (case_variant_tolower core1 core2 Hcv).
Qed.

Lemma operation_case_and_padding_witness :
  run Reference.library
    (("  " ++ "ADD" ++ String SP (String CR "")) ++ nl ++ unlines ["3"; "4"]) =
  run Reference.library (("" ++ "add" ++ "") ++ nl ++ unlines ["3"; "4"]).
Proof.
  apply operation_case_and_padding; reflexivity.
Defined.

(** ** Division *)

Lemma stoi_is_int (s : string) (v : Z) : stoi s = inr v -> is_int v = true.
Proof.
  unfold stoi. destruct (strtol s) as [w|]; [|discriminate].
  destruct (is_int w) eqn:E; [|discriminate].
  intros H. injection H as <-. exact E.
Qed.

Lemma is_int_bounds (v : Z) : is_int v = true <-> INT_MIN <= v <= INT_MAX.
Proof.
  unfold is_int. rewrite andb_true_iff, !Z.leb_le. reflexivity.
Qed.

(** The quotient of two [int]s is an [int], but for the one pair whose
    quotient is [INT_MAX + 1]. *)
Lemma quot_is_int (a b : Z) :
  is_int a = true -> is_int b = true -> b <> 0 ->
  (a <> INT_MIN \/ b <> -1) ->
  is_int (Z.quot a b) = true.
Proof.
  rewrite !is_int_bounds. unfold INT_MIN, INT_MAX.
  intros Ha Hb Hb0 Hne.
  pose proof (Z.quot_rem' a b) as Hq.
  pose proof (Z.rem_bound_abs a b Hb0) as Hr.
  pose proof (Z.rem_sign_mul a b Hb0) as Hsg.
  split; nia.
Qed.

Lemma compute_divide (lib : float_library) (a b : Z) (p : process) :
  b <> 0 -> is_int (Z.quot a b) = true ->
  compute lib "divide" a b p =
  (Normal tt,
   mkProcess (cin p) (cin_good p) ((cout p ++ to_chars (Z.quot a b)) ++ nl)).
Proof.
  intros Hb Hq. unfold compute. cbn [String.eqb Ascii.eqb Bool.eqb].
  apply Z.eqb_neq in Hb. rewrite Hb.
  unfold int_div, int_result. rewrite Hb, Hq. reflexivity.
Qed.

(** *** Decimal digits, printed and read back *)

Lemma accumulate_digits (d : Decimal.uint) :
  forall acc, accumulate acc (NilEmpty.string_of_uint d) = uint_value d acc.
Proof.
  induction d; intros acc; cbn [NilEmpty.string_of_uint uint_value accumulate];
    try reflexivity; apply IHd.
Qed.

Lemma uint_value_acc (d : Decimal.uint) :
  forall acc : positive, uint_value d (Zpos acc) = Zpos (Pos.of_uint_acc d acc).
Proof.
  induction d; intros acc; cbn [uint_value Pos.of_uint_acc];
    try reflexivity; rewrite <- IHd; f_equal; lia.
Qed.

Lemma uint_value_0 (d : Decimal.uint) :
  uint_value d 0 = Z.of_N (Pos.of_uint d).
Proof.
  induction d; cbn [uint_value Pos.of_uint]; try reflexivity;
    rewrite Z.mul_0_r, Z.add_0_l; [exact IHd | now rewrite uint_value_acc ..].
Qed.

Lemma digits_start (d : Decimal.uint) :
  d <> Decimal.Nil ->
  exists c s, NilEmpty.string_of_uint d = String c s /\ isdigit c = true.
Proof.
  destruct d; intros H; [contradiction | ..];
    cbn [NilEmpty.string_of_uint]; eexists; eexists; split; reflexivity.
Qed.

Lemma isdigit_plain (c : ascii) :
  isdigit c = true ->
  isspace c = false /\ Ascii.eqb c "-" = false /\ Ascii.eqb c "+" = false.
Proof.
  unfold isdigit, isspace. rewrite andb_true_iff, !Z.leb_le. intros H.
  repeat split.
  - apply orb_false_iff. split; [apply Z.eqb_neq; lia|].
    apply andb_false_iff. right. apply Z.leb_gt. lia.
  - apply Ascii.eqb_neq. intros ->. change (code "-") with 45 in H. lia.
  - apply Ascii.eqb_neq. intros ->. change (code "+") with 43 in H. lia.
Qed.

Lemma strtol_digits (d : Decimal.uint) :
  d <> Decimal.Nil ->
  strtol (NilEmpty.string_of_uint d) = Some (Z.of_N (Pos.of_uint d)) /\
  strtol (String "-" (NilEmpty.string_of_uint d)) = Some (- Z.of_N (Pos.of_uint d)).
Proof.
  intros H. destruct (digits_start d H) as (c & s & E & Hc).
  destruct (isdigit_plain c Hc) as (Hs & Hm & Hp).
  pose proof (accumulate_digits d 0) as A. rewrite uint_value_0 in A.
  unfold strtol. rewrite E in *. cbn [skip_space]. rewrite Hs, Hm, Hp.
  cbn [starts_with_digit]. rewrite Hc, A. split; [reflexivity|].
  change (isspace "-") with false. cbn [Ascii.eqb Bool.eqb starts_with_digit andb].
  now rewrite Hc, A.
Qed.

(** What [operator<<] prints of an integer, [strtol] reads back. *)
Lemma strtol_to_chars (v : Z) : strtol (to_chars v) = Some v.
Proof.
  unfold to_chars. destruct v as [|p|p]; [reflexivity | |].
  - cbn [Z.to_int NilZero.string_of_int]. unfold NilZero.string_of_uint.
    pose proof (Unsigned.to_uint_nonnil p) as H.
    destruct (strtol_digits _ H) as [E _].
    destruct (Pos.to_uint p) eqn:D; [contradiction | ..];
      rewrite <- D in *; rewrite E, Unsigned.of_to; reflexivity.
  - cbn [Z.to_int NilZero.string_of_int]. unfold NilZero.string_of_uint.
    pose proof (Unsigned.to_uint_nonnil p) as H.
    destruct (strtol_digits _ H) as [_ E].
    destruct (Pos.to_uint p) eqn:D; [contradiction | ..];
      rewrite <- D in *; rewrite E, Unsigned.of_to; reflexivity.
Qed.

(** Every [int] has a line [std::stoi] reads as it: its decimal digits. *)
Lemma stoi_to_chars (v : Z) : is_int v = true -> stoi (to_chars v) = inr v.
Proof. intros H. unfold stoi. now rewrite strtol_to_chars, H. Qed.

Lemma digits_no_line_feed (d : Decimal.uint) :
  no_line_feed (NilEmpty.string_of_uint d) = true.
Proof.
  unfold no_line_feed.
  induction d; cbn [NilEmpty.string_of_uint all]; try reflexivity; exact IHd.
Qed.

Lemma to_chars_no_line_feed (v : Z) : no_line_feed (to_chars v) = true.
Proof.
  unfold to_chars, NilZero.string_of_int, NilZero.string_of_uint.
  destruct (Z.to_int v) as [d|d]; destruct d; try reflexivity;
    apply digits_no_line_feed.
Qed.

(** The lines of a three-line input are the three lines the program reads. *)
Lemma line_then_rest (l rest : string) :
  no_line_feed l = true ->
  next_line (start (l ++ nl ++ rest)) = l /\
  after_line (start (l ++ nl ++ rest)) = start rest.
Proof.
  intros Hl. exact (first_line l (nl ++ rest) Hl eq_refl).
Qed.

Lemma lines_of_unlines (a b c : string) :
  no_line_feed a = true -> no_line_feed b = true -> no_line_feed c = true ->
  stdin_line 0 (unlines [a; b; c]) = a /\
  stdin_line 1 (unlines [a; b; c]) = b /\
  stdin_line 2 (unlines [a; b; c]) = c.
Proof.
  intros Ha Hb Hc. unfold stdin_line. cbn [unlines Nat.iter nat_rect].
  destruct (line_then_rest a (b ++ nl ++ c ++ nl ++ "") Ha) as [La Aa].
  destruct (line_then_rest b (c ++ nl ++ "") Hb) as [Lb Ab].
  destruct (line_then_rest c "" Hc) as [Lc _].
  now rewrite Aa, Ab, La, Lb, Lc.
Qed.

(** C6, as the code has it. With "divide" selected and the operand lines
    read as the ints [a] and [b], [b] not zero and the pair not
    [(INT_MIN, -1)], the program prints the quotient of [a] by [b] truncated
    toward zero, in decimal, and a line feed, and returns 0 (the first line
    being any a [std::string] can hold). Every such pair of ints can be
    supplied, by its decimal digits; and dividing -7 by 2 prints "-3". *)
Theorem divide_truncates :
  (forall (lib : float_library) (stdin : string) (a b : Z),
      size (stdin_line 0 stdin) < npos ->
      selected stdin = "divide" ->
      stoi (stdin_line 1 stdin) = inr a ->
      stoi (stdin_line 2 stdin) = inr b ->
      b <> 0 ->
      (a <> INT_MIN \/ b <> -1) ->
      run lib stdin = Exited 0 (to_chars (Z.quot a b) ++ nl)) /\
  (forall (lib : float_library) (a b : Z),
      INT_MIN <= a <= INT_MAX ->
      INT_MIN <= b <= INT_MAX ->
      b <> 0 ->
      (a <> INT_MIN \/ b <> -1) ->
      run lib (unlines ["divide"; to_chars a; to_chars b]) =
      Exited 0 (to_chars (Z.quot a b) ++ nl)) /\
  (forall lib : float_library,
      run lib (unlines ["divide"; "-7"; "2"]) = Exited 0 ("-3" ++ nl)).
Proof.
  assert (General :
    forall (lib : float_library) (stdin : string) (a b : Z),
      size (stdin_line 0 stdin) < npos ->
      selected stdin = "divide" ->
      stoi (stdin_line 1 stdin) = inr a ->
      stoi (stdin_line 2 stdin) = inr b ->
      b <> 0 ->
      (a <> INT_MIN \/ b <> -1) ->
      run lib stdin = Exited 0 (to_chars (Z.quot a b) ++ nl)).
  { intros lib stdin a b Hs Hop Ha Hb Hb0 Hne.
    unfold run. fold (start stdin). rewrite main_selected by exact Hs.
    rewrite Hop. cbn [String.eqb Ascii.eqb Bool.eqb].
    rewrite (binary_branch_operands lib "divide" (after_line (start stdin)) a b Ha Hb).
    pose proof (quot_is_int a b (stoi_is_int _ _ Ha) (stoi_is_int _ _ Hb) Hb0 Hne) as Hq.
    unfold bind. rewrite (compute_divide lib a b _ Hb0 Hq).
    unfold ret, outcome_of. cbn [cout].
    change (after_line (after_line (after_line (start stdin))))
      with (Nat.iter 3 after_line (start stdin)).
    now rewrite cout_start_lines. }
  split; [exact General | split; [|reflexivity]].
  intros lib a b Ha Hb Hb0 Hne.
  destruct (lines_of_unlines "divide" (to_chars a) (to_chars b) eq_refl
              (to_chars_no_line_feed a) (to_chars_no_line_feed b))
    as (L0 & L1 & L2).
  apply General; try assumption.
  - rewrite L0. reflexivity.
  - rewrite L1. apply stoi_to_chars. now apply is_int_bounds.
  - rewrite L2. apply stoi_to_chars. now apply is_int_bounds.
Qed.

Lemma divide_truncates_witness :
  run Reference.library (unlines ["divide"; " +2147483647"; "-2"]) =
  Exited 0 (to_chars (Z.quot 2147483647 (-2)) ++ nl).
Proof.
  apply (proj1 divide_truncates); try reflexivity.
  - discriminate.
  - left. discriminate.
Defined.

(** Counterexample to C6 as it is worded: the quotient that is not an
    [int]. On the lines "divide", "-2147483648", "-1" both operands are ints
    and the divisor is not zero, and the program does not print the quotient
    2147483648: the division overflows. *)
Lemma divide_INT_MIN_by_minus_1 :
  ~ (forall (lib : float_library) (stdin : string) (a b : Z),
        size (stdin_line 0 stdin) < npos ->
        selected stdin = "divide" ->
        stoi (stdin_line 1 stdin) = inr a ->
        stoi (stdin_line 2 stdin) = inr b ->
        b <> 0 ->
        run lib stdin = Exited 0 (to_chars (Z.quot a b) ++ nl)).
Proof.
  intros H.
  specialize (H Reference.library (unlines ["divide"; "-2147483648"; "-1"])
                INT_MIN (-1)).
  assert (E : run Reference.library (unlines ["divide"; "-2147483648"; "-1"]) =
              Undefined_behaviour signed_overflow "") by reflexivity.
  rewrite E in H. discriminate H; try reflexivity. discriminate.
Qed.

(** ** The exit status *)

Lemma returns_zero_after {A} (c : M A) : returns_zero (c ;; ret 0).
Proof.
  intros p status p'. unfold bind, ret.
  destruct (c p) as [[a|e|u] p1]; intros H; [|discriminate H ..].
  now injection H as <- _.
Qed.

Lemma returns_zero_bind {A} (c : M A) (k : A -> M Z) :
  (forall a, returns_zero (k a)) -> returns_zero (bind c k).
Proof.
  intros Hk p status p'. unfold bind.
  destruct (c p) as [[a|e|u] p1]; [apply Hk | discriminate ..].
Qed.

Lemma returns_zero_sqrt_branch (lib : float_library) :
  returns_zero (sqrt_branch lib).
Proof.
  unfold sqrt_branch. apply returns_zero_bind. intros numStr.
  apply returns_zero_after.
Qed.

Lemma returns_zero_binary_branch (lib : float_library) (operation : string) :
  returns_zero (binary_branch lib operation).
Proof.
  unfold binary_branch. apply returns_zero_bind. intros input1.
  apply returns_zero_bind. intros input2.
  intros p status p'. unfold bind at 1, try_catch.
  unfold bind at 2, call.
  destruct (stoi input1) as [e1|a].
  - unfold throw at 1, bind at 2, put at 1, bind at 2, endl, put at 1, ret at 1.
    unfold ret. intros H. now injection H as <- _.
  - unfold ret at 1, bind at 2. destruct (stoi input2) as [e2|b].
    + unfold throw at 1, bind at 2, put at 1, bind at 2, endl, put at 1, ret at 1.
      unfold ret. intros H. now injection H as <- _.
    + unfold ret at 1, ret at 1. apply returns_zero_after.
Qed.

(** X3. [main] has no other exit status than 0. *)
Theorem exit_status_zero (lib : float_library) (stdin out : string) (status : Z) :
  size (stdin_line 0 stdin) < npos ->
  run lib stdin = Exited status out ->
  status = 0.
Proof.
  intros Hs. unfold run. fold (start stdin).
  rewrite main_selected by exact Hs.
  destruct (String.eqb (selected stdin) "sqrt").
  - destruct (sqrt_branch lib (after_line (start stdin))) as [[a|e1|u] p1] eqn:R;
      try discriminate.
    intros H. injection H as <- _. exact (returns_zero_sqrt_branch lib _ _ _ R).
  - destruct (binary_branch lib (selected stdin) (after_line (start stdin)))
      as [[a|e1|u] p1] eqn:R; try discriminate.
    intros H. injection H as <- _.
    exact (returns_zero_binary_branch lib _ _ _ _ R).
Qed.

Lemma exit_status_zero_witness :
  exit_status (run Reference.library (unlines ["sqrt"; "16"])) = Some 0.
Proof.
  destruct (run Reference.library (unlines ["sqrt"; "16"])) as [status out| |] eqn:E;
    try (vm_compute in E; discriminate E).
  cbn [exit_status]. f_equal.
  exact (exit_status_zero Reference.library (unlines ["sqrt"; "16"])
           out status eq_refl E).
Defined.

(** ** The other operations *)

Lemma run_operands (lib : float_library) (stdin : string) (a b : Z) :
  size (stdin_line 0 stdin) < npos ->
  selected stdin <> "sqrt" ->
  stoi (stdin_line 1 stdin) = inr a ->
  stoi (stdin_line 2 stdin) = inr b ->
  run lib stdin =
  outcome_of ((compute lib (selected stdin) a b ;; ret 0)
                (Nat.iter 3 after_line (start stdin))).
Proof.
  intros Hs Hop Ha Hb. unfold run. fold (start stdin).
  rewrite main_selected by exact Hs.
  destruct (String.eqb_spec (selected stdin) "sqrt"); [contradiction|].
  now rewrite (binary_branch_operands lib _ (after_line (start stdin)) a b Ha Hb).
Qed.

Lemma outcome_printed (c : M unit) (k : nat) (stdin text : string) :
  (forall p, c p = (Normal tt, mkProcess (cin p) (cin_good p) ((cout p ++ text) ++ nl))) ->
  outcome_of ((c ;; ret 0) (Nat.iter k after_line (start stdin))) =
  Exited 0 (text ++ nl).
Proof.
  intros H. unfold bind. rewrite H. unfold ret, outcome_of. cbn [cout].
  now rewrite cout_start_lines.
Qed.

Lemma print_int_result (v : Z) (p : process) :
  is_int v = true ->
  (x <- int_result v ;; put_int x ;; endl) p =
  (Normal tt, mkProcess (cin p) (cin_good p) ((cout p ++ to_chars v) ++ nl)).
Proof. intros H. unfold int_result. now rewrite H. Qed.

(** X4. "add", "subtract" and "multiply" print the sum, the difference and
    the product of the two operands, when that is an [int]. *)
Theorem arithmetic_results (lib : float_library) (stdin : string) (a b : Z) :
  size (stdin_line 0 stdin) < npos ->
  stoi (stdin_line 1 stdin) = inr a ->
  stoi (stdin_line 2 stdin) = inr b ->
  (selected stdin = "add" -> INT_MIN <= a + b <= INT_MAX ->
   run lib stdin = Exited 0 (to_chars (a + b) ++ nl)) /\
  (selected stdin = "subtract" -> INT_MIN <= a - b <= INT_MAX ->
   run lib stdin = Exited 0 (to_chars (a - b) ++ nl)) /\
  (selected stdin = "multiply" -> INT_MIN <= a * b <= INT_MAX ->
   run lib stdin = Exited 0 (to_chars (a * b) ++ nl)).
Proof.
  intros Hs Ha Hb.
  repeat split; intros Hop Hv; apply is_int_bounds in Hv;
    (rewrite (run_operands lib stdin a b Hs) by (try assumption; rewrite Hop; discriminate));
    rewrite Hop; apply outcome_printed; intros p;
    unfold compute; cbn [String.eqb Ascii.eqb Bool.eqb];
    [unfold int_add | unfold int_sub | unfold int_mul];
    now apply print_int_result.
Qed.

Lemma arithmetic_results_witness :
  run Reference.library (unlines ["Multiply"; "-6"; "7"]) =
  Exited 0 (to_chars (-6 * 7) ++ nl).
Proof.
  apply (arithmetic_results Reference.library (unlines ["Multiply"; "-6"; "7"]) (-6) 7);
    try reflexivity.
  unfold INT_MIN, INT_MAX. lia.
Defined.

(** X5. With "divide" selected and the second operand read as 0, the
    program prints "Error: Division by zero"; it does not divide. *)
Theorem divide_by_zero_reported (lib : float_library) (stdin : string) (a : Z) :
  size (stdin_line 0 stdin) < npos ->
  selected stdin = "divide" ->
  stoi (stdin_line 1 stdin) = inr a ->
  stoi (stdin_line 2 stdin) = inr 0 ->
  run lib stdin = Exited 0 ("Error: Division by zero" ++ nl).
Proof.
  intros Hs Hop Ha Hb.
  rewrite (run_operands lib stdin a 0 Hs) by (try assumption; rewrite Hop; discriminate).
  rewrite Hop. apply outcome_printed. intros p. reflexivity.
Qed.

Lemma divide_by_zero_reported_witness :
  run Reference.library (unlines [" DIVIDE"; "12"; "-0"]) =
  Exited 0 ("Error: Division by zero" ++ nl).
Proof.
  apply (divide_by_zero_reported Reference.library _ 12); reflexivity.
Defined.

(** X6. A first line that names none of the seven operations is answered
    with "Error: Unknown operation", once both operand lines are read as
    ints. *)
Theorem unknown_operation_reported (lib : float_library) (stdin : string) (a b : Z) :
  size (stdin_line 0 stdin) < npos ->
  ~ In (selected stdin)
       ["sqrt"; "add"; "subtract"; "multiply"; "divide"; "power"; "modulo"] ->
  stoi (stdin_line 1 stdin) = inr a ->
  stoi (stdin_line 2 stdin) = inr b ->
  run lib stdin = Exited 0 ("Error: Unknown operation" ++ nl).
Proof.
  intros Hs Hop Ha Hb. cbn [In] in Hop.
  rewrite (run_operands lib stdin a b Hs) by (try assumption; intros E; apply Hop; now left).
  apply outcome_printed. intros p. unfold compute.
  repeat match goal with
         | |- context [String.eqb (selected stdin) ?s] =>
             destruct (String.eqb_spec (selected stdin) s) as [E|_];
             [exfalso; apply Hop; rewrite E; tauto|]
         end.
  reflexivity.
Qed.

Lemma unknown_operation_reported_witness :
  run Reference.library (unlines ["sum"; "1"; "2"]) =
  Exited 0 ("Error: Unknown operation" ++ nl).
Proof.
  apply (unknown_operation_reported Reference.library _ 1 2); try reflexivity.
  cbn [In]. intros H.
  repeat (destruct H as [H | H]; [discriminate H|]). exact H.
Defined.

(** ** The remainder, and the results that are not ints *)

Lemma print_undefined (c : M Z) (u : undefined) (p : process) :
  c p = (Undefined u, p) ->
  (x <- c ;; put_int x ;; endl) p = (Undefined u, p).
Proof. intros H. unfold bind. now rewrite H. Qed.

Lemma outcome_undefined (c : M unit) (k : nat) (stdin : string) (u : undefined) :
  (forall p, c p = (Undefined u, p)) ->
  outcome_of ((c ;; ret 0) (Nat.iter k after_line (start stdin))) =
  Undefined_behaviour u "".
Proof.
  intros H. unfold bind. rewrite H. unfold outcome_of.
  now rewrite cout_start_lines.
Qed.

Lemma int_result_overflow (v : Z) (p : process) :
  is_int v = false -> int_result v p = (Undefined signed_overflow, p).
Proof. intros H. unfold int_result. now rewrite H. Qed.

Lemma not_is_int (v : Z) : ~ INT_MIN <= v <= INT_MAX -> is_int v = false.
Proof.
  intros H. destruct (is_int v) eqn:E; [|reflexivity].
  apply is_int_bounds in E. contradiction.
Qed.

(** X7. With "modulo" selected and the operand lines read as the ints [a]
    and [b], [b] not zero and the pair not [(INT_MIN, -1)], the program
    prints the remainder of the division truncated toward zero (it has the
    sign of [a]) and a line feed, and returns 0. *)
Theorem modulo_results (lib : float_library) (stdin : string) (a b : Z) :
  size (stdin_line 0 stdin) < npos ->
  selected stdin = "modulo" ->
  stoi (stdin_line 1 stdin) = inr a ->
  stoi (stdin_line 2 stdin) = inr b ->
  b <> 0 ->
  (a <> INT_MIN \/ b <> -1) ->
  run lib stdin = Exited 0 (to_chars (Z.rem a b) ++ nl) /\
  a = b * Z.quot a b + Z.rem a b /\
  Z.abs (Z.rem a b) < Z.abs b /\
  0 <= Z.rem a b * a.
Proof.
  intros Hs Hop Ha Hb Hb0 Hne.
  split; [|split; [apply Z.quot_rem' | split;
     [now apply Z.rem_bound_abs | now apply Z.rem_sign_mul]]].
  rewrite (run_operands lib stdin a b Hs) by (try assumption; rewrite Hop; discriminate).
  rewrite Hop. apply outcome_printed. intros p.
  unfold compute. cbn [String.eqb Ascii.eqb Bool.eqb]. unfold int_rem.
  apply Z.eqb_neq in Hb0. rewrite Hb0.
  rewrite (quot_is_int a b (stoi_is_int _ _ Ha) (stoi_is_int _ _ Hb)
             (proj1 (Z.eqb_neq b 0) Hb0) Hne).
  reflexivity.
Qed.

Lemma modulo_results_witness :
  run Reference.library (unlines ["modulo"; "-7"; "2"]) =
  Exited 0 ("-1" ++ nl).
Proof.
  apply (modulo_results Reference.library (unlines ["modulo"; "-7"; "2"]) (-7) 2);
    try reflexivity.
  - discriminate.
  - left. discriminate.
Defined.

(** X8. A result that is not an [int] is never printed: when the sum, the
    difference or the product of the operands is outside [int], and when
    [INT_MIN] is divided by -1 ("divide" and "modulo" alike), the program
    leaves defined behaviour at the operation, with nothing written. *)
Theorem overflow_is_undefined (lib : float_library) (stdin : string) (a b : Z) :
  size (stdin_line 0 stdin) < npos ->
  stoi (stdin_line 1 stdin) = inr a ->
  stoi (stdin_line 2 stdin) = inr b ->
  (selected stdin = "add" /\ ~ INT_MIN <= a + b <= INT_MAX) \/
  (selected stdin = "subtract" /\ ~ INT_MIN <= a - b <= INT_MAX) \/
  (selected stdin = "multiply" /\ ~ INT_MIN <= a * b <= INT_MAX) \/
  ((selected stdin = "divide" \/ selected stdin = "modulo") /\
   a = INT_MIN /\ b = -1) ->
  run lib stdin = Undefined_behaviour signed_overflow "".
Proof.
  intros Hs Ha Hb H.
  assert (Hsq : selected stdin <> "sqrt").
  { destruct H as [[-> _] | [[-> _] | [[-> _] | [[-> | ->] _]]]]; discriminate. }
  rewrite (run_operands lib stdin a b Hs Hsq Ha Hb).
  apply outcome_undefined. intros p. unfold compute.
  destruct H as [[-> Hv] | [[-> Hv] | [[-> Hv] | [[-> | ->] [-> ->]]]]];
    cbn [String.eqb Ascii.eqb Bool.eqb].
  - apply print_undefined. unfold int_add. now apply int_result_overflow, not_is_int.
  - apply print_undefined. unfold int_sub. now apply int_result_overflow, not_is_int.
  - apply print_undefined. unfold int_mul. now apply int_result_overflow, not_is_int.
  - reflexivity.
  - reflexivity.
Qed.

Lemma overflow_is_undefined_witness :
  run Reference.library (unlines ["add"; "2147483647"; "1"]) =
  Undefined_behaviour signed_overflow "".
Proof.
  apply (overflow_is_undefined Reference.library
           (unlines ["add"; "2147483647"; "1"]) 2147483647 1); try reflexivity.
  left. split; [reflexivity|]. unfold INT_MIN, INT_MAX. lia.
Defined.

(** ** The square root and the power *)

Lemma run_sqrt (lib : float_library) (stdin : string) (num : double) :
  size (stdin_line 0 stdin) < npos ->
  selected stdin = "sqrt" ->
  lib_stod lib (stdin_line 1 stdin) = inr num ->
  double_ltb num double_zero = false ->
  run lib stdin =
  outcome_of (((v <- int_of_double (sqrt num) ;; put_int v ;; endl) ;; ret 0)
                (Nat.iter 2 after_line (start stdin))).
Proof.
  intros Hs Hop Hnum Hpos. unfold run. fold (start stdin).
  rewrite main_selected by exact Hs. rewrite Hop.
  cbn [String.eqb Ascii.eqb Bool.eqb]. unfold sqrt_branch.
  rewrite (bind_normal _ _ _ _ _ (getline_next _)).
  change (next_line (after_line (start stdin))) with (stdin_line 1 stdin).
  unfold bind at 1. unfold try_catch, bind at 1, call, stod.
  rewrite Hnum. unfold ret at 1. rewrite Hpos.
  cbn [Nat.iter nat_rect]. unfold bind at 4.
  destruct ((v <- int_of_double (sqrt num);; put_int v;; endl)
              (after_line (after_line (start stdin)))) as [[[]|e|u] p1] eqn:E;
    try reflexivity.
  exfalso.
  assert (C : contained (v <- int_of_double (sqrt num);; put_int v;; endl))
    by apply contained_print, contained_int_of_double.
  exact (C _ _ _ E).
Qed.

(** X9. With "sqrt" selected and the operand read by [std::stod] as a
    number not below zero, the program prints the integral part of the
    correctly rounded square root, when that is an [int]; when it is not (the
    root of a number above [INT_MAX] squared, of an infinity, or a NaN), the
    conversion to [int] is undefined and nothing is written. *)
Theorem sqrt_results (lib : float_library) (stdin : string) (num : double) :
  size (stdin_line 0 stdin) < npos ->
  selected stdin = "sqrt" ->
  lib_stod lib (stdin_line 1 stdin) = inr num ->
  double_ltb num double_zero = false ->
  run lib stdin =
  match truncate (sqrt num) with
  | Some v =>
      if is_int v then Exited 0 (to_chars v ++ nl)
      else Undefined_behaviour float_to_int_range ""
  | None => Undefined_behaviour float_to_int_range ""
  end.
Proof.
  intros Hs Hop Hnum Hpos. rewrite (run_sqrt lib stdin num Hs Hop Hnum Hpos).
  unfold int_of_double.
  destruct (truncate (sqrt num)) as [v|]; [destruct (is_int v)|].
  - now apply outcome_printed.
  - now apply outcome_undefined.
  - now apply outcome_undefined.
Qed.

Lemma sqrt_results_witness :
  run Reference.library (unlines [" SQRT"; "99.9999"]) = Exited 0 ("9" ++ nl).
Proof.
  exact (sqrt_results Reference.library (unlines [" SQRT"; "99.9999"])
           (S754_finite false 7036867380891982 (-46))
           eq_refl eq_refl eq_refl eq_refl).
Defined.

(** X10. With "power" selected and the operand lines read as the ints [a]
    and [b], the program prints the integral part of what [std::pow] returns
    for the two operands converted to [double], when that is an [int]; when
    it is not (a power beyond [INT_MAX], an infinity such as zero to a
    negative exponent, or a NaN), the conversion to [int] is undefined and
    nothing is written. *)
Theorem power_results (lib : float_library) (stdin : string) (a b : Z) :
  size (stdin_line 0 stdin) < npos ->
  selected stdin = "power" ->
  stoi (stdin_line 1 stdin) = inr a ->
  stoi (stdin_line 2 stdin) = inr b ->
  run lib stdin =
  match truncate (lib_pow lib (double_of_int a) (double_of_int b)) with
  | Some v =>
      if is_int v then Exited 0 (to_chars v ++ nl)
      else Undefined_behaviour float_to_int_range ""
  | None => Undefined_behaviour float_to_int_range ""
  end.
Proof.
  intros Hs Hop Ha Hb.
  rewrite (run_operands lib stdin a b Hs) by (try assumption; rewrite Hop; discriminate).
  rewrite Hop. unfold compute. cbn [String.eqb Ascii.eqb Bool.eqb].
  unfold int_of_double, pow.
  destruct (truncate (lib_pow lib (double_of_int a) (double_of_int b))) as [v|];
    [destruct (is_int v)|].
  - now apply outcome_printed.
  - now apply outcome_undefined.
  - now apply outcome_undefined.
Qed.

Lemma power_results_witness :
  run Reference.library (unlines ["power"; "2"; "31"]) =
  Undefined_behaviour float_to_int_range "" /\
  run Reference.library (unlines ["Power"; "-2"; "31"]) =
  Exited 0 ("-2147483648" ++ nl).
Proof.
  split.
  - exact (power_results Reference.library (unlines ["power"; "2"; "31"]) 2 31
             eq_refl eq_refl eq_refl eq_refl).
  - exact (power_results Reference.library (unlines ["Power"; "-2"; "31"]) (-2) 31
             eq_refl eq_refl eq_refl eq_refl).
Defined.

(** ** One line of output *)

Lemma one_line_message (text : string) :
  no_line_feed text = true -> one_line (put text ;; endl).
Proof. intros H. left. exists text. split; [exact H|]. intros p. reflexivity. Qed.

Lemma one_line_print (c : M Z) :
  (exists v, forall p, c p = (Normal v, p)) \/
  (exists u, forall p, c p = (Undefined u, p)) ->
  one_line (v <- c ;; put_int v ;; endl).
Proof.
  intros [[v H] | [u H]].
  - left. exists (to_chars v). split; [apply to_chars_no_line_feed|].
    intros p. unfold bind. now rewrite H.
  - right. exists u. intros p. unfold bind. now rewrite H.
Qed.

Lemma int_result_cases (v : Z) :
  (exists w, forall p, int_result v p = (Normal w, p)) \/
  (exists u, forall p, int_result v p = (Undefined u, p)).
Proof.
  unfold int_result. destruct (is_int v); [left; exists v | right; eexists];
    intros p; reflexivity.
Qed.

Lemma int_of_double_cases (d : double) :
  (exists w, forall p, int_of_double d p = (Normal w, p)) \/
  (exists u, forall p, int_of_double d p = (Undefined u, p)).
Proof.
  unfold int_of_double. destruct (truncate d) as [v|]; [destruct (is_int v)|];
    [left; exists v | right; eexists | right; eexists]; intros p; reflexivity.
Qed.

Lemma one_line_compute (lib : float_library) (operation : string) (a b : Z) :
  one_line (compute lib operation a b).
Proof.
  unfold compute.
  destruct (String.eqb operation "add");
    [apply one_line_print, int_result_cases|].
  destruct (String.eqb operation "subtract");
    [apply one_line_print, int_result_cases|].
  destruct (String.eqb operation "multiply");
    [apply one_line_print, int_result_cases|].
  destruct (String.eqb operation "divide").
  { destruct (b =? 0) eqn:Hb; [now apply one_line_message|].
    apply one_line_print. unfold int_div. rewrite Hb. apply int_result_cases. }
  destruct (String.eqb operation "power");
    [apply one_line_print, int_of_double_cases|].
  destruct (String.eqb operation "modulo"); [|now apply one_line_message].
  apply one_line_print. unfold int_rem.
  destruct (b =? 0); [right; eexists; intros p; reflexivity|].
  destruct (is_int (Z.quot a b));
    [left; eexists | right; eexists]; intros p; reflexivity.
Qed.

Lemma outcome_one_line (c : M unit) (k : nat) (stdin : string) :
  one_line c ->
  one_line_outcome (outcome_of ((c ;; ret 0) (Nat.iter k after_line (start stdin)))).
Proof.
  intros [[text [Ht H]] | [u H]].
  - left. exists text. split; [exact Ht|]. now apply outcome_printed.
  - right. exists u. now apply outcome_undefined.
Qed.

Lemma one_line_rejected :
  one_line_outcome (Exited 0 ("Error: Invalid input" ++ nl)).
Proof. left. exists "Error: Invalid input". split; reflexivity. Qed.

(** The run of an input whose operation is not "sqrt" is settled by the
    operation and by what [std::stoi] makes of the two operand lines. *)
Lemma run_binary (lib : float_library) (stdin : string) :
  size (stdin_line 0 stdin) < npos ->
  selected stdin <> "sqrt" ->
  run lib stdin =
  match stoi (stdin_line 1 stdin), stoi (stdin_line 2 stdin) with
  | inr a, inr b =>
      outcome_of ((compute lib (selected stdin) a b ;; ret 0)
                    (Nat.iter 3 after_line (start stdin)))
  | _, _ => Exited 0 ("Error: Invalid input" ++ nl)
  end.
Proof.
  intros Hs Hop.
  destruct (stoi (stdin_line 1 stdin)) as [e1|a] eqn:Ha;
    [|destruct (stoi (stdin_line 2 stdin)) as [e2|b] eqn:Hb].
  - unfold run. fold (start stdin). rewrite main_selected by exact Hs.
    destruct (String.eqb_spec (selected stdin) "sqrt"); [contradiction|].
    rewrite binary_branch_invalid.
    + exact (outcome_rejected 3 stdin).
    + change (next_line (after_line (start stdin))) with (stdin_line 1 stdin).
      now rewrite Ha.
  - unfold run. fold (start stdin). rewrite main_selected by exact Hs.
    destruct (String.eqb_spec (selected stdin) "sqrt"); [contradiction|].
    rewrite binary_branch_invalid.
    + exact (outcome_rejected 3 stdin).
    + change (next_line (after_line (after_line (start stdin))))
        with (stdin_line 2 stdin).
      rewrite Hb. apply orb_true_r.
  - now apply run_operands.
Qed.

(** The run of an input whose operation is "sqrt" is settled by what
    [std::stod] makes of the operand line. *)
Lemma run_unary (lib : float_library) (stdin : string) :
  size (stdin_line 0 stdin) < npos ->
  selected stdin = "sqrt" ->
  run lib stdin =
  match lib_stod lib (stdin_line 1 stdin) with
  | inr num =>
      if double_ltb num double_zero
      then Exited 0 ("Error: Invalid input" ++ nl)
      else outcome_of
             (((v <- int_of_double (sqrt num) ;; put_int v ;; endl) ;; ret 0)
                (Nat.iter 2 after_line (start stdin)))
  | inl _ => Exited 0 ("Error: Invalid input" ++ nl)
  end.
Proof.
  intros Hs Hop.
  destruct (lib_stod lib (stdin_line 1 stdin)) as [e|num] eqn:Hnum;
    [|destruct (double_ltb num double_zero) eqn:Hneg].
  - unfold run. fold (start stdin). rewrite main_selected by exact Hs.
    rewrite Hop. cbn [String.eqb Ascii.eqb Bool.eqb].
    rewrite sqrt_branch_invalid.
    + exact (outcome_rejected 2 stdin).
    + left. change (next_line (after_line (start stdin))) with (stdin_line 1 stdin).
      now rewrite Hnum.
  - unfold run. fold (start stdin). rewrite main_selected by exact Hs.
    rewrite Hop. cbn [String.eqb Ascii.eqb Bool.eqb].
    rewrite sqrt_branch_invalid.
    + exact (outcome_rejected 2 stdin).
    + right. exists num. split; [exact Hnum | exact Hneg].
  - now apply run_sqrt.
Qed.

(** X11. A run prints exactly one line and returns 0, or it leaves defined
    behaviour before it has written anything: no run prints more than one
    line, a partial line, or nothing at all before it returns. *)
Theorem one_line_or_undefined (lib : float_library) (stdin : string) :
  size (stdin_line 0 stdin) < npos ->
  (exists text, no_line_feed text = true /\
                run lib stdin = Exited 0 (text ++ nl)) \/
  (exists u, run lib stdin = Undefined_behaviour u "").
Proof.
  intros Hs. change (one_line_outcome (run lib stdin)).
  destruct (String.eqb_spec (selected stdin) "sqrt") as [Hop|Hop].
  - rewrite (run_unary lib stdin Hs Hop).
    destruct (lib_stod lib (stdin_line 1 stdin)) as [e|num];
      [exact one_line_rejected|].
    destruct (double_ltb num double_zero); [exact one_line_rejected|].
    apply outcome_one_line, one_line_print, int_of_double_cases.
  - rewrite (run_binary lib stdin Hs Hop).
    destruct (stoi (stdin_line 1 stdin)) as [e1|a];
      [exact one_line_rejected|].
    destruct (stoi (stdin_line 2 stdin)) as [e2|b];
      [exact one_line_rejected|].
    apply outcome_one_line, one_line_compute.
Qed.

Lemma one_line_or_undefined_witness :
  (exists text, no_line_feed text = true /\
                run Reference.library (unlines ["power"; "2"; "10"]) =
                Exited 0 (text ++ nl)) \/
  (exists u, run Reference.library (unlines ["power"; "2"; "10"]) =
             Undefined_behaviour u "").
Proof.
  apply one_line_or_undefined. reflexivity.
Defined.

(** ** What a run depends on *)

Lemma outcome_same (c : M unit) (k k' : nat) (s s' : string) :
  one_line c ->
  outcome_of ((c ;; ret 0) (Nat.iter k after_line (start s))) =
  outcome_of ((c ;; ret 0) (Nat.iter k' after_line (start s'))).
Proof.
  intros [[text [_ H]] | [u H]].
  - now rewrite !(outcome_printed c _ _ text H).
  - now rewrite !(outcome_undefined c _ _ u H).
Qed.

Lemma run_binary_agree (lib : float_library) (s s' : string) :
  size (stdin_line 0 s) < npos -> size (stdin_line 0 s') < npos ->
  selected s = selected s' -> selected s <> "sqrt" ->
  stoi (stdin_line 1 s) = stoi (stdin_line 1 s') ->
  stoi (stdin_line 2 s) = stoi (stdin_line 2 s') ->
  run lib s = run lib s'.
Proof.
  intros Hs Hs' Hop Hsq H1 H2.
  rewrite (run_binary lib s Hs Hsq).
  rewrite (run_binary lib s' Hs') by now rewrite <- Hop.
  rewrite <- H1, <- H2, <- Hop.
  destruct (stoi (stdin_line 1 s)) as [e1|a]; [reflexivity|].
  destruct (stoi (stdin_line 2 s)) as [e2|b]; [reflexivity|].
  apply outcome_same, one_line_compute.
Qed.

Lemma run_unary_agree (lib : float_library) (s s' : string) :
  size (stdin_line 0 s) < npos -> size (stdin_line 0 s') < npos ->
  selected s = "sqrt" -> selected s' = "sqrt" ->
  stdin_line 1 s = stdin_line 1 s' ->
  run lib s = run lib s'.
Proof.
  intros Hs Hs' Hop Hop' H1.
  rewrite (run_unary lib s Hs Hop), (run_unary lib s' Hs' Hop'), <- H1.
  destruct (lib_stod lib (stdin_line 1 s)) as [e|num]; [reflexivity|].
  destruct (double_ltb num double_zero); [reflexivity|].
  apply outcome_same, one_line_print, int_of_double_cases.
Qed.

Lemma three_lines (l0 l1 l2 rest : string) :
  no_line_feed l0 = true -> no_line_feed l1 = true -> no_line_feed l2 = true ->
  stdin_line 0 (l0 ++ nl ++ l1 ++ nl ++ l2 ++ nl ++ rest) = l0 /\
  stdin_line 1 (l0 ++ nl ++ l1 ++ nl ++ l2 ++ nl ++ rest) = l1 /\
  stdin_line 2 (l0 ++ nl ++ l1 ++ nl ++ l2 ++ nl ++ rest) = l2.
Proof.
  intros H0 H1 H2. unfold stdin_line. cbn [Nat.iter nat_rect].
  destruct (line_then_rest l0 (l1 ++ nl ++ l2 ++ nl ++ rest) H0) as [L0 A0].
  destruct (line_then_rest l1 (l2 ++ nl ++ rest) H1) as [L1 A1].
  destruct (line_then_rest l2 rest H2) as [L2 _].
  now rewrite A0, A1, L0, L1, L2.
Qed.

Lemma two_lines (l0 l1 rest : string) :
  no_line_feed l0 = true -> no_line_feed l1 = true ->
  stdin_line 0 (l0 ++ nl ++ l1 ++ nl ++ rest) = l0 /\
  stdin_line 1 (l0 ++ nl ++ l1 ++ nl ++ rest) = l1.
Proof.
  intros H0 H1. unfold stdin_line. cbn [Nat.iter nat_rect].
  destruct (line_then_rest l0 (l1 ++ nl ++ rest) H0) as [L0 A0].
  destruct (line_then_rest l1 rest H1) as [L1 _].
  now rewrite A0, L0, L1.
Qed.

(** X12. The program reads three lines, two when the operation is "sqrt":
    what follows them in the input changes nothing of the run. *)
Theorem trailing_input_ignored (lib : float_library) (l0 l1 l2 rest : string) :
  size l0 < npos ->
  no_line_feed l0 = true -> no_line_feed l1 = true -> no_line_feed l2 = true ->
  run lib (l0 ++ nl ++ l1 ++ nl ++ l2 ++ nl ++ rest) =
  run lib (l0 ++ nl ++ l1 ++ nl ++ l2 ++ nl) /\
  (trimmed l0 = "sqrt" ->
   run lib (l0 ++ nl ++ l1 ++ nl ++ rest) = run lib (l0 ++ nl ++ l1 ++ nl)).
Proof.
  intros Hs H0 H1 H2.
  destruct (three_lines l0 l1 l2 rest H0 H1 H2) as (A0 & A1 & A2).
  destruct (three_lines l0 l1 l2 "" H0 H1 H2) as (B0 & B1 & B2).
  destruct (two_lines l0 l1 rest H0 H1) as (C0 & C1).
  destruct (two_lines l0 l1 "" H0 H1) as (D0 & D1).
  change (nl ++ "") with nl in B0, B1, B2, D0, D1.
  split.
  - destruct (String.eqb_spec (trimmed l0) "sqrt") as [Hop|Hop].
    + apply run_unary_agree; unfold selected;
        rewrite ?A0, ?B0, ?A1, ?B1; try assumption; reflexivity.
    + apply run_binary_agree; unfold selected;
        rewrite ?A0, ?B0, ?A1, ?B1, ?A2, ?B2; try assumption; reflexivity.
  - intros Hop. apply run_unary_agree; unfold selected;
      rewrite ?C0, ?D0, ?C1, ?D1; try assumption; reflexivity.
Qed.

Lemma trailing_input_ignored_witness :
  run Reference.library
    ("add" ++ nl ++ "3" ++ nl ++ "4" ++ nl ++ "multiply" ++ nl ++ "x") =
  run Reference.library ("add" ++ nl ++ "3" ++ nl ++ "4" ++ nl).
Proof.
  apply (proj1 (trailing_input_ignored Reference.library "add" "3" "4"
                  ("multiply" ++ nl ++ "x") eq_refl eq_refl eq_refl eq_refl)).
Defined.

(** ** Carriage returns and the end of the input *)

Lemma accumulate_CR (s : string) :
  forall acc, accumulate acc (s ++ String CR "") = accumulate acc s.
Proof.
  induction s as [|c s IH]; intros acc; [reflexivity|].
  cbn [append accumulate]. destruct (isdigit c); [apply IH | reflexivity].
Qed.

Lemma starts_with_digit_CR (s : string) :
  starts_with_digit (s ++ String CR "") = starts_with_digit s.
Proof. now destruct s. Qed.

Lemma skip_space_CR (s : string) :
  skip_space (s ++ String CR "") =
  match skip_space s with
  | "" => ""
  | String c t => String c (t ++ String CR "")
  end.
Proof.
  induction s as [|c s IH]; [reflexivity|].
  cbn [append skip_space]. destruct (isspace c); [exact IH | reflexivity].
Qed.

(** [std::stoi] reads a line that ends in a carriage return as it reads the
    line without it. *)
Lemma stoi_CR (s : string) : stoi (s ++ String CR "") = stoi s.
Proof.
  unfold stoi. f_equal. unfold strtol. rewrite skip_space_CR.
  destruct (skip_space s) as [|c t]; [reflexivity|].
  destruct (Ascii.eqb c "-"); [now rewrite starts_with_digit_CR, accumulate_CR|].
  destruct (Ascii.eqb c "+"); [now rewrite starts_with_digit_CR, accumulate_CR|].
  change (String c (t ++ String CR "")) with (String c t ++ String CR "").
  now rewrite starts_with_digit_CR, accumulate_CR.
Qed.

Lemma size_append (s t : string) : size (s ++ t) = size s + size t.
Proof.
  induction s as [|c s IH]; [reflexivity|].
  cbn [append]. rewrite !size_String, IH. lia.
Qed.

Lemma no_line_feed_CR (s : string) :
  no_line_feed s = true -> no_line_feed (s ++ String CR "") = true.
Proof.
  intros H. unfold no_line_feed in *. rewrite all_append, H. reflexivity.
Qed.

(** X13. An input whose lines end in carriage return and line feed is run
    as the input whose lines end in a line feed alone, for every operation
    but "sqrt": the carriage return is trimmed from the first line and
    [std::stoi] stops before it in the operand lines. *)
Theorem crlf_line_endings (lib : float_library) (l0 l1 l2 : string) :
  size l0 + 1 < npos ->
  no_line_feed l0 = true -> no_line_feed l1 = true -> no_line_feed l2 = true ->
  trimmed l0 <> "sqrt" ->
  run lib (unlines [l0 ++ String CR ""; l1 ++ String CR ""; l2 ++ String CR ""]) =
  run lib (unlines [l0; l1; l2]).
Proof.
  intros Hs H0 H1 H2 Hop.
  destruct (lines_of_unlines _ _ _ (no_line_feed_CR l0 H0) (no_line_feed_CR l1 H1)
              (no_line_feed_CR l2 H2)) as (A0 & A1 & A2).
  destruct (lines_of_unlines l0 l1 l2 H0 H1 H2) as (B0 & B1 & B2).
  assert (T : trimmed (l0 ++ String CR "") = trimmed l0)
    by exact (trimmed_padding "" l0 (String CR "") eq_refl eq_refl).
  apply run_binary_agree; unfold selected;
    rewrite ?A0, ?B0, ?A1, ?B1, ?A2, ?B2, ?T, ?stoi_CR; try reflexivity.
  - rewrite size_append. change (size (String CR "")) with 1. exact Hs.
  - lia.
  - exact Hop.
Qed.

Lemma crlf_line_endings_witness :
  run Reference.library
    (unlines ["divide" ++ String CR ""; "84" ++ String CR ""; "2" ++ String CR ""]) =
  run Reference.library (unlines ["divide"; "84"; "2"]).
Proof.
  apply crlf_line_endings; try reflexivity. discriminate.
Defined.

Lemma stdin_line_0 (l tail : string) :
  no_line_feed l = true -> ends_line tail = true ->
  stdin_line 0 (l ++ tail) = l.
Proof. intros Hl Ht. exact (proj1 (first_line l tail Hl Ht)). Qed.

(** The third line of an input that ends before it is empty. *)
Lemma third_line_missing (l0 l1 : string) :
  no_line_feed l0 = true -> no_line_feed l1 = true ->
  stdin_line 2 l0 = "" /\
  stdin_line 2 (l0 ++ nl) = "" /\
  stdin_line 2 (l0 ++ nl ++ l1) = "" /\
  stdin_line 2 (l0 ++ nl ++ l1 ++ nl) = "".
Proof.
  intros H0 H1. unfold stdin_line. cbn [Nat.iter nat_rect].
  destruct (first_line l0 "" H0 eq_refl) as [_ E0]. rewrite append_empty in E0.
  destruct (first_line l1 "" H1 eq_refl) as [_ E1]. rewrite append_empty in E1.
  destruct (line_then_rest l0 "" H0) as [_ A0].
  destruct (line_then_rest l0 l1 H0) as [_ A1].
  destruct (line_then_rest l0 (l1 ++ nl ++ "") H0) as [_ A2].
  destruct (line_then_rest l1 "" H1) as [_ A3].
  repeat split.
  - now rewrite E0.
  - change (l0 ++ nl) with (l0 ++ nl ++ ""). now rewrite A0.
  - rewrite A1, E1. reflexivity.
  - change (l0 ++ nl ++ l1 ++ nl) with (l0 ++ nl ++ l1 ++ nl ++ "").
    now rewrite A2, A3.
Qed.

(** X14. An input that ends before the third line (the empty input among
    them) is answered with "Error: Invalid input", for every operation but
    "sqrt": a line that is not there is read as the empty string, which
    [std::stoi] rejects. *)
Theorem end_of_input_rejected (lib : float_library) (l0 l1 : string) :
  size l0 < npos ->
  no_line_feed l0 = true -> no_line_feed l1 = true ->
  trimmed l0 <> "sqrt" ->
  run lib l0 = Exited 0 ("Error: Invalid input" ++ nl) /\
  run lib (l0 ++ nl) = Exited 0 ("Error: Invalid input" ++ nl) /\
  run lib (l0 ++ nl ++ l1) = Exited 0 ("Error: Invalid input" ++ nl) /\
  run lib (l0 ++ nl ++ l1 ++ nl) = Exited 0 ("Error: Invalid input" ++ nl).
Proof.
  intros Hs H0 H1 Hop.
  destruct (third_line_missing l0 l1 H0 H1) as (T0 & T1 & T2 & T3).
  assert (L0 : stdin_line 0 l0 = l0).
  { rewrite <- (append_empty l0) at 1. now apply stdin_line_0. }
  assert (L1 : stdin_line 0 (l0 ++ nl) = l0) by now apply stdin_line_0.
  assert (L2 : stdin_line 0 (l0 ++ nl ++ l1) = l0) by now apply stdin_line_0.
  assert (L3 : stdin_line 0 (l0 ++ nl ++ l1 ++ nl) = l0) by now apply stdin_line_0.
  repeat split.
  - rewrite run_binary by (unfold selected; rewrite ?L0; assumption).
    rewrite T0. now destruct (stoi (stdin_line 1 l0)).
  - rewrite run_binary by (unfold selected; rewrite ?L1; assumption).
    rewrite T1. now destruct (stoi (stdin_line 1 (l0 ++ nl))).
  - rewrite run_binary by (unfold selected; rewrite ?L2; assumption).
    rewrite T2. now destruct (stoi (stdin_line 1 (l0 ++ nl ++ l1))).
  - rewrite run_binary by (unfold selected; rewrite ?L3; assumption).
    rewrite T3. now destruct (stoi (stdin_line 1 (l0 ++ nl ++ l1 ++ nl))).
Qed.

Lemma end_of_input_rejected_witness :
  run Reference.library "" = Exited 0 ("Error: Invalid input" ++ nl) /\
  run Reference.library ("" ++ nl) = Exited 0 ("Error: Invalid input" ++ nl) /\
  run Reference.library ("" ++ nl ++ "7") = Exited 0 ("Error: Invalid input" ++ nl) /\
  run Reference.library ("" ++ nl ++ "7" ++ nl) = Exited 0 ("Error: Invalid input" ++ nl).
Proof.
  apply (end_of_input_rejected Reference.library "" "7"); try reflexivity.
  discriminate.
Defined.

(** ** What [std::stoi] reads *)

Lemma skip_space_spaces (ws s : string) :
  all isspace ws = true -> skip_space (ws ++ s) = skip_space s.
Proof.
  induction ws as [|c ws IH]; [reflexivity|]. cbn [all append skip_space].
  intros H. apply andb_true_iff in H. destruct H as [Hc Hws].
  rewrite Hc. exact (IH Hws).
Qed.

Lemma accumulate_stops (junk : string) (acc : Z) :
  starts_with_digit junk = false -> accumulate acc junk = acc.
Proof.
  destruct junk as [|c junk]; [reflexivity|]. cbn [starts_with_digit accumulate].
  now intros ->.
Qed.

Lemma accumulate_digits_then (d : Decimal.uint) (junk : string) :
  forall acc,
  accumulate acc (NilEmpty.string_of_uint d ++ junk) =
  accumulate (uint_value d acc) junk.
Proof.
  induction d; intros acc;
    cbn [NilEmpty.string_of_uint uint_value append accumulate];
    try reflexivity; apply IHd.
Qed.

Lemma strtol_digits_then (d : Decimal.uint) (junk : string) :
  d <> Decimal.Nil -> starts_with_digit junk = false ->
  strtol (NilEmpty.string_of_uint d ++ junk) = Some (Z.of_N (Pos.of_uint d)) /\
  strtol (String "-" (NilEmpty.string_of_uint d) ++ junk) =
  Some (- Z.of_N (Pos.of_uint d)).
Proof.
  intros H Hj. destruct (digits_start d H) as (c & s & E & Hc).
  destruct (isdigit_plain c Hc) as (Hs & Hm & Hp).
  pose proof (accumulate_digits_then d junk 0) as A.
  rewrite uint_value_0, (accumulate_stops junk _ Hj) in A.
  split.
  - unfold strtol. rewrite E in *. cbn [append skip_space]. rewrite Hs, Hm, Hp.
    cbn [starts_with_digit]. rewrite Hc.
    change (String c (s ++ junk)) with (String c s ++ junk). now rewrite A.
  - unfold strtol. rewrite E in *. cbn [append skip_space].
    change (isspace "-") with false.
    cbn [Ascii.eqb Bool.eqb starts_with_digit andb]. rewrite Hc.
    change (String c (s ++ junk)) with (String c s ++ junk). now rewrite A.
Qed.

Lemma strtol_to_chars_then (v : Z) (junk : string) :
  starts_with_digit junk = false -> strtol (to_chars v ++ junk) = Some v.
Proof.
  intros Hj. unfold to_chars. destruct v as [|p|p].
  - exact (proj1 (strtol_digits_then (Decimal.D0 Decimal.Nil) junk
                    ltac:(discriminate) Hj)).
  - cbn [Z.to_int NilZero.string_of_int]. unfold NilZero.string_of_uint.
    pose proof (Unsigned.to_uint_nonnil p) as H.
    destruct (strtol_digits_then _ junk H Hj) as [E _].
    destruct (Pos.to_uint p) eqn:D; [contradiction | ..];
      rewrite <- D in *; rewrite E, Unsigned.of_to; reflexivity.
  - cbn [Z.to_int NilZero.string_of_int]. unfold NilZero.string_of_uint.
    pose proof (Unsigned.to_uint_nonnil p) as H.
    destruct (strtol_digits_then _ junk H Hj) as [_ E].
    destruct (Pos.to_uint p) eqn:D; [contradiction | ..];
      rewrite <- D in *; rewrite E, Unsigned.of_to; reflexivity.
Qed.

Lemma strtol_spaces (ws s : string) :
  all isspace ws = true -> strtol (ws ++ s) = strtol s.
Proof. intros H. unfold strtol. now rewrite skip_space_spaces. Qed.

Lemma skip_space_all (ws : string) : all isspace ws = true -> skip_space ws = "".
Proof.
  intros H. rewrite <- (append_empty ws). now rewrite skip_space_spaces.
Qed.

(** X15. [std::stoi] reads the decimal digits of an integer back as that
    integer, after any white space and before any text that does not start
    with a digit: the value when it is an [int], [std::out_of_range] when it
    is not. A string of white space alone, the empty string among them, is
    an [std::invalid_argument]. *)
Theorem stoi_reads_decimal :
  (forall (v : Z) (ws junk : string),
      all isspace ws = true -> starts_with_digit junk = false ->
      stoi (ws ++ to_chars v ++ junk) =
      if is_int v then inr v else inl out_of_range) /\
  (forall ws : string,
      all isspace ws = true -> stoi ws = inl invalid_argument).
Proof.
  split.
  - intros v ws junk Hws Hj. unfold stoi.
    now rewrite (strtol_spaces ws _ Hws), (strtol_to_chars_then v junk Hj).
  - intros ws Hws. unfold stoi, strtol. now rewrite (skip_space_all ws Hws).
Qed.

Lemma stoi_reads_decimal_witness :
  stoi ("  " ++ to_chars (-2147483648) ++ " apples") = inr (-2147483648) /\
  stoi ("" ++ to_chars 2147483648 ++ "") = inl out_of_range.
Proof.
  split.
  - exact (proj1 stoi_reads_decimal (-2147483648) "  " " apples" eq_refl eq_refl).
  - exact (proj1 stoi_reads_decimal 2147483648 "" "" eq_refl eq_refl).
Defined.

(** ** The square root of an integer *)

Lemma digits2_size (p : positive) : digits2_pos p = Pos.size p.
Proof. induction p as [p IH|p IH|]; cbn [digits2_pos Pos.size]; now rewrite ?IH. Qed.

Lemma digits2_log2 (p : positive) : Zpos (digits2_pos p) = Z.log2 (Zpos p) + 1.
Proof.
  destruct p as [p|p|]; cbn [digits2_pos Z.log2]; rewrite ?digits2_size; lia.
Qed.

Lemma digits2_between (p : positive) (d : Z) :
  0 < d -> 2 ^ (d - 1) <= Zpos p < 2 ^ d -> Zpos (digits2_pos p) = d.
Proof.
  intros Hd H. rewrite digits2_log2.
  rewrite (Z.log2_unique (Zpos p) (d - 1)); [lia | lia |].
  now replace (Z.succ (d - 1)) with d by lia.
Qed.

Lemma iter_xO (p k : positive) : Zpos (Pos.iter xO p k) = Zpos p * 2 ^ Zpos k.
Proof.
  rewrite (Pos.iter_swap_gen _ _ Zpos xO (Z.mul 2)) by reflexivity.
  change (Pos.iter (Z.mul 2) (Zpos p) k) with (Z.shiftl (Zpos p) (Zpos k)).
  apply Z.shiftl_mul_pow2. lia.
Qed.

Lemma loc_of_shr_record_of_loc (m : Z) (l : location) :
  loc_of_shr_record (shr_record_of_loc m l) = l.
Proof. now destruct l as [|[]]. Qed.

Lemma shr_m_of_loc (m : Z) (l : location) : shr_m (shr_record_of_loc m l) = m.
Proof. now destruct l as [|[]]. Qed.

(** A mantissa of 53 bits needs no shift. *)
Lemma shr_fexp_normal (m e : Z) (l : location) :
  2 ^ 52 <= m < 2 ^ 53 -> -1074 <= e ->
  shr_fexp prec emax m e l = (shr_record_of_loc m l, e).
Proof.
  intros Hm He. unfold shr_fexp. destruct m as [|p|p]; try lia.
  cbn [Zdigits2]. rewrite (digits2_between p 53) by (cbn; lia).
  replace (fexp prec emax (53 + e) - e) with 0
    by (unfold fexp, emin, prec, emax; lia).
  reflexivity.
Qed.

Lemma round_nearest_even_cases (m : Z) (l : location) :
  round_nearest_even m l = m \/ round_nearest_even m l = m + 1.
Proof.
  destruct l as [|[]]; cbn [round_nearest_even]; auto.
  destruct (Z.even m); auto.
Qed.

(** The integral part of a rounded mantissa of 53 bits and a negative
    exponent. *)
Lemma truncate_round_normal (m e : Z) (l : location) :
  2 ^ 52 <= m < 2 ^ 53 -> -1074 <= e < 0 ->
  truncate (binary_round_aux prec emax false m e l) =
  Some (round_nearest_even m l / 2 ^ (- e)).
Proof.
  intros Hm He. unfold binary_round_aux.
  rewrite (shr_fexp_normal m e l Hm) by lia.
  rewrite shr_m_of_loc, loc_of_shr_record_of_loc.
  set (m' := round_nearest_even m l).
  assert (Hm' : 2 ^ 52 <= m' <= 2 ^ 53)
    by (destruct (round_nearest_even_cases m l); subst m'; lia).
  destruct (Z.eq_dec m' (2 ^ 53)) as [E|E].
  - rewrite E. unfold shr_fexp. cbn [Zdigits2 digits2_pos Z.pow Z.pow_pos Pos.iter Z.mul Pos.mul Pos.succ].
    replace (fexp prec emax (54 + e) - e) with 1
      by (unfold fexp, emin, prec, emax; lia).
    cbn [shr shr_record_of_loc iter_pos shr_1 shr_m orb].
    replace (e + 1 <=? emax - prec) with true
      by (symmetry; apply Z.leb_le; unfold emax, prec; lia).
    cbn [truncate cond_Zopp]. f_equal.
    rewrite Z.shiftl_div_pow2 by lia.
    replace (- e) with (1 + - (e + 1)) by lia.
    rewrite Z.pow_add_r by lia.
    change (2 ^ 1) with 2.
    rewrite <- Z.div_div by lia. reflexivity.
  - rewrite (shr_fexp_normal m' e loc_Exact) by lia.
    cbn [shr_record_of_loc shr_m].
    destruct m' as [|p|p]; try lia.
    replace (e <=? emax - prec) with true
      by (symmetry; apply Z.leb_le; unfold emax, prec; lia).
    cbn [truncate cond_Zopp]. f_equal. apply Z.shiftl_div_pow2. lia.
Qed.

(** The [double] of a positive integer of [d] bits, [d <= 52]: the integer
    shifted to 53 bits. *)
Lemma double_of_int_positive (n d : Z) :
  0 < d <= 52 -> 2 ^ (d - 1) <= n < 2 ^ d ->
  exists mx, double_of_int n = S754_finite false mx (d - 53) /\
             Zpos mx = n * 2 ^ (53 - d).
Proof.
  intros Hd Hn.
  assert (0 < 2 ^ (d - 1)) by (apply Z.pow_pos_nonneg; lia).
  destruct n as [|p|p]; try lia.
  unfold double_of_int, binary_normalize, binary_round.
  rewrite (digits2_between p d) by lia.
  replace (fexp prec emax (d + 0)) with (d - 53)
    by (unfold fexp, emin, prec, emax; lia).
  unfold shl_align. destruct (d - 53 - 0) as [|k|k] eqn:K; try lia.
  assert (Hk : Zpos k = 53 - d) by lia.
  assert (Hm : Zpos (Pos.iter xO p k) = Zpos p * 2 ^ (53 - d))
    by (rewrite iter_xO; now rewrite Hk).
  assert (Hb : 2 ^ 52 <= Zpos (Pos.iter xO p k) < 2 ^ 53).
  { rewrite Hm.
    assert (E52 : 2 ^ 52 = 2 ^ (d - 1) * 2 ^ (53 - d))
      by (rewrite <- Z.pow_add_r by lia; f_equal; lia).
    assert (E53 : 2 ^ 53 = 2 ^ d * 2 ^ (53 - d))
      by (rewrite <- Z.pow_add_r by lia; f_equal; lia).
    rewrite E52, E53.
    assert (0 < 2 ^ (53 - d)) by (apply Z.pow_pos_nonneg; lia). nia. }
  exists (Pos.iter xO p k). split; [|exact Hm].
  unfold binary_round_aux.
  rewrite (shr_fexp_normal _ _ loc_Exact Hb) by lia.
  cbn [shr_record_of_loc shr_m loc_of_shr_record round_nearest_even].
  rewrite (shr_fexp_normal _ _ loc_Exact Hb) by lia.
  cbn [shr_record_of_loc shr_m].
  replace (d - 53 <=? emax - prec) with true
    by (symmetry; apply Z.leb_le; unfold emax, prec; lia).
  reflexivity.
Qed.

(** The arithmetic of the rounding: the square root of [n * 4 ^ t], rounded
    to nearest, stays below the next integer times [2 ^ t] as long as that
    integer is at most [2 ^ t]. *)
Lemma sqrt_scaled (n T : Z) (l : location) :
  0 < n -> 0 < T -> Z.sqrt n + 1 <= T ->
  let m := n * (T * T) in
  let q := Z.sqrt m in
  let r := m - q * q in
  l = (if r =? 0 then loc_Exact
       else loc_Inexact (if r <=? q then Lt else Gt)) ->
  round_nearest_even q l / T = Z.sqrt n.
Proof.
  intros Hn HT Hk m q r Hl.
  set (k := Z.sqrt n) in *.
  pose proof (Z.sqrt_spec n ltac:(lia)) as Hs. cbv zeta in Hs. fold k in Hs.
  assert (Hk0 : 0 <= k) by apply Z.sqrt_nonneg.
  assert (Hm : 0 <= m) by (subst m; nia).
  pose proof (Z.sqrt_spec m Hm) as Hq. cbv zeta in Hq. fold q in Hq.
  assert (Hq0 : 0 <= q) by apply Z.sqrt_nonneg.
  assert (Hlo : k * T <= q).
  { apply Z.sqrt_le_square; [lia | nia |]. subst m. nia. }
  assert (Hhi : q < (k + 1) * T).
  { apply Z.sqrt_lt_square; [lia | nia |]. subst m. nia. }
  assert (Hround : k * T <= round_nearest_even q l < (k + 1) * T).
  { subst l. destruct (r =? 0); [cbn [round_nearest_even]; lia|].
    destruct (Z.leb_spec r q) as [Hr|Hr]; cbn [round_nearest_even]; [lia|].
    split; [lia|].
    destruct (Z.eq_dec (q + 1) ((k + 1) * T)) as [E|E]; [|lia].
    exfalso. subst r m.
    assert (n + 1 <= (k + 1) * (k + 1)) by lia.
    assert (n * (T * T) + T * T <= (q + 1) * (q + 1)) by (rewrite E; nia).
    assert ((q + 1) * (q + 1) - (q + 1) < n * (T * T)) by nia.
    assert (T * T < q + 1) by lia.
    rewrite E in *. nia. }
  symmetry. apply (Z.div_unique_pos _ T k (round_nearest_even q l - k * T)); lia.
Qed.

(** [std::sqrt] of an integer below [2 ^ 52], truncated, is the integer
    square root. *)
Lemma sqrt_of_integer (n : Z) :
  0 <= n < 2 ^ 52 -> truncate (sqrt (double_of_int n)) = Some (Z.sqrt n).
Proof.
  intros Hn. destruct (Z.eq_dec n 0) as [->|Hn0]; [reflexivity|].
  set (d := Z.log2 n + 1).
  pose proof (Z.log2_spec n ltac:(lia)) as Hlog.
  pose proof (Z.log2_nonneg n) as Hlog0.
  assert (Hd : 0 < d <= 52).
  { split; [subst d; lia|].
    assert (Z.log2 n < 52); [|subst d; lia].
    apply Z.log2_lt_pow2; lia. }
  assert (Hnd : 2 ^ (d - 1) <= n < 2 ^ d).
  { subst d. replace (Z.log2 n + 1 - 1) with (Z.log2 n) by lia.
    now rewrite <- Z.add_1_r in Hlog. }
  clearbody d. clear Hlog Hlog0.
  destruct (double_of_int_positive n d Hd Hnd) as (mx & -> & Hmx).
  remember (53 - (d + 1) / 2) as t eqn:Et.
  assert (Ht : 27 <= t <= 52 /\ 105 - d <= 2 * t <= 106 - d).
  { subst t. pose proof (Z.div_mod (d + 1) 2 ltac:(lia)).
    pose proof (Z.mod_pos_bound (d + 1) 2 ltac:(lia)). lia. }
  destruct Ht as [Ht Ht2].
  set (T := 2 ^ t).
  assert (HT : 0 < T) by (apply Z.pow_pos_nonneg; lia).
  assert (HT26 : 2 ^ 26 <= T) by (apply Z.pow_le_mono_r; lia).
  assert (Hm' : Z.shiftl (Zpos mx) (d - 53 + 2 * t) = n * (T * T)).
  { rewrite Z.shiftl_mul_pow2, Hmx by lia. subst T.
    rewrite <- Z.mul_assoc, <- !Z.pow_add_r by lia. do 2 f_equal. lia. }
  assert (Hlo : 2 ^ 52 * 2 ^ 52 <= n * (T * T)).
  { assert (2 ^ 104 <= 2 ^ (d - 1) * (T * T)).
    { subst T. rewrite <- !Z.pow_add_r by lia. apply Z.pow_le_mono_r; lia. }
    change (2 ^ 52 * 2 ^ 52) with (2 ^ 104). nia. }
  assert (Hhi : n * (T * T) < 2 ^ 53 * 2 ^ 53).
  { assert (2 ^ d * (T * T) <= 2 ^ 106).
    { subst T. rewrite <- !Z.pow_add_r by lia. apply Z.pow_le_mono_r; lia. }
    change (2 ^ 53 * 2 ^ 53) with (2 ^ 106). nia. }
  assert (Hbits : Zpos (digits2_pos mx) = 53).
  { apply digits2_between; [lia|]. rewrite Hmx.
    assert (E52 : 2 ^ (53 - 1) = 2 ^ (d - 1) * 2 ^ (53 - d))
      by (rewrite <- Z.pow_add_r by lia; f_equal; lia).
    assert (E53 : 2 ^ 53 = 2 ^ d * 2 ^ (53 - d))
      by (rewrite <- Z.pow_add_r by lia; f_equal; lia).
    rewrite E52, E53.
    assert (0 < 2 ^ (53 - d)) by (apply Z.pow_pos_nonneg; lia). nia. }
  unfold sqrt, SFsqrt, SFsqrt_core_binary. cbn [Zdigits2]. rewrite Hbits.
  replace (Z.min (fexp prec emax (Z.div2 (53 + (d - 53) + 1))) (Z.div2 (d - 53)))
    with (- t).
  2:{ rewrite !Z.div2_div. replace (53 + (d - 53) + 1) with (d + 1) by lia.
      replace ((d + 1) / 2) with (53 - t) by lia. unfold fexp, emin, prec, emax.
      pose proof (Z.div_mod (d - 53) 2 ltac:(lia)).
      pose proof (Z.mod_pos_bound (d - 53) 2 ltac:(lia)). lia. }
  replace (d - 53 - 2 * - t) with (d - 53 + 2 * t) by lia.
  destruct (d - 53 + 2 * t) as [|s|s] eqn:S; try lia.
  rewrite Hm'.
  pose proof (Z.sqrtrem_spec (n * (T * T)) ltac:(nia)) as Hspec.
  pose proof (Z.sqrtrem_sqrt (n * (T * T))) as Hfst.
  destruct (Z.sqrtrem (n * (T * T))) as [q r]. cbn [fst] in Hfst.
  destruct Hspec as [Hqr Hr].
  assert (Hq : 2 ^ 52 <= q < 2 ^ 53).
  { subst q. split.
    - apply Z.sqrt_le_square; [nia | lia | exact Hlo].
    - apply Z.sqrt_lt_square; [nia | lia | exact Hhi]. }
  rewrite truncate_round_normal by lia.
  replace (- - t) with t by lia. fold T. f_equal.
  assert (Hk : Z.sqrt n + 1 <= T).
  { assert (Z.sqrt n < 2 ^ 26); [|lia].
    apply Z.sqrt_lt_square; [lia | lia |].
    change (2 ^ 26 * 2 ^ 26) with (2 ^ 52). lia. }
  pose proof (sqrt_scaled n T
                (if r =? 0 then loc_Exact
                 else loc_Inexact (if r <=? q then Lt else Gt))
                ltac:(lia) HT Hk) as Hs.
  cbv zeta in Hs. rewrite <- Hfst in Hs.
  replace (n * (T * T) - q * q) with r in Hs by lia.
  exact (Hs eq_refl).
Qed.

Lemma double_of_int_not_negative (n : Z) :
  0 <= n -> double_ltb (double_of_int n) double_zero = false.
Proof.
  intros Hn. destruct n as [|p|p]; [reflexivity | | lia].
  unfold double_of_int, binary_normalize, binary_round.
  destruct (shl_align _ _ _) as [mz ez]. unfold binary_round_aux.
  destruct (shr_fexp _ _ _ _ _) as [mrs' e'].
  destruct (shr_fexp _ _ _ _ _) as [mrs'' e''].
  destruct (shr_m mrs''); [reflexivity | | reflexivity].
  now destruct (e'' <=? emax - prec).
Qed.

(** X16. With "sqrt" selected and the operand read by [std::stod] as a whole
    number [n], [0 <= n < 2 ^ 52], the program prints the integer square
    root of [n]: the rounding of [std::sqrt] never reaches the next whole
    number there. (From [2 ^ 52] on it can: see [sqrt_rounds_up].) *)
Theorem sqrt_of_whole_numbers (lib : float_library) (stdin : string) (n : Z) :
  size (stdin_line 0 stdin) < npos ->
  selected stdin = "sqrt" ->
  lib_stod lib (stdin_line 1 stdin) = inr (double_of_int n) ->
  0 <= n < 2 ^ 52 ->
  run lib stdin = Exited 0 (to_chars (Z.sqrt n) ++ nl) /\
  Z.sqrt n * Z.sqrt n <= n < (Z.sqrt n + 1) * (Z.sqrt n + 1).
Proof.
  intros Hs Hop Hnum Hn. split.
  - rewrite (run_sqrt lib stdin _ Hs Hop Hnum)
      by (apply double_of_int_not_negative; lia).
    unfold int_of_double. rewrite sqrt_of_integer by exact Hn.
    assert (Hi : is_int (Z.sqrt n) = true).
    { pose proof (Z.sqrt_nonneg n).
      assert (Z.sqrt n < 2 ^ 26).
      { apply Z.sqrt_lt_square; [lia | lia |].
        change (2 ^ 26 * 2 ^ 26) with (2 ^ 52). lia. }
      unfold is_int, INT_MIN, INT_MAX. lia. }
    rewrite Hi. now apply outcome_printed.
  - pose proof (Z.sqrt_spec n ltac:(lia)) as H. cbv zeta in H. lia.
Qed.

Lemma sqrt_of_whole_numbers_witness :
  run Reference.library (unlines ["sqrt"; "4503599627370495"]) =
  Exited 0 ("67108863" ++ nl).
Proof.
  exact (proj1 (sqrt_of_whole_numbers Reference.library
                  (unlines ["sqrt"; "4503599627370495"]) 4503599627370495
                  eq_refl eq_refl eq_refl ltac:(lia))).
Defined.

(** The bound of [sqrt_of_whole_numbers] cannot be [2 ^ 53]: the square root
    of [67108865 * 67108865 - 1] rounds to [67108865]. *)
Lemma sqrt_rounds_up :
  truncate (sqrt (double_of_int 4503599761588224)) = Some 67108865 /\
  Z.sqrt 4503599761588224 = 67108864.
Proof. split; reflexivity. Qed.

(** ** Determinism *)

Section SystemFacts.

Import System.

Local Open Scope program_scope.

Lemma stdio_only_bind {A B} (c : program A) (k : A -> program B) :
  stdio_only c -> (forall a, stdio_only (k a)) -> stdio_only (x <- c ;; k x).
Proof.
  intros Hc Hk. induction Hc as [a|x|u|k' _ IH|text k' _ IH]; cbn [bind].
  - apply Hk.
  - constructor.
  - constructor.
  - constructor. exact IH.
  - constructor. exact IH.
Qed.

Lemma stdio_only_try {A} (c h : program A) :
  stdio_only c -> stdio_only h -> stdio_only (try c catch_all h).
Proof.
  intros Hc Hh. induction Hc as [a|x|u|k' _ IH|text k' _ IH]; cbn [try_catch].
  - constructor.
  - exact Hh.
  - constructor.
  - constructor. exact IH.
  - constructor. exact IH.
Qed.

Lemma stdio_only_call {A} (r : exception + A) : stdio_only (call r).
Proof. destruct r; constructor. Qed.

Lemma stdio_only_getline : stdio_only getline.
Proof. constructor. intros l. constructor. Qed.

Lemma stdio_only_put (s : string) : stdio_only (put s).
Proof. constructor. intros x. constructor. Qed.

Lemma stdio_only_message (text : string) : stdio_only (put text ;; endl).
Proof. apply stdio_only_bind; [|intros _]; apply stdio_only_put. Qed.

Lemma stdio_only_print (c : program Z) :
  stdio_only c -> stdio_only (v <- c ;; put_int v ;; endl).
Proof.
  intros H. apply stdio_only_bind; [exact H|]. intros v.
  apply stdio_only_message.
Qed.

Lemma stdio_only_int_result (v : Z) : stdio_only (int_result v).
Proof. unfold int_result. destruct (is_int v); constructor. Qed.

Lemma stdio_only_int_of_double (d : double) : stdio_only (int_of_double d).
Proof.
  unfold int_of_double. destruct (truncate d) as [v|]; [destruct (is_int v)|];
    constructor.
Qed.

Lemma stdio_only_compute (lib : float_library) (operation : string) (a b : Z) :
  stdio_only (compute lib operation a b).
Proof.
  unfold compute.
  destruct (String.eqb operation "add");
    [apply stdio_only_print, stdio_only_int_result|].
  destruct (String.eqb operation "subtract");
    [apply stdio_only_print, stdio_only_int_result|].
  destruct (String.eqb operation "multiply");
    [apply stdio_only_print, stdio_only_int_result|].
  destruct (String.eqb operation "divide").
  { destruct (b =? 0) eqn:Hb; [apply stdio_only_message|].
    apply stdio_only_print. unfold int_div. rewrite Hb.
    apply stdio_only_int_result. }
  destruct (String.eqb operation "power");
    [apply stdio_only_print, stdio_only_int_of_double|].
  destruct (String.eqb operation "modulo"); [|apply stdio_only_message].
  apply stdio_only_print. unfold int_rem.
  destruct (b =? 0); [constructor|].
  destruct (is_int (Z.quot a b)); constructor.
Qed.

Lemma stdio_only_sqrt_branch (lib : float_library) : stdio_only (sqrt_branch lib).
Proof.
  unfold sqrt_branch. apply stdio_only_bind; [apply stdio_only_getline|].
  intros numStr. apply stdio_only_bind; [|intros _; constructor].
  apply stdio_only_try; [|apply stdio_only_message].
  apply stdio_only_bind; [apply stdio_only_call|]. intros num.
  destruct (double_ltb num double_zero); [apply stdio_only_message|].
  apply stdio_only_print, stdio_only_int_of_double.
Qed.

Lemma stdio_only_binary_branch (lib : float_library) (operation : string) :
  stdio_only (binary_branch lib operation).
Proof.
  unfold binary_branch. apply stdio_only_bind; [apply stdio_only_getline|].
  intros input1. apply stdio_only_bind; [apply stdio_only_getline|].
  intros input2. apply stdio_only_bind.
  - apply stdio_only_try.
    + apply stdio_only_bind; [apply stdio_only_call|]. intros a.
      apply stdio_only_bind; [apply stdio_only_call|]. intros b. constructor.
    + apply stdio_only_bind; [apply stdio_only_put|]. intros _.
      apply stdio_only_bind; [apply stdio_only_put|]. intros _. constructor.
  - intros [status|[a b]]; [constructor|].
    apply stdio_only_bind; [apply stdio_only_compute|]. intros _. constructor.
Qed.

(** [main] asks for lines of standard input and writes to standard output;
    it makes no other request. *)
Lemma stdio_only_main (lib : float_library) : stdio_only (main lib).
Proof.
  unfold main. apply stdio_only_bind; [apply stdio_only_getline|].
  intros operation. apply stdio_only_bind.
  - unfold normalize.
    apply stdio_only_bind; [apply stdio_only_call | intros op; apply stdio_only_call].
  - intros op. destruct (String.eqb op "sqrt");
      [apply stdio_only_sqrt_branch | apply stdio_only_binary_branch].
Qed.

(** A program that makes no other request ends alike in two environments
    whose processes are alike, and leaves the files as they are. *)
Lemma exec_stdio_only {A} (c : program A) :
  stdio_only c ->
  forall (e1 e2 : environment) (s1 s2 : state),
  st_process s1 = st_process s2 ->
  fst (exec e1 c s1) = fst (exec e2 c s2) /\
  st_process (snd (exec e1 c s1)) = st_process (snd (exec e2 c s2)) /\
  st_files (snd (exec e1 c s1)) = st_files s1.
Proof.
  intros Hc. induction Hc as [a|x|u|k _ IH|text k _ IH]; intros e1 e2 s1 s2 Hs;
    cbn [exec answer fst snd].
  - now repeat split.
  - now repeat split.
  - now repeat split.
  - rewrite Hs.
    destruct (IH (next_line (st_process s2)) e1 e2
                (mkState (after_line (st_process s2)) (st_files s1))
                (mkState (after_line (st_process s2)) (st_files s2)) eq_refl)
      as (H1 & H2 & H3).
    now repeat split.
  - rewrite Hs.
    destruct (IH tt e1 e2
                (mkState (mkProcess (cin (st_process s2)) (cin_good (st_process s2))
                            (cout (st_process s2) ++ text)) (st_files s1))
                (mkState (mkProcess (cin (st_process s2)) (cin_good (st_process s2))
                            (cout (st_process s2) ++ text)) (st_files s2)) eq_refl)
      as (H1 & H2 & H3).
    now repeat split.
Qed.

Lemma exec_bind {A B} (e : environment) (c : program A) (k : A -> program B) :
  forall s,
  exec e (x <- c ;; k x) s =
  match exec e c s with
  | (Normal a, s') => exec e (k a) s'
  | (Throw x, s') => (Throw x, s')
  | (Undefined u, s') => (Undefined u, s')
  end.
Proof.
  induction c as [a|x|u|X r k' IH]; intros s; cbn [bind exec]; try reflexivity.
  destruct (answer e r s) as [x s']. apply IH.
Qed.

Lemma exec_try {A} (e : environment) (c h : program A) :
  forall s,
  exec e (try c catch_all h) s =
  match exec e c s with
  | (Throw _, s') => exec e h s'
  | r => r
  end.
Proof.
  induction c as [a|x|u|X r k' IH]; intros s; cbn [try_catch exec]; try reflexivity.
  destruct (answer e r s) as [x s']. apply IH.
Qed.

End SystemFacts.


(** *** The two embeddings of [main] agree *)

Lemma refines_bind {A B} (c : System.program A) (m : M A)
    (k : A -> System.program B) (k' : A -> M B) :
  refines c m -> (forall a, refines (k a) (k' a)) ->
  refines (System.bind c k) (bind m k').
Proof.
  intros Hc Hk e s. rewrite exec_bind, (Hc e s). unfold bind.
  destruct (m (System.st_process s)) as [[a|x|u] p]; cbn [fst snd]; try reflexivity.
  exact (Hk a e (System.mkState p (System.st_files s))).
Qed.

Lemma refines_try {A} (c h : System.program A) (m n : M A) :
  refines c m -> refines h n ->
  refines (System.try_catch c h) (try_catch m n).
Proof.
  intros Hc Hh e s. rewrite exec_try, (Hc e s). unfold try_catch.
  destruct (m (System.st_process s)) as [[a|x|u] p]; cbn [fst snd]; try reflexivity.
  exact (Hh e (System.mkState p (System.st_files s))).
Qed.

Lemma refines_ret {A} (a : A) : refines (System.Return a) (ret a).
Proof. intros e [p f]. reflexivity. Qed.

Lemma refines_leave {A} (u : undefined) :
  refines (@System.Leave A u) (undefined_behaviour u).
Proof. intros e [p f]. reflexivity. Qed.

Lemma refines_call {A} (r : exception + A) : refines (System.call r) (call r).
Proof. intros e [p f]. now destruct r. Qed.

Lemma refines_getline : refines System.getline getline.
Proof.
  intros e [p f]. cbn [System.getline System.exec System.answer System.st_process
                         System.st_files].
  now rewrite getline_next.
Qed.

Lemma refines_put (text : string) : refines (System.put text) (put text).
Proof. intros e [p f]. reflexivity. Qed.

Lemma refines_message (text : string) :
  refines (System.bind (System.put text) (fun _ => System.endl))
          (put text ;; endl).
Proof. apply refines_bind; [|intros _]; apply refines_put. Qed.

Lemma refines_print (c : System.program Z) (m : M Z) :
  refines c m ->
  refines (System.bind c (fun v => System.bind (System.put_int v) (fun _ => System.endl)))
          (v <- m ;; put_int v ;; endl).
Proof.
  intros H. apply refines_bind; [exact H|]. intros v. apply refines_message.
Qed.

Lemma refines_int_result (v : Z) : refines (System.int_result v) (int_result v).
Proof.
  unfold System.int_result, int_result.
  destruct (is_int v); [apply refines_ret | apply refines_leave].
Qed.

Lemma refines_int_of_double (d : double) :
  refines (System.int_of_double d) (int_of_double d).
Proof.
  unfold System.int_of_double, int_of_double.
  destruct (truncate d) as [v|]; [destruct (is_int v)|];
    [apply refines_ret | apply refines_leave | apply refines_leave].
Qed.

Lemma refines_compute (lib : float_library) (operation : string) (a b : Z) :
  refines (System.compute lib operation a b) (compute lib operation a b).
Proof.
  unfold System.compute, compute.
  destruct (String.eqb operation "add");
    [apply refines_print, refines_int_result|].
  destruct (String.eqb operation "subtract");
    [apply refines_print, refines_int_result|].
  destruct (String.eqb operation "multiply");
    [apply refines_print, refines_int_result|].
  destruct (String.eqb operation "divide").
  { destruct (b =? 0) eqn:Hb; [apply refines_message|].
    apply refines_print. unfold System.int_div, int_div. rewrite Hb.
    apply refines_int_result. }
  destruct (String.eqb operation "power");
    [apply refines_print, refines_int_of_double|].
  destruct (String.eqb operation "modulo"); [|apply refines_message].
  apply refines_print. unfold System.int_rem, int_rem.
  destruct (b =? 0); [apply refines_leave|].
  destruct (is_int (Z.quot a b)); [apply refines_ret | apply refines_leave].
Qed.

Lemma refines_main (lib : float_library) : refines (System.main lib) (main lib).
Proof.
  unfold System.main, main. apply refines_bind; [apply refines_getline|].
  intros operation. apply refines_bind.
  { unfold System.normalize, normalize.
    apply refines_bind; [apply refines_call | intros op; apply refines_call]. }
  intros op. destruct (String.eqb op "sqrt").
  - unfold System.sqrt_branch, sqrt_branch.
    apply refines_bind; [apply refines_getline|]. intros numStr.
    apply refines_bind; [|intros _; apply refines_ret].
    apply refines_try; [|apply refines_message].
    apply refines_bind; [apply refines_call|]. intros num.
    destruct (double_ltb num double_zero); [apply refines_message|].
    apply refines_print, refines_int_of_double.
  - unfold System.binary_branch, binary_branch.
    apply refines_bind; [apply refines_getline|]. intros input1.
    apply refines_bind; [apply refines_getline|]. intros input2.
    apply refines_bind.
    + apply refines_try.
      * apply refines_bind; [apply refines_call|]. intros a.
        apply refines_bind; [apply refines_call|]. intros b. apply refines_ret.
      * apply refines_bind; [apply refines_put|]. intros _.
        apply refines_bind; [apply refines_put|]. intros _. apply refines_ret.
    + intros [status|[a b]]; [apply refines_ret|].
      apply refines_bind; [apply refines_compute|]. intros _. apply refines_ret.
Qed.

(** The run of the other statements is the run in any environment that
    hands over the same standard input. *)
Lemma launch_run (lib : float_library) (e : System.environment) :
  launch lib e = run lib (System.env_stdin e).
Proof.
  unfold launch. rewrite (refines_main lib e (System.boot e)).
  unfold run, System.boot, start. cbn [System.st_process fst snd].
  now destruct (main lib (mkProcess (System.env_stdin e) true "")).
Qed.

(** The time of day is observable in the model: the program that prints it
    is not determined by its standard input. *)
Lemma clock_reader_differs :
  exists e1 e2 : System.environment,
    System.env_stdin e1 = System.env_stdin e2 /\
    cout (System.st_process (snd (System.exec e1 System.clock_reader (System.boot e1)))) <>
    cout (System.st_process (snd (System.exec e2 System.clock_reader (System.boot e2)))).
Proof.
  exists (System.Build_environment "" [] [] 1 []),
         (System.Build_environment "" [] [] 2 []).
  split; [reflexivity | discriminate].
Qed.

(** C7. Two runs whose standard inputs hold the same text end alike,
    whatever else differs between the two environments (the command line,
    the environment variables, the time of day, the files): the same standard
    output and the same exit status (and a run that leaves defined behaviour
    does so in the other environment too, at the same expression); and a run
    leaves the files as it found them. [main] is followed request by
    request: the statement fails for a program that asks for anything else
    (see [clock_reader_differs]). *)
Theorem runs_determined_by_stdin (lib : float_library) (e1 e2 : System.environment) :
  System.env_stdin e1 = System.env_stdin e2 ->
  launch lib e1 = launch lib e2 /\
  stdout_of (launch lib e1) = stdout_of (launch lib e2) /\
  exit_status (launch lib e1) = exit_status (launch lib e2) /\
  files_after lib e1 = System.env_files e1 /\
  files_after lib e2 = System.env_files e2.
Proof.
  intros H.
  assert (Hboot : System.st_process (System.boot e1) = System.st_process (System.boot e2))
    by (unfold System.boot; cbn [System.st_process]; now rewrite H).
  destruct (exec_stdio_only (System.main lib) (stdio_only_main lib) e1 e2
              (System.boot e1) (System.boot e2) Hboot) as (H1 & H2 & H3).
  destruct (exec_stdio_only (System.main lib) (stdio_only_main lib) e2 e1
              (System.boot e2) (System.boot e1) (eq_sym Hboot)) as (_ & _ & H4).
  assert (E : launch lib e1 = launch lib e2).
  { unfold launch.
    destruct (System.exec e1 (System.main lib) (System.boot e1)) as [r1 s1].
    destruct (System.exec e2 (System.main lib) (System.boot e2)) as [r2 s2].
    cbn [fst snd] in H1, H2. now rewrite H1, H2. }
  split; [exact E|]. rewrite E. repeat split; assumption.
Qed.

Lemma runs_determined_by_stdin_witness :
  let e1 := {| System.env_stdin := unlines ["multiply"; "6"; "7"];
               System.env_argv := ["./calculator"];
               System.env_environ := [("LANG", "C")];
               System.env_clock := 0;
               System.env_files := [] |} in
  let e2 := {| System.env_stdin := unlines ["multiply"; "6"; "7"];
               System.env_argv := ["/app/a.out"; "--verbose"];
               System.env_environ := [("LANG", "pt_BR.UTF-8"); ("HOME", "/root")];
               System.env_clock := 1767225600;
               System.env_files := [("/app/state", "41")] |} in
  launch Reference.library e1 = Exited 0 ("42" ++ nl) /\
  launch Reference.library e2 = Exited 0 ("42" ++ nl) /\
  files_after Reference.library e2 = [("/app/state", "41")].
Proof.
  cbv zeta.
  match goal with
  | |- launch ?l ?e1 = _ /\ launch ?l ?e2 = _ /\ _ =>
      destruct (runs_determined_by_stdin l e1 e2 eq_refl) as (H & _ & _ & _ & F);
      rewrite <- H; split; [reflexivity | split; [reflexivity | exact F]]
  end.
Defined.

(** * The image definition: proofs *)

(** ** What the build leaves *)

Section ImageFacts.

Import Image.

Variable base : image.
Variable tool : list string -> filesystem -> option filesystem.

Lemma steps_cons (i : instruction) (instrs : list instruction) (img img'' : image) :
  steps base tool (i :: instrs) img = Some img'' ->
  exists img', step base tool i img = Some img' /\
               steps base tool instrs img' = Some img''.
Proof.
  cbn [steps]. destruct (step base tool i img) as [img'|]; [|discriminate].
  intros H. now exists img'.
Qed.

Lemma step_RUN (commands : list (list string)) (img img' : image) :
  step base tool (RUN commands) img = Some img' ->
  exec_all tool commands (files img) = Some (files img') /\
  user img' = user img /\ workdir img' = workdir img /\
  volumes img' = volumes img /\ cmd img' = cmd img.
Proof.
  cbn [step]. destruct (String.eqb (user img) "root"); [|discriminate].
  destruct (exec_all tool commands (files img)) as [fs|]; [|discriminate].
  intros H. injection H as <-. repeat split.
Qed.

Lemma remove_trees_absent (dirs : list string) (fs : filesystem) (dir p : string) :
  In dir dirs -> under dir p = true -> fold_right remove_tree fs dirs p = None.
Proof.
  induction dirs as [|d dirs IH]; intros Hin Hu; [contradiction|].
  cbn [fold_right]. unfold remove_tree at 1.
  destruct (under d p) eqn:E; [reflexivity|].
  destruct Hin as [-> | Hin]; [congruence | now apply IH].
Qed.

Lemma remove_file_keeps (path : string) (fs fs' : filesystem) (p : string) :
  remove_file path fs = Some fs' -> fs p = None -> fs' p = None.
Proof.
  unfold remove_file. destruct (fs path) as [n|].
  - destruct (node_kind n); [discriminate|].
    intros H Hp. injection H as <-. now destruct (String.eqb path p).
  - intros H. now injection H as <-.
Qed.

Lemma remove_file_absent (path : string) (fs fs' : filesystem) :
  remove_file path fs = Some fs' -> fs' path = None.
Proof.
  unfold remove_file. destruct (fs path) as [n|] eqn:E.
  - destruct (node_kind n); [discriminate|].
    intros H. injection H as <-. now rewrite String.eqb_refl.
  - intros H. now injection H as <-.
Qed.

Lemma remove_files_keeps (paths : list string) :
  forall (fs fs' : filesystem) (p : string),
  remove_files paths fs = Some fs' -> fs p = None -> fs' p = None.
Proof.
  induction paths as [|path paths IH]; intros fs fs' p; cbn [remove_files].
  - intros H. now injection H as <-.
  - destruct (remove_file path fs) as [fs1|] eqn:E; [|discriminate].
    intros H Hp. apply (IH fs1 fs' p H). exact (remove_file_keeps _ _ _ _ E Hp).
Qed.

Lemma remove_files_absent (paths : list string) :
  forall (fs fs' : filesystem) (p : string),
  In p paths -> remove_files paths fs = Some fs' -> fs' p = None.
Proof.
  induction paths as [|path paths IH]; intros fs fs' p Hin; [contradiction|].
  cbn [remove_files].
  destruct (remove_file path fs) as [fs1|] eqn:E; [|discriminate].
  intros H. destruct Hin as [-> | Hin].
  - apply (remove_files_keeps paths fs1 fs' p H).
    exact (remove_file_absent _ _ _ E).
  - exact (IH fs1 fs' p Hin H).
Qed.

Lemma step_WORKDIR (path : string) (img img' : image) :
  step base tool (WORKDIR path) img = Some img' ->
  (forall p, p <> path -> files img' p = files img p) /\
  (exists n, files img' path = Some n /\ node_kind n = Directory) /\
  workdir img' = path /\ user img' = user img /\
  volumes img' = volumes img /\ cmd img' = cmd img.
Proof.
  cbn [step]. destruct (files img path) as [n|] eqn:E.
  - destruct (node_kind n) eqn:K; [|discriminate].
    intros H. injection H as <-. cbn. repeat split. now exists n.
  - intros H. injection H as <-. cbn. repeat split.
    + intros p Hp. destruct (String.eqb_spec path p); [congruence | reflexivity].
    + rewrite String.eqb_refl. now eexists.
Qed.

Lemma chown_spec (spec path : string) (fs fs' : filesystem) :
  chown spec path fs = Some fs' ->
  (forall p, p <> path -> fs' p = fs p) /\
  exists n, fs path = Some n /\
            fs' path = Some (mkInode (node_kind n) (fst (owner_group spec))
                                     (snd (owner_group spec)) (node_mode n)).
Proof.
  unfold chown. destruct (fs path) as [n|] eqn:E; [|discriminate].
  destruct (owner_group spec) as [o g]. intros H. injection H as <-. split.
  - intros p Hp. destruct (String.eqb_spec path p); [congruence | reflexivity].
  - exists n. now rewrite String.eqb_refl.
Qed.

End ImageFacts.

Section ImageHardening.

Import Image.

Lemma package_manager_not_app (dir p : string) :
  In dir package_manager -> under dir p = true -> p <> "/app".
Proof.
  intros Hin Hu ->. unfold package_manager in Hin. cbn [In] in Hin.
  repeat (destruct Hin as [<- | Hin]; [discriminate Hu|]). exact Hin.
Qed.

Lemma network_tools_not_app (p : string) : In p network_tools -> p <> "/app".
Proof.
  intros Hin ->. unfold network_tools in Hin. cbn [In] in Hin.
  repeat (destruct Hin as [Hin | Hin]; [discriminate Hin|]). exact Hin.
Qed.

(** C8, as the image definition has it by design. Whatever the base image
    holds and whatever the installed tools do, in the image a successful
    build leaves: no path of the package manager exists, nor anything below
    one; the command is [g++ --version] and runs as [sandbox]; and [/app] is
    the one volume the definition adds, the working directory, and a
    directory owned by [sandbox:sandbox]. *)
Theorem image_hardening (base : image)
    (tool : list string -> filesystem -> option filesystem) (img : image) :
  build base tool Dockerfile_cpp = Some img ->
  (forall dir p, In dir package_manager -> under dir p = true ->
                 files img p = None) /\
  (user img = "sandbox" /\ cmd img = ["g++"; "--version"]) /\
  (volumes img = (volumes base ++ ["/app"])%list /\ workdir img = "/app" /\
   exists n, files img "/app" = Some n /\ node_kind n = Directory /\
             node_owner n = "sandbox" /\ node_group n = "sandbox").
Proof.
  unfold build, Dockerfile_cpp. intros H.
  apply steps_cons in H. destruct H as [i0 [H0 H]].
  cbn [step] in H0. injection H0 as <-.
  apply steps_cons in H. destruct H as [i1 [H1 H]]. apply step_RUN in H1.
  apply steps_cons in H. destruct H as [i2 [H2 H]]. apply step_RUN in H2.
  apply steps_cons in H. destruct H as [i3 [H3 H]]. apply step_RUN in H3.
  apply steps_cons in H. destruct H as [i4 [H4 H]]. apply step_RUN in H4.
  apply steps_cons in H. destruct H as [i5 [H5 H]]. apply step_WORKDIR in H5.
  apply steps_cons in H. destruct H as [i6 [H6 H]]. apply step_RUN in H6.
  apply steps_cons in H. destruct H as [i7 [H7 H]].
  cbn [step] in H7. injection H7 as <-.
  apply steps_cons in H. destruct H as [i8 [H8 H]].
  cbn [step] in H8. injection H8 as <-.
  apply steps_cons in H. destruct H as [i9 [H9 H]].
  cbn [step] in H9. injection H9 as <-.
  cbn [steps] in H. injection H as <-. cbn [files user workdir volumes cmd].
  destruct H1 as (E1 & U1 & W1 & V1 & C1).
  destruct H2 as (E2 & U2 & W2 & V2 & C2).
  destruct H3 as (E3 & U3 & W3 & V3 & C3).
  destruct H4 as (E4 & U4 & W4 & V4 & C4).
  destruct H5 as (F5 & (n5 & N5 & K5) & W5 & U5 & V5 & C5).
  destruct H6 as (E6 & U6 & W6 & V6 & C6).
  cbn [exec_all exec String.eqb Ascii.eqb Bool.eqb] in E3, E4, E6.
  injection E3 as E3.
  destruct (remove_files _ (files i3)) as [fs4|] eqn:R4; [|discriminate E4].
  injection E4 as E4.
  destruct (chown _ _ (files i5)) as [fs6|] eqn:R6; [|discriminate E6].
  injection E6 as E6.
  apply chown_spec in R6. destruct R6 as (F6 & n6 & N6 & M6).
  subst fs4 fs6. split; [|split; [|split; [|split]]].
  - intros dir p Hin Hu.
    pose proof (package_manager_not_app dir p Hin Hu) as Hp.
    rewrite (F6 p Hp), (F5 p Hp).
    apply (remove_files_keeps _ _ _ p R4).
    rewrite <- E3. exact (remove_trees_absent package_manager _ dir p Hin Hu).
  - split; reflexivity.
  - now rewrite V6, V5, V4, V3, V2, V1.
  - now rewrite W6.
  - rewrite N5 in N6. injection N6 as <-.
    eexists. split; [exact M6|]. cbn. now rewrite K5.
Qed.

Lemma image_hardening_witness :
  exists img, build alpine idle Dockerfile_cpp = Some img /\
              files img "/sbin/apk" = None /\
              files img "/etc/apk/repositories" = None /\
              user img = "sandbox" /\
              volumes img = ["/app"].
Proof.
  destruct (build alpine idle Dockerfile_cpp) as [img|] eqn:E;
    [|vm_compute in E; discriminate E].
  exists img. split; [reflexivity|].
  destruct (image_hardening alpine idle img E) as (Hpm & [Hu _] & [Hv _]).
  repeat split.
  - apply (Hpm "/sbin/apk"); [now left | reflexivity].
  - apply (Hpm "/etc/apk"); [right; now left | reflexivity].
  - exact Hu.
  - exact Hv.
Defined.

(** Counterexample to C8 as it is worded, in its second and in its fourth
    rule, on a base that holds what Alpine holds. The definition removes
    the links [/usr/bin/wget] and [/usr/bin/nc] and leaves BusyBox, so that
    [busybox wget] and [busybox nc] still run in the image; and nothing in
    the definition takes write access away outside [/app], so that
    [sandbox] may write to the world-writable [/tmp]. *)
Lemma network_applets_and_tmp_stay :
  ~ (forall (base : image)
            (tool : list string -> filesystem -> option filesystem)
            (img : image),
        build base tool Dockerfile_cpp = Some img ->
        forall name, In name ["wget"; "curl"; "nc"] ->
                     runnable (files img) name = false) /\
  ~ (forall (base : image)
            (tool : list string -> filesystem -> option filesystem)
            (img : image),
        build base tool Dockerfile_cpp = Some img ->
        forall path, sandbox_may_write img path = true ->
                     under "/app" path = true).
Proof.
  destruct (build alpine idle Dockerfile_cpp) as [img|] eqn:E;
    [|vm_compute in E; discriminate E].
  split; intros H.
  - specialize (H alpine idle img E "wget" (or_introl eq_refl)).
    vm_compute in E. injection E as <-. discriminate H.
  - specialize (H alpine idle img E "/tmp").
    vm_compute in E. injection E as <-.
    discriminate H. reflexivity.
Qed.

End ImageHardening.

(** ** The two parts of the build *)

Section ImageMore.

Import Image.

Variable base : image.
Variable tool : list string -> filesystem -> option filesystem.

Lemma steps_app (l1 l2 : list instruction) (img : image) :
  steps base tool (l1 ++ l2)%list img =
  match steps base tool l1 img with
  | Some mid => steps base tool l2 mid
  | None => None
  end.
Proof.
  revert img. induction l1 as [|i l1 IH]; intros img; [reflexivity|].
  cbn [steps app]. destruct (step base tool i img); [apply IH | reflexivity].
Qed.

Lemma build_split :
  build base tool Dockerfile_cpp =
  match steps base tool installing base with
  | Some mid => steps base tool hardening mid
  | None => None
  end.
Proof. unfold build. exact (steps_app installing hardening base). Qed.

Lemma installing_as_root (mid : image) :
  steps base tool installing base = Some mid -> user mid = "root".
Proof.
  unfold installing. cbn [firstn Dockerfile_cpp]. intros H.
  apply steps_cons in H. destruct H as [i0 [H0 H]].
  cbn [step] in H0. injection H0 as <-.
  apply steps_cons in H. destruct H as [i1 [H1 H]].
  apply steps_cons in H. destruct H as [i2 [H2 H]].
  cbn [steps] in H. injection H as <-.
  assert (E : user i1 = "root").
  { cbn [step] in H2. destruct (String.eqb_spec (user i1) "root") as [E|E];
      [exact E | discriminate H2]. }
  apply step_RUN in H2. destruct H2 as (_ & U2 & _). now rewrite U2.
Qed.

Lemma remove_trees_untouched (dirs : list string) (fs : filesystem) (p : string) :
  existsb (fun dir => under dir p) dirs = false ->
  fold_right remove_tree fs dirs p = fs p.
Proof.
  induction dirs as [|d dirs IH]; [reflexivity|]. cbn [existsb fold_right].
  intros H. apply orb_false_iff in H. destruct H as [Hd Hds].
  unfold remove_tree at 1. rewrite Hd. exact (IH Hds).
Qed.

Lemma remove_file_untouched (path : string) (fs fs' : filesystem) (p : string) :
  remove_file path fs = Some fs' -> String.eqb p path = false -> fs' p = fs p.
Proof.
  unfold remove_file. destruct (fs path) as [n|].
  - destruct (node_kind n); [discriminate|].
    intros H Hp. injection H as <-. rewrite String.eqb_sym in Hp. now rewrite Hp.
  - intros H _. now injection H as <-.
Qed.

Lemma remove_files_untouched (paths : list string) :
  forall (fs fs' : filesystem) (p : string),
  remove_files paths fs = Some fs' ->
  existsb (String.eqb p) paths = false -> fs' p = fs p.
Proof.
  induction paths as [|path paths IH]; intros fs fs' p; cbn [remove_files existsb].
  - intros H _. now injection H as <-.
  - destruct (remove_file path fs) as [fs1|] eqn:E; [|discriminate].
    intros H Hp. apply orb_false_iff in Hp. destruct Hp as [Hp Hps].
    rewrite (IH fs1 fs' p H Hps). exact (remove_file_untouched _ _ _ _ E Hp).
Qed.

(** [rm -f] fails on a directory and on nothing else. *)
Lemma remove_files_succeeds (paths : list string) :
  forall fs : filesystem,
  (exists fs', remove_files paths fs = Some fs') <->
  existsb (is_directory fs) paths = false.
Proof.
  induction paths as [|path paths IH]; intros fs; cbn [remove_files existsb].
  - split; [reflexivity | now exists fs].
  - rewrite orb_false_iff. unfold remove_file, is_directory at 1.
    destruct (fs path) as [n|] eqn:E.
    + destruct (node_kind n) eqn:K.
      * split; [intros [fs' H]; discriminate H | intros [H _]; discriminate H].
      * rewrite IH. split.
        -- intros H. split; [reflexivity|]. rewrite <- H.
           clear IH H. induction paths as [|q paths IHp]; [reflexivity|].
           cbn [existsb]. rewrite IHp. f_equal. unfold is_directory.
           destruct (String.eqb_spec path q) as [<-|]; [now rewrite E, K | reflexivity].
        -- intros [_ H]. rewrite <- H.
           clear IH H. induction paths as [|q paths IHp]; [reflexivity|].
           cbn [existsb]. rewrite IHp. f_equal. unfold is_directory.
           destruct (String.eqb_spec path q) as [<-|]; [now rewrite E, K | reflexivity].
    + rewrite IH. tauto.
Qed.


Lemma existsb_ext_in (f g : string -> bool) (l : list string) :
  (forall p, In p l -> f p = g p) -> existsb f l = existsb g l.
Proof.
  induction l as [|q l IH]; [reflexivity|]. intros H. cbn [existsb].
  rewrite (H q (or_introl eq_refl)), IH; [reflexivity|].
  intros p Hp. apply H. now right.
Qed.

(** What the hardening instructions make of an image whose user is root. *)
Lemma hardening_steps (mid : image) :
  user mid = "root" ->
  steps base tool hardening mid =
  match remove_files network_tools
          (fold_right remove_tree (files mid) package_manager) with
  | None => None
  | Some fs =>
      match fs "/app" with
      | Some n =>
          match node_kind n with
          | Directory =>
              Some (mkImage
                      (fun p => if String.eqb "/app" p
                                then Some (mkInode Directory "sandbox" "sandbox" (node_mode n))
                                else fs p)
                      "sandbox" "/app" (volumes mid ++ ["/app"])%list ["g++"; "--version"])
          | Regular => None
          end
      | None =>
          Some (mkImage
                  (fun p => if String.eqb "/app" p
                            then Some (mkInode Directory "sandbox" "sandbox" 493)
                            else if String.eqb "/app" p
                                 then Some (mkInode Directory "root" "root" 493)
                                 else fs p)
                  "sandbox" "/app" (volumes mid ++ ["/app"])%list ["g++"; "--version"])
      end
  end.
Proof.
  intros Hroot. unfold hardening. cbn [skipn Dockerfile_cpp steps].
  cbn [step files user workdir volumes cmd]. rewrite Hroot.
  cbn [String.eqb Ascii.eqb Bool.eqb exec_all exec files user workdir volumes cmd].
  change (remove_files ["/usr/bin/wget"; "/usr/bin/curl"; "/usr/bin/nc"])
    with (remove_files network_tools).
  change ["/sbin/apk"; "/etc/apk"; "/lib/apk"; "/usr/share/apk"]
    with package_manager.
  destruct (remove_files network_tools _) as [fs|]; [|reflexivity].
  cbn [files user workdir volumes cmd].
  destruct (fs "/app") as [n|] eqn:E.
  - destruct (node_kind n) eqn:K; [|reflexivity].
    cbn [files user workdir volumes cmd String.eqb Ascii.eqb Bool.eqb].
    unfold chown. rewrite E. cbn [owner_group Ascii.eqb Bool.eqb].
    cbn [steps step files user workdir volumes cmd]. now rewrite K.
  - cbn [files user workdir volumes cmd String.eqb Ascii.eqb Bool.eqb].
    unfold chown. cbn [String.eqb Ascii.eqb Bool.eqb owner_group]. 
    cbn [steps step files user workdir volumes cmd node_kind node_mode]. reflexivity.
Qed.

Lemma network_tools_kept (fs : filesystem) (p : string) :
  In p network_tools -> fold_right remove_tree fs package_manager p = fs p.
Proof.
  intros Hin. apply remove_trees_untouched. unfold network_tools in Hin.
  cbn [In] in Hin.
  repeat (destruct Hin as [<- | Hin]; [reflexivity|]). contradiction.
Qed.

(** X17. The build fails in its hardening part in two cases only: one of
    [/usr/bin/wget], [/usr/bin/curl], [/usr/bin/nc] is a directory ([rm -f]
    refuses it), or [/app] exists and is no directory ([WORKDIR] refuses
    it). Otherwise, once the installing instructions have succeeded, the
    build succeeds. *)
Theorem hardening_fails_only (mid : image) :
  steps base tool installing base = Some mid ->
  (exists img, build base tool Dockerfile_cpp = Some img) <->
  existsb (is_directory (files mid)) network_tools = false /\
  is_regular (files mid) "/app" = false.
Proof.
  intros Hmid. rewrite build_split, Hmid.
  rewrite (hardening_steps mid (installing_as_root mid Hmid)).
  pose proof (remove_files_succeeds network_tools
                (fold_right remove_tree (files mid) package_manager)) as S.
  rewrite (existsb_ext_in
             (is_directory (fold_right remove_tree (files mid) package_manager))
             (is_directory (files mid))) in S
    by (intros p Hp; unfold is_directory; now rewrite network_tools_kept).
  destruct (remove_files network_tools _) as [fs|] eqn:R.
  - assert (A : fs "/app" = files mid "/app").
    { rewrite (remove_files_untouched _ _ _ "/app" R eq_refl).
      now apply remove_trees_untouched. }
    assert (D : existsb (is_directory (files mid)) network_tools = false)
      by (apply S; now exists fs).
    unfold is_regular. rewrite <- A.
    destruct (fs "/app") as [n|].
    + destruct (node_kind n).
      * split; [now split | intros _; eexists; reflexivity].
      * split; [intros [img H]; discriminate H | intros [_ H]; discriminate H].
    + split; [now split | intros _; eexists; reflexivity].
  - split; [intros [img H]; discriminate H|].
    intros [D _]. apply S in D. destruct D as [fs' D]. discriminate D.
Qed.


Lemma some_eq (A : Type) (x y : A) : Some x = Some y -> x = y.
Proof. intros H. now injection H. Qed.

Lemma hardening_files (mid img : image) :
  steps base tool installing base = Some mid ->
  build base tool Dockerfile_cpp = Some img ->
  exists fs,
    remove_files network_tools
      (fold_right remove_tree (files mid) package_manager) = Some fs /\
    (forall p, String.eqb "/app" p = false -> files img p = fs p) /\
    exists mode,
      files img "/app" = Some (mkInode Directory "sandbox" "sandbox" mode) /\
      match fs "/app" with Some n => mode = node_mode n | None => mode = 493 end.
Proof.
  intros Hmid. rewrite build_split, Hmid.
  rewrite (hardening_steps mid (installing_as_root mid Hmid)).
  destruct (remove_files network_tools _) as [fs|]; [|discriminate].
  intros H. exists fs. split; [reflexivity|].
  destruct (fs "/app") as [n|].
  - destruct (node_kind n); [|discriminate H]. apply some_eq in H. subst img.
    cbv [files]. split; [intros p Hp; now rewrite Hp|].
    exists (node_mode n). split; [now rewrite String.eqb_refl | reflexivity].
  - apply some_eq in H. subst img. cbv [files].
    split; [intros p Hp; now rewrite Hp|].
    exists 493. split; [now rewrite String.eqb_refl | reflexivity].
Qed.

(** X18. The hardening instructions change nothing else: a path that is
    neither one of the package manager's (or below one), nor one of the three
    network tools, nor [/app], is in the built image what the installing
    instructions left there, so the compilers [apk add] installed are kept. *)
Theorem hardening_keeps_the_rest (mid img : image) (p : string) :
  steps base tool installing base = Some mid ->
  build base tool Dockerfile_cpp = Some img ->
  untouched p = true ->
  files img p = files mid p.
Proof.
  intros Hmid Himg Hp. unfold untouched in Hp.
  apply andb_true_iff in Hp. destruct Hp as [Hp Happ].
  apply andb_true_iff in Hp. destruct Hp as [Hpm Hnet].
  apply negb_true_iff in Hpm, Hnet, Happ.
  destruct (hardening_files mid img Hmid Himg) as (fs & R & F & _).
  rewrite String.eqb_sym in Happ. rewrite (F p Happ).
  rewrite (remove_files_untouched _ _ _ p R Hnet).
  now apply remove_trees_untouched.
Qed.

(** X19. The account the command runs as can write to its workspace: when
    the installing instructions leave no [/app], or one whose owner may write
    to it, [sandbox] may write to [/app] in the built image. *)
Theorem workspace_writable (mid img : image) :
  steps base tool installing base = Some mid ->
  build base tool Dockerfile_cpp = Some img ->
  (forall n, files mid "/app" = Some n -> Z.testbit (node_mode n) 7 = true) ->
  sandbox_may_write img "/app" = true.
Proof.
  intros Hmid Himg Hmode.
  destruct (hardening_files mid img Hmid Himg) as (fs & R & _ & mode & A & M).
  assert (E : fs "/app" = files mid "/app").
  { rewrite (remove_files_untouched _ _ _ "/app" R eq_refl).
    now apply remove_trees_untouched. }
  unfold sandbox_may_write, may_write. rewrite A.
  cbn [node_owner node_mode String.eqb Ascii.eqb Bool.eqb].
  rewrite E in M. destruct (files mid "/app") as [n|].
  - subst mode. now apply Hmode.
  - now subst mode.
Qed.

(** X20. Of the network tools the definition removes three paths and no
    more: [/usr/bin/wget], [/usr/bin/curl] and [/usr/bin/nc] are absent from
    the built image, BusyBox is there as the installing instructions left
    it, and so its applets [wget] and [nc] run in the image whenever BusyBox
    was there. *)
Theorem network_links_only (mid img : image) :
  steps base tool installing base = Some mid ->
  build base tool Dockerfile_cpp = Some img ->
  (forall p, In p network_tools -> files img p = None) /\
  files img busybox = files mid busybox /\
  (forall name, In name busybox_network_applets ->
                runnable (files img) name = is_regular (files mid) busybox).
Proof.
  intros Hmid Himg.
  destruct (hardening_files mid img Hmid Himg) as (fs & R & F & _).
  assert (Hnet : forall p, In p network_tools -> files img p = None).
  { intros p Hin. rewrite (F p).
    - exact (remove_files_absent network_tools _ _ p Hin R).
    - destruct (String.eqb_spec "/app" p) as [E|E]; [|reflexivity].
      symmetry in E. now apply network_tools_not_app in Hin. }
  assert (Hbb : files img busybox = files mid busybox).
  { rewrite (F busybox eq_refl).
    rewrite (remove_files_untouched _ _ _ busybox R eq_refl).
    now apply remove_trees_untouched. }
  split; [exact Hnet|]. split; [exact Hbb|].
  intros name Hin. unfold runnable, is_regular. rewrite Hbb.
  unfold busybox_network_applets in Hin. cbn [In] in Hin.
  destruct Hin as [<- | [<- | []]]; cbn [append].
  - rewrite (Hnet "/usr/bin/wget") by (now left). reflexivity.
  - rewrite (Hnet "/usr/bin/nc") by (right; right; now left). reflexivity.
Qed.

End ImageMore.

Lemma hardening_fails_only_witness :
  (exists img, Image.build Image.alpine Image.idle Image.Dockerfile_cpp = Some img) <->
  existsb (is_directory (Image.files Image.alpine)) Image.network_tools = false /\
  is_regular (Image.files Image.alpine) "/app" = false.
Proof. exact (hardening_fails_only Image.alpine Image.idle Image.alpine eq_refl). Defined.


Lemma hardening_keeps_the_rest_witness :
  exists img, Image.build Image.alpine Image.idle Image.Dockerfile_cpp = Some img /\
              Image.files img "/bin/busybox" = Image.files Image.alpine "/bin/busybox" /\
              Image.files img "/tmp" = Image.files Image.alpine "/tmp".
Proof.
  destruct (Image.build Image.alpine Image.idle Image.Dockerfile_cpp) as [img|] eqn:E;
    [|vm_compute in E; discriminate E].
  exists img. split; [reflexivity|]. split.
  - exact (hardening_keeps_the_rest Image.alpine Image.idle Image.alpine img
             "/bin/busybox" eq_refl E eq_refl).
  - exact (hardening_keeps_the_rest Image.alpine Image.idle Image.alpine img
             "/tmp" eq_refl E eq_refl).
Defined.

Lemma workspace_writable_witness :
  exists img, Image.build Image.alpine Image.idle Image.Dockerfile_cpp = Some img /\
              Image.sandbox_may_write img "/app" = true.
Proof.
  destruct (Image.build Image.alpine Image.idle Image.Dockerfile_cpp) as [img|] eqn:E;
    [|vm_compute in E; discriminate E].
  exists img. split; [reflexivity|].
  apply (workspace_writable Image.alpine Image.idle Image.alpine img eq_refl E).
  intros n H. discriminate H.
Defined.

Lemma network_links_only_witness :
  exists img, Image.build Image.alpine Image.idle Image.Dockerfile_cpp = Some img /\
              Image.files img "/usr/bin/wget" = None /\
              runnable (Image.files img) "wget" = true.
Proof.
  destruct (Image.build Image.alpine Image.idle Image.Dockerfile_cpp) as [img|] eqn:E;
    [|vm_compute in E; discriminate E].
  exists img. split; [reflexivity|].
  destruct (network_links_only Image.alpine Image.idle Image.alpine img eq_refl E)
    as (Hnet & _ & Hrun).
  split.
  - apply Hnet. now left.
  - rewrite (Hrun "wget") by (now left). reflexivity.
Defined.

(** * The execution service: proofs *)

Section SandboxFacts.

Import Sandbox.

Lemma without_string_idempotent (x : string) (l : list string) :
  without_string x (without_string x l) = without_string x l.
Proof.
  induction l as [|y l IH]; [reflexivity|]. cbn [without_string].
  destruct (String.eqb x y) eqn:E; [exact IH|].
  cbn [without_string]. now rewrite E, IH.
Qed.

Lemma without_nat_idempotent (x : nat) (l : list nat) :
  without_nat x (without_nat x l) = without_nat x l.
Proof.
  induction l as [|y l IH]; [reflexivity|]. cbn [without_nat].
  destruct (Nat.eqb x y) eqn:E; [exact IH|].
  cbn [without_nat]. now rewrite E, IH.
Qed.

Lemma without_string_absent (x : string) (l : list string) :
  existsb (String.eqb x) (without_string x l) = false.
Proof.
  induction l as [|y l IH]; [reflexivity|]. cbn [without_string].
  destruct (String.eqb x y) eqn:E; [exact IH|].
  cbn [existsb]. now rewrite E, IH.
Qed.

Lemma without_nat_absent (x : nat) (l : list nat) :
  existsb (Nat.eqb x) (without_nat x l) = false.
Proof.
  induction l as [|y l IH]; [reflexivity|]. cbn [without_nat].
  destruct (Nat.eqb x y) eqn:E; [exact IH|].
  cbn [existsb]. now rewrite E, IH.
Qed.

Lemma release_not_held (i : SandboxInstance) (h : Host) :
  held i (release i h) = false.
Proof.
  unfold held, release. cbn [roots processes identities].
  now rewrite !without_string_absent, without_nat_absent.
Qed.

(** C9. Released a second time, an instance is left as the first release
    left it: the host is the same in every part, and [release] has no
    failure to report. *)
Theorem release_idempotent (i : SandboxInstance) (h : Host) :
  release i (release i h) = release i h.
Proof.
  unfold release.
  cbn [clock roots processes identities provisioned isolation_available].
  now rewrite !without_string_idempotent, without_nat_idempotent.
Qed.

(** A process that is still running at every instant looked at is waited
    for until the budget is spent. *)
Lemma wait_running (process : nat -> observation) (budget : nat) :
  forall t,
  (forall t', (t <= t' <= t + budget)%nat ->
              exists out err, process t' = Running out err) ->
  exists out err, wait process t budget = ((t + budget)%nat, Running out err).
Proof.
  induction budget as [|budget IH]; intros t H; cbn [wait].
  - destruct (H t ltac:(lia)) as (out & err & E). rewrite E.
    exists out, err. now rewrite Nat.add_0_r.
  - destruct (H t ltac:(lia)) as (out & err & E). rewrite E.
    destruct (IH (S t)) as (out' & err' & E').
    + intros t' Ht'. apply H. lia.
    + exists out', err'. rewrite E'. f_equal. lia.
Qed.

(** C10. A program still running when [wallClockLimitMs] have passed makes
    [execute] report [Timeout], with no exit code, after the limit and the
    cost of provisioning and teardown, and leaves nothing of the instance on
    the host: no root, no process, no identity. [execute] is a function: it
    returns whatever the program does. *)
Theorem timeout_enforced (provision_ms release_ms : Z)
    (registry : list SandboxImage) (policy : ExecutionPolicy)
    (untrusted : SandboxImage -> RunRequest -> nat -> observation)
    (request : RunRequest) (h : Host)
    (image : SandboxImage) (instance : SandboxInstance) (h1 : Host) :
  0 < wallClockLimitMs policy ->
  resolve registry (req_languageId request) = Some image ->
  provision provision_ms image (req_requestId request) h = Some (instance, h1) ->
  (forall t, Z.of_nat t <= wallClockLimitMs policy ->
             exists out err, untrusted image request t = Running out err) ->
  let (result, h') :=
    execute provision_ms release_ms registry policy untrusted request h in
  status result = Timeout /\
  exitCode result = None /\
  durationMs result <= wallClockLimitMs policy + (provision_ms + release_ms) /\
  held instance h' = false.
Proof.
  intros Hlimit Himage Hprov Hruns. unfold execute. rewrite Himage, Hprov.
  destruct (wait_running (untrusted image request)
              (Z.to_nat (wallClockLimitMs policy)) 0%nat) as (out & err & E).
  { intros t Ht. apply Hruns. lia. }
  rewrite E. repeat split.
  - cbn [durationMs elapse release reap spawn clock].
    unfold provision in Hprov.
    destruct (isolation_available h); [|discriminate Hprov].
    injection Hprov as _ <-. cbn [clock]. lia.
  - unfold held, elapse. cbn [roots processes identities].
    exact (release_not_held instance _).
Qed.

Lemma timeout_enforced_witness :
  let policy := {| cpuTimeLimitMs := 2000; wallClockLimitMs := 5000;
                   memoryLimitBytes := 268435456; networkEnabled := false |} in
  let cpp := {| languageId := "cpp"; imageReference := "sandbox-cpp";
                entrypointTemplate := "g++ {source} -o main && ./main" |} in
  let request := {| req_languageId := "cpp"; sourceCode := "int main() { for (;;) {} }";
                    stdin := ""; req_requestId := "r1" |} in
  let h := mkHost 0 [] [] [] 0 true in
  let (result, h') :=
    execute 40 10 [cpp] policy (fun _ _ _ => Running "" "") request h in
  status result = Timeout /\ durationMs result <= 5050 /\
  roots h' = [] /\ processes h' = [] /\ identities h' = [].
Proof.
  cbv zeta.
  match goal with
  | |- let (_, _) := execute ?p ?r ?reg ?pol ?u ?req ?h in _ =>
      pose proof (timeout_enforced p r reg pol u req h
                    {| languageId := "cpp"; imageReference := "sandbox-cpp";
                       entrypointTemplate := "g++ {source} -o main && ./main" |}
                    _ _ eq_refl eq_refl eq_refl
                    (fun t _ => ex_intro _ "" (ex_intro _ "" eq_refl))) as H;
      destruct (execute p r reg pol u req h) as [result h'] eqn:E
  end.
  destruct H as (Hs & _ & Hd & _).
  vm_compute in E. injection E as <- <-.
  repeat split. exact Hd.
Defined.

End SandboxFacts.
